(** * dat: a composer of parameterized SQL statements

    A shallow embedding of the statement builders of the [dat] package
    (InsertBuilder, SelectBuilder, SelectDocBuilder) and of the placeholder
    engine they share, followed by the properties the package's
    specification states about them.

    Conventions of the embedding:
    - a Go [string] is a [string]; a [bytes.Buffer] is the text written so
      far and [WriteString] is [++];
    - [interface{}] is the closed type [Value] of the dynamic values the
      builders inspect;
    - [int]/[int64] counters are unbounded [Z]: every cursor of the builders
      is one more than the length of the argument slice built so far, and a
      Go slice of 16-byte interface values cannot reach 2^63 elements, so
      the wrap-around of the machine type is never taken;
    - a method with a pointer receiver is a function from the receiver's
      state to its new state; where a method writes through a pointer to
      another builder (storeExpr), builders live in a [Heap] and the method
      is a heap transformer; [None] stands for a run-time panic;
    - a Go map is the list of its entries, and the order in which a [range]
      loop visits them is a draw of the runtime, an input of the call that
      runs the loop. *)

From Stdlib Require Import ZArith List Bool Ascii String Decimal DecimalString DecimalZ Lia.
From Stdlib Require Import Permutation.
Import ListNotations.

Set Warnings "-register-all".

#[local] Open Scope string_scope.
#[local] Open Scope Z_scope.

(** ** Dynamic values and errors *)

(** The values an [interface{}] argument can hold, as far as the builders
    distinguish them.  [VSlice None] is a nil slice, [VSlice (Some [])] an
    empty non-nil one.  [VExpr] is a [*Expression]: SQL text with relative
    placeholders and its bound arguments. *)
Inductive Value : Type :=
| VNil
| VInt (z : Z)
| VBool (b : bool)
| VString (s : string)
| VSlice (elems : option (list Value))
| VExpr (sql : string) (args : list Value).

Inductive error : Type :=
| NewError (msg : string).

(** What [ToSQL] returns: text, bound arguments, error. *)
Definition SQLResult : Type := (string * list Value * option error)%type.

Definition NewDatSQLErr (err : error) : SQLResult := ("", nil, Some err).
Definition NewDatSQLError (msg : string) : SQLResult := ("", nil, Some (NewError msg)).

Definition len {A : Type} (l : list A) : Z := Z.of_nat (List.length l).
Definition strlen (s : string) : Z := Z.of_nat (String.length s).

(** ** Decimal rendering and the placeholder engine *)

(** strconv.FormatInt(n, 10) *)
Definition itoa (n : Z) : string := NilZero.string_of_int (Z.to_int n).

(** A decimal digit, as the constructor it contributes to a [uint]. *)
Definition digit_of (c : ascii) : option (uint -> uint) :=
  match c with
  | "0" => Some D0 | "1" => Some D1 | "2" => Some D2 | "3" => Some D3
  | "4" => Some D4 | "5" => Some D5 | "6" => Some D6 | "7" => Some D7
  | "8" => Some D8 | "9" => Some D9
  | _ => None
  end%char.

(** A relative marker [$k] moved onto the window starting at [start]. *)
Definition shift_marker (start : Z) (k : uint) : string :=
  match k with
  | Nil => "$"
  | _ => "$" ++ itoa (start + Z.of_uint k - 1)
  end.

(** One right-to-left pass over the text.  The result [(d, r)] stands for
    the text [string_of_uint d ++ r]: [d] is the digit run the text starts
    with, still waiting to learn whether a [$] precedes it. *)
Fixpoint remap_scan (start : Z) (s : string) : uint * string :=
  match s with
  | EmptyString => (Nil, EmptyString)
  | String c s' =>
      let '(d, r) := remap_scan start s' in
      match digit_of c with
      | Some D => (D d, r)
      | None =>
          if Ascii.eqb c "$"
          then (Nil, shift_marker start d ++ r)
          else (Nil, String c (NilEmpty.string_of_uint d ++ r))
      end
  end.

(** Modelled from the spec: remapPlaceholders is not among the sources; its
    callers are.  Section 4.1: the text is written out with every relative
    marker [$k] (a dollar sign followed by a run of decimal digits)
    rewritten to the absolute [$(start+k-1)]; everything else is copied. *)
Definition remapPlaceholders (statement : string) (start : Z) : string :=
  let '(d, r) := remap_scan start statement in
  NilEmpty.string_of_uint d ++ r.

(** The markers of a text, left to right, by the same scan. *)
Fixpoint markers_scan (s : string) : uint * list Z :=
  match s with
  | EmptyString => (Nil, nil)
  | String c s' =>
      let '(d, ms) := markers_scan s' in
      match digit_of c with
      | Some D => (D d, ms)
      | None =>
          if Ascii.eqb c "$"
          then (Nil, match d with Nil => ms | _ => Z.of_uint d :: ms end)
          else (Nil, ms)
      end
  end.

Definition markers (s : string) : list Z := snd (markers_scan s).

(** ** The writer threaded through a rendering

    [ToSQL] owns a text buffer, the argument slice under construction and
    the placeholder cursor ([start] / [placeholderStartPos]). *)
Record Writer : Type := mkWriter {
  buf : string;
  args : list Value;
  pos : Z
}.

Definition WriteString (s : string) (w : Writer) : Writer :=
  mkWriter (buf w ++ s) (args w) (pos w).

(** [args = append(args, v); start++] *)
Definition bindArg (w : Writer) (v : Value) : Writer :=
  mkWriter (buf w) (args w ++ [v]) (pos w + 1).

(** [for i, x := range l { body }] with the index made explicit. *)
Fixpoint forRange {A S : Type} (body : nat -> A -> S -> S) (i : nat) (l : list A) (s : S) : S :=
  match l with
  | [] => s
  | x :: l' => forRange body (Datatypes.S i) l' (body i x s)
  end.

(** [Expr(sql, args...)]: a prebuilt fragment. *)
Record Expression : Type := Expr {
  Sql : string;
  Args : list Value
}.

(** Modelled from the spec: Expression.WriteRelativeArgs is not among the
    sources.  It is the compile primitive of section 4.1, and the three
    statements InsertBuilder.ToSQL performs inline for a [*Expression] value
    (remap at the cursor, append the arguments, advance the cursor by their
    number). *)
Definition WriteRelativeArgs (e : Expression) (w : Writer) : Writer :=
  mkWriter (buf w ++ remapPlaceholders (Sql e) (pos w))
           (args w ++ Args e)
           (pos w + len (Args e)).

(** The placeholders [$start .. $(start+n-1)]. *)
Definition placeholderList (start : Z) (n : nat) : list string :=
  map (fun i => "$" ++ itoa (start + Z.of_nat i)) (seq 0 n).

(** Modelled from the spec: buildPlaceholders is not among the sources.
    Section 4.4: placeholders numbered sequentially, one parenthesized group
    per row; the tests of the package fix the comma without a space. *)
Definition buildPlaceholders (start : Z) (length : nat) : string :=
  "(" ++ String.concat "," (placeholderList start length) ++ ")".

(** ** Ranging over a map

    [map[string]interface{}] / [Eq]: the entries of the map, listed once.
    Go's runtime picks the order in which a [range] loop visits them, anew
    at every loop. *)
Definition EqMap : Type := list (string * Value).

Definition insertAt {A : Type} (n : nat) (x : A) (l : list A) : list A :=
  (firstn n l ++ x :: skipn n l)%list.

(** The entries in the order one loop visits them.  [order] is the
    runtime's draw for that loop: going through the listed entries from the
    last one back, each is put at the place the draw gives it among those
    already placed (at the end when the place is past it).  Every order of
    visit is the outcome of some draw, and the empty draw visits the entries
    as they are listed. *)
Fixpoint shuffle {A : Type} (order : list nat) (l : list A) : list A :=
  match l with
  | [] => []
  | x :: l' => insertAt (hd 0%nat order) x (shuffle (tl order) l')
  end.

(** ** What the builders take from outside

    The identifier-quoting policy belongs to the Dialect, and the scope
    splitter to the scope machinery; neither is among the sources, so the
    builders are parameterised by them.  [mapOrder] is the runtime's draw
    for the loops that one ToSQL call makes over a map. *)
Record Externals : Type := mkExternals {
  writeIdentifier : string -> string;
  writeQuotedIdentifier : string -> string;
  Dialect_WriteIdentifier : string -> string;
  splitWhere : string -> string * string;
  mapOrder : EqMap -> list nat
}.

(** [for k, v := range eq] *)
Definition rangeMap (X : Externals) (eq : EqMap) : EqMap := shuffle (mapOrder X eq) eq.

(** The same dialect under another draw of the runtime. *)
Definition withMapOrder (order : EqMap -> list nat) (X : Externals) : Externals :=
  mkExternals (writeIdentifier X) (writeQuotedIdentifier X) (Dialect_WriteIdentifier X)
              (splitWhere X) order.

Definition quote : string := String (ascii_of_nat 34) EmptyString.

(** The setting the package's tests run in: writeIdentifier leaves a name
    as it is (TestInsertDuplicateColumns), the two quoting writers put it in
    double quotes (TestSelectDocSQLDocs); the fixtures below have no scope,
    so the splitter has no WHERE keyword to find; a map is visited in the
    order its entries are listed in. *)
Definition testExternals : Externals :=
  mkExternals (fun s => s)
              (fun s => quote ++ s ++ quote)
              (fun s => quote ++ s ++ quote)
              (fun s => (s, ""))
              (fun _ => []).

(** ** Predicates (WHERE / HAVING / ORDER BY inputs) *)

(** A fallible helper's outcome, Go's [(x, err)]. *)
Inductive result (A : Type) : Type :=
| Ok (a : A)
| Failed (e : error).
Arguments Ok {A} a.
Arguments Failed {A} e.

(** What a clause can be given ([whereSQLOrMap interface{}]). *)
Inductive Predicate : Type :=
| PString (sql : string)
| PExpression (e : Expression)
| PMap (m : EqMap)
| POther (v : Value).

Inductive whereFragment : Type :=
| Condition (sql : string) (values : list Value)
| EqualityMap (m : EqMap).

(** Modelled from the spec: newWhereFragment is not among the sources.
    Section 4.2: it accepts raw text with positional arguments, a
    column-to-value map and a prebuilt fragment; anything else is a
    validation error. *)
Definition newWhereFragment (whereSQLOrMap : Predicate) (args : list Value)
  : result whereFragment :=
  match whereSQLOrMap with
  | PString sql => Ok (Condition sql args)
  | PExpression e => Ok (Condition (Sql e) (Args e))
  | PMap m => Ok (EqualityMap m)
  | POther _ => Failed (NewError "Invalid argument passed to Where. Pass a string or an Eq map.")
  end.

Section Rendering.

Variable X : Externals.

(** [col = $n] with [v] bound at the cursor. *)
Definition writeBound (column op : string) (v : Value) (w : Writer) : Writer :=
  bindArg (WriteString (writeIdentifier X column ++ op ++ "$" ++ itoa (pos w)) w) v.

(** Modelled from the spec: the rendering of one entry of an equality map
    is not among the sources.  Section 4.2 gives the cases; the tests of the
    package (TestSelectWhereMapSql) fix the quoting of the column and, for a
    nil slice, assert [IS NULL] where they assert [1=0] for an empty
    non-nil slice, and this definition follows the tests. *)
Definition writeEqualityEntry (column : string) (v : Value) (w : Writer) : Writer :=
  match v with
  | VNil => WriteString (writeIdentifier X column ++ " IS NULL") w
  | VSlice None => WriteString (writeIdentifier X column ++ " IS NULL") w
  | VSlice (Some []) => WriteString "1=0" w
  | VSlice (Some [x]) => writeBound column " = " x w
  | VSlice (Some (_ :: _ :: _)) => writeBound column " IN " v w
  | _ => writeBound column " = " v w
  end.

(** The same entry as the words of section 4.2 have it: a slice of length
    0, nil slices included, is the constant [1=0]. *)
Definition writeEqualityEntry_spec (column : string) (v : Value) (w : Writer) : Writer :=
  match v with
  | VNil => WriteString (writeIdentifier X column ++ " IS NULL") w
  | VSlice None => WriteString "1=0" w
  | VSlice (Some []) => WriteString "1=0" w
  | VSlice (Some [x]) => writeBound column " = " x w
  | VSlice (Some (_ :: _ :: _)) => writeBound column " IN " v w
  | _ => writeBound column " = " v w
  end.

Definition andPrefix (anyConditions : bool) : string :=
  if anyConditions then " AND (" else "(".

(** The body of the loop of writeEqualityMapToSQL, over the entries in the
    order they are visited. *)
Fixpoint writeEqualityEntries (entries : EqMap) (anyConditions : bool) (w : Writer)
  : bool * Writer :=
  match entries with
  | [] => (anyConditions, w)
  | (k, v) :: m' =>
      writeEqualityEntries m' true
        (WriteString ")" (writeEqualityEntry k v (WriteString (andPrefix anyConditions) w)))
  end.

(** Modelled from the spec: writeEqualityMapToSQL is not among the sources.
    Section 4.2: each entry becomes a condition of its own, in an order of
    the keys that is left unspecified; ToSQL hands the registered maps over
    at render time, so the loop over a map runs in every ToSQL call. *)
Definition writeEqualityMapToSQL (eq : EqMap) (anyConditions : bool) (w : Writer)
  : bool * Writer :=
  writeEqualityEntries (rangeMap X eq) anyConditions w.

Fixpoint writeAndFragments (fragments : list whereFragment) (anyConditions : bool)
  (w : Writer) : Writer :=
  match fragments with
  | [] => w
  | Condition sql values :: fs =>
      writeAndFragments fs true
        (WriteString ")" (WriteRelativeArgs (Expr sql values)
                            (WriteString (andPrefix anyConditions) w)))
  | EqualityMap m :: fs =>
      let '(any', w') := writeEqualityMapToSQL m anyConditions w in
      writeAndFragments fs any' w'
  end.

(** Modelled from the spec: writeAndFragmentsToSQL is not among the
    sources.  Section 4.2: the predicates registered at one clause combine
    with AND at render time, each in its own parentheses, raw text embedded
    through the compile primitive. *)
Definition writeAndFragmentsToSQL (fragments : list whereFragment) (w : Writer) : Writer :=
  writeAndFragments fragments false w.

(** One fragment outside parentheses; the entries of a map are separated
    like the fragments around them. *)
Definition writeFragment (sep : string) (f : whereFragment) (w : Writer) : Writer :=
  match f with
  | Condition sql values => WriteRelativeArgs (Expr sql values) w
  | EqualityMap m =>
      forRange (fun i kv w =>
                  writeEqualityEntry (fst kv) (snd kv)
                    (if (0 <? i)%nat then WriteString sep w else w)) 0%nat (rangeMap X m) w
  end.

(** Modelled from the spec: writeCommaFragmentsToSQL is not among the
    sources.  Section 4.5: FROM targets and ORDER BY entries are
    comma-joined fragments, each independently parameterizable. *)
Definition writeCommaFragmentsToSQL (fragments : list whereFragment) (w : Writer) : Writer :=
  forRange (fun i f w =>
              writeFragment ", " f (if (0 <? i)%nat then WriteString ", " w else w))
           0%nat fragments w.

(** Modelled from the spec: writeConcatFragmentsToSQL is not among the
    sources.  Section 4.5: JOIN fragments are concatenated, not
    comma-joined; a blank keeps each keyword apart from what precedes. *)
Definition writeConcatFragmentsToSQL (fragments : list whereFragment) (w : Writer) : Writer :=
  forRange (fun _ f w => writeFragment " " f (WriteString " " w)) 0%nat fragments w.

End Rendering.

(** ** InsertBuilder *)

Record onConflictTargetType : Type := mkTarget {
  column : string;
  constraint : string;
  indexPredicate : string
}.

Record setClause : Type := mkSetClause {
  set_column : string;
  set_value : Value
}.

Record onConflictActionType : Type := mkAction {
  action : string;
  setClauses : list setClause;
  whereFragments : list whereFragment
}.

(** A record handed to [Record]: its tagged fields as the Field Mapper
    lists them (ordered, an outer field already shadowing an embedded one of
    the same tag), each with the value the accessor reads. *)
Definition GoRecord : Type := list (string * Value).

(** NewInsertBuilder allocates both ON CONFLICT structures, and nothing
    resets them, so the two pointers of the Go struct are never nil and are
    held by value. *)
Record InsertBuilder : Type := mkInsertBuilder {
  table : string;
  cols : list string;
  isBlacklist : bool;
  vals : list (list Value);
  records : list GoRecord;
  onConflictTarget : onConflictTargetType;
  onConflictAction : onConflictActionType;
  returnings : list string;
  err : option error
}.

Definition updateAction : string := "UPDATE".
Definition excludedColumn : string := "EXCLUDED".

(** NewInsertBuilder: no builder ([nil]) for an empty table name. *)
Definition NewInsertBuilder (table : string) : option InsertBuilder :=
  if String.eqb table "" then None
  else Some (mkInsertBuilder table [] false [] [] (mkTarget "" "" "") (mkAction "" [] []) [] None).

Definition InsertBuilder_Whitelist (columns : list string) (b : InsertBuilder) : InsertBuilder :=
  mkInsertBuilder (table b) columns (isBlacklist b) (vals b) (records b)
    (onConflictTarget b) (onConflictAction b) (returnings b) (err b).

Definition InsertBuilder_Columns (columns : list string) (b : InsertBuilder) : InsertBuilder :=
  InsertBuilder_Whitelist columns b.

Definition InsertBuilder_Blacklist (columns : list string) (b : InsertBuilder) : InsertBuilder :=
  mkInsertBuilder (table b) columns true (vals b) (records b)
    (onConflictTarget b) (onConflictAction b) (returnings b) (err b).

Definition InsertBuilder_Values (vs : list Value) (b : InsertBuilder) : InsertBuilder :=
  mkInsertBuilder (table b) (cols b) (isBlacklist b) (vals b ++ [vs]) (records b)
    (onConflictTarget b) (onConflictAction b) (returnings b) (err b).

Definition InsertBuilder_Record (record : GoRecord) (b : InsertBuilder) : InsertBuilder :=
  mkInsertBuilder (table b) (cols b) (isBlacklist b) (vals b) (records b ++ [record])
    (onConflictTarget b) (onConflictAction b) (returnings b) (err b).

(** hasOneConflictTarget: one and only one of the possible targets; a nil
    receiver has none. *)
Definition hasOneConflictTarget (t : option onConflictTargetType) : bool :=
  match t with
  | None => false
  | Some t =>
      let hasColumn := negb (strlen (column t) =? 0) in
      let hasConstraint := negb (strlen (constraint t) =? 0) in
      (hasColumn && negb hasConstraint) || (negb hasColumn && hasConstraint)
  end.

Definition setTarget (t : onConflictTargetType) (b : InsertBuilder) : InsertBuilder :=
  mkInsertBuilder (table b) (cols b) (isBlacklist b) (vals b) (records b)
    t (onConflictAction b) (returnings b) (err b).

Definition setAction (a : onConflictActionType) (b : InsertBuilder) : InsertBuilder :=
  mkInsertBuilder (table b) (cols b) (isBlacklist b) (vals b) (records b)
    (onConflictTarget b) a (returnings b) (err b).

Definition setErr (e : option error) (b : InsertBuilder) : InsertBuilder :=
  mkInsertBuilder (table b) (cols b) (isBlacklist b) (vals b) (records b)
    (onConflictTarget b) (onConflictAction b) (returnings b) e.

Definition OnConflictColumn (c : string) (b : InsertBuilder) : InsertBuilder :=
  let t := onConflictTarget b in
  setTarget (mkTarget c (constraint t) (indexPredicate t)) b.

Definition OnConflictConstraint (c : string) (b : InsertBuilder) : InsertBuilder :=
  let t := onConflictTarget b in
  setTarget (mkTarget (column t) c (indexPredicate t)) b.

Definition OnConflictWhere (c : string) (predicate : string) (b : InsertBuilder) : InsertBuilder :=
  let t := onConflictTarget b in
  setTarget (mkTarget c (constraint t) predicate) b.

(** Set: without a single conflict target the call records an error, unless
    one is recorded already, and changes nothing else. *)
Definition InsertBuilder_Set (c : string) (value : Value) (b : InsertBuilder) : InsertBuilder :=
  if negb (hasOneConflictTarget (Some (onConflictTarget b))) then
    match err b with
    | None => setErr (Some (NewError "A conflict_target must be provided for ON CONFLICT DO UPDATE")) b
    | Some _ => b
    end
  else
    let a := onConflictAction b in
    setAction (mkAction updateAction (setClauses a ++ [mkSetClause c value]) (whereFragments a)) b.

(** SetMap: [Set] for every entry; the loop runs in this call, and
    [clauses] lists the entries in the order it visits them. *)
Definition InsertBuilder_SetMap (clauses : EqMap) (b : InsertBuilder) : InsertBuilder :=
  fold_left (fun b kv => InsertBuilder_Set (fst kv) (snd kv) b) clauses b.

Definition InsertBuilder_Where (whereSQLOrMap : Predicate) (args : list Value)
  (b : InsertBuilder) : InsertBuilder :=
  if negb (String.eqb (action (onConflictAction b)) updateAction) then
    match err b with
    | None => setErr (Some (NewError "conflict_action must be equal to UPDATE")) b
    | Some _ => b
    end
  else
    match newWhereFragment whereSQLOrMap args with
    | Failed e => setErr (Some e) b
    | Ok fragment =>
        let a := onConflictAction b in
        setAction (mkAction (action a) (setClauses a) (whereFragments a ++ [fragment])) b
    end.

Definition InsertBuilder_Returning (columns : list string) (b : InsertBuilder) : InsertBuilder :=
  mkInsertBuilder (table b) (cols b) (isBlacklist b) (vals b) (records b)
    (onConflictTarget b) (onConflictAction b) columns (err b).

Definition InsertBuilder_Pair (c : string) (value : Value) (b : InsertBuilder) : InsertBuilder :=
  let b := InsertBuilder_Whitelist (cols b ++ [c]) b in
  match vals b with
  | [] =>
      mkInsertBuilder (table b) (cols b) (isBlacklist b) [[value]] (records b)
        (onConflictTarget b) (onConflictAction b) (returnings b) (err b)
  | [row] =>
      mkInsertBuilder (table b) (cols b) (isBlacklist b) [(row ++ [value])%list] (records b)
        (onConflictTarget b) (onConflictAction b) (returnings b) (err b)
  | _ => setErr (Some (NewError "pair only allows you to specify 1 record to insert")) b
  end.

(** Modelled from the spec: valuesFor and the reflection helpers are not
    among the sources.  Section 4.3: for a resolved column order, each
    record's corresponding field value is read; a record lacking a required
    tagged field fails. *)
Fixpoint fieldValue (rec : GoRecord) (c : string) : option Value :=
  match rec with
  | [] => None
  | (tag, v) :: rec' => if String.eqb tag c then Some v else fieldValue rec' c
  end.

Fixpoint valuesFor (rec : GoRecord) (columns : list string) : result (list Value) :=
  match columns with
  | [] => Ok []
  | c :: cs =>
      match fieldValue rec c with
      | None => Failed (NewError ("could not map db column " ++ c ++ " to struct field"))
      | Some v =>
          match valuesFor rec cs with
          | Ok vs => Ok (v :: vs)
          | Failed e => Failed e
          end
      end
  end.

(** Whitelist ["*"]: the full field list of the record. *)
Definition reflectColumns (rec : GoRecord) : list string := map fst rec.

(** Blacklist: the full field list minus the named columns. *)
Definition reflectExcludeColumns (rec : GoRecord) (excluded : list string) : list string :=
  filter (fun c => negb (existsb (String.eqb c) excluded)) (reflectColumns rec).

(** Modelled from the spec: maxLookup and equalsPlaceholderTab are not among
    the sources.  Section 4.4 has the value bound as a fresh absolute
    placeholder, so entry [i] of the table is the text the slow path builds
    for [i]. *)
Definition maxLookup : Z := 100.
Definition equalsPlaceholderTab (i : Z) : string := " = $" ++ itoa i.

Section Insert.

Variable X : Externals.

(** The column list: [for i, c := range cols]. *)
Definition writeColumns (columns : list string) (w : Writer) : Writer :=
  forRange (fun i c w =>
              WriteString (writeIdentifier X c)
                (if (0 <? i)%nat then WriteString "," w else w))
           0%nat columns w.

(** One row: its group of placeholders, then its values bound in order. *)
Definition writeRow (row : list Value) (w : Writer) : Writer :=
  fold_left bindArg row (WriteString (buildPlaceholders (pos w) (List.length row)) w).

(** The literal rows: [for i, row := range b.vals]. *)
Definition writeRows (rows : list (list Value)) (w : Writer) : Writer :=
  forRange (fun i row w => writeRow row (if (0 <? i)%nat then WriteString "," w else w))
           0%nat rows w.

(** The records: [for i, rec := range b.records], leaving at the first
    record that cannot be mapped. *)
Fixpoint writeRecords (anyVals : bool) (columns : list string) (i : nat)
  (recs : list GoRecord) (w : Writer) : result Writer :=
  match recs with
  | [] => Ok w
  | rec :: recs' =>
      let w := if (0 <? i)%nat || anyVals then WriteString "," w else w in
      match valuesFor rec columns with
      | Failed e => Failed e
      | Ok values => writeRecords anyVals columns (S i) recs' (writeRow values w)
      end
  end.

(** The conflict target. *)
Definition writeConflictTarget (t : onConflictTargetType) (w : Writer) : Writer :=
  if 0 <? strlen (column t) then
    let w := WriteString ("(" ++ column t ++ ")") w in
    if 0 <? strlen (indexPredicate t)
    then WriteString (" WHERE " ++ indexPredicate t) w
    else w
  else if 0 <? strlen (constraint t) then
    WriteString ("ON CONSTRAINT " ++ constraint t) w
  else w.

(** One pass of the loop over the SET pairs. *)
Definition writeSetClause (i : nat) (c : setClause) (w : Writer) : Writer :=
  let w := if (0 <? i)%nat then WriteString ", " w else w in
  let w := WriteString (writeIdentifier X (set_column c)) w in
  let bound :=
    bindArg (if pos w <? maxLookup
             then WriteString (equalsPlaceholderTab (pos w)) w
             else WriteString (" = $" ++ itoa (pos w)) w)
            (set_value c) in
  match set_value c with
  | VExpr sql eargs =>
      let w := WriteString " = " w in
      mkWriter (buf w ++ remapPlaceholders sql (pos w)) (args w ++ eargs) (pos w + len eargs)
  | VString s =>
      if String.eqb s (excludedColumn ++ "." ++ set_column c)
      then WriteString s (WriteString " = " w)
      else bound
  | _ => bound
  end.

(** The conflict action. *)
Definition writeConflictAction (a : onConflictActionType) (w : Writer) : Writer :=
  if negb (String.eqb (action a) updateAction) then WriteString " DO NOTHING" w
  else
    let w := WriteString " DO UPDATE SET " w in
    let w := forRange writeSetClause 0%nat (setClauses a) w in
    if (0 <? len (whereFragments a))
    then writeAndFragmentsToSQL X (whereFragments a) (WriteString " WHERE " w)
    else w.

(** The ON CONFLICT clause, written only for a single conflict target. *)
Definition writeOnConflict (b : InsertBuilder) (w : Writer) : Writer :=
  if hasOneConflictTarget (Some (onConflictTarget b)) then
    writeConflictAction (onConflictAction b)
      (writeConflictTarget (onConflictTarget b) (WriteString " ON CONFLICT " w))
  else w.

(** The RETURNING clause. *)
Definition writeReturnings (columns : list string) (w : Writer) : Writer :=
  forRange (fun i c w =>
              WriteString (writeIdentifier X c)
                (if (i =? 0)%nat then WriteString " RETURNING " w else WriteString "," w))
           0%nat columns w.

(** The column list the rows are resolved against.  [None]: [cols[0]] is
    read on an empty slice (a blacklist that removes every field). *)
Definition resolveColumns (b : InsertBuilder) : option (list string) :=
  match records b with
  | [] => Some (cols b)
  | rec0 :: _ =>
      let columns := if isBlacklist b then reflectExcludeColumns rec0 (cols b) else cols b in
      match columns with
      | [] => None
      | c0 :: _ => Some (if String.eqb c0 "*" then reflectColumns rec0 else columns)
      end
  end.

(** The statement up to its last row: [start] begins at 1, the literal
    rows come first, then the records. *)
Definition writeValues (b : InsertBuilder) (columns : list string) : result Writer :=
  let w := mkWriter "" [] 1 in
  let w := WriteString "INSERT INTO " w in
  let w := WriteString (table b) w in
  let w := WriteString " (" w in
  let w := writeColumns columns w in
  let w := WriteString ") VALUES " w in
  let w := writeRows (vals b) w in
  let anyVals := 0 <? len (vals b) in
  writeRecords anyVals columns 0%nat (records b) w.

(** InsertBuilder.ToSQL.  [None] is the index panic of [resolveColumns]. *)
Definition InsertBuilder_ToSQL (b : InsertBuilder) : option SQLResult :=
  match err b with
  | Some e => Some ("", nil, Some e)
  | None =>
  if strlen (table b) =? 0 then Some ("", nil, Some (NewError "no table specified")) else
  let lenCols := len (cols b) in
  let lenRecords := len (records b) in
  if lenCols =? 0 then Some ("", nil, Some (NewError "no columns specified")) else
  if (len (vals b) =? 0) && (lenRecords =? 0)
  then Some ("", nil, Some (NewError "no values or records specified")) else
  if (lenRecords =? 0) && String.eqb (hd "" (cols b)) "*"
  then Some ("", nil, Some (NewError (quote ++ "*" ++ quote ++ " can only be used in conjunction with Record"))) else
  if (lenRecords =? 0) && isBlacklist b
  then Some ("", nil, Some (NewError "Blacklist can only be used in conjunction with Record")) else
  match resolveColumns b with
  | None => None
  | Some columns =>
      match writeValues b columns with
      | Failed e => Some ("", nil, Some e)
      | Ok w =>
          let w := writeOnConflict b w in
          let w := writeReturnings (returnings b) w in
          Some (buf w, args w, None)
      end
  end
  end.

End Insert.

(** ** SelectBuilder *)

(** A scope: [ToSQL(table) (string, []interface{})]. *)
Definition Scope : Type := string -> string * list Value.

Record SelectBuilder : Type := mkSelectBuilder {
  isDistinct : bool;
  distinctColumns : list string;
  columns : list string;
  fors : list string;
  tableFragments : list whereFragment;
  joinFragments : list whereFragment;
  sel_whereFragments : list whereFragment;
  groupBys : list string;
  havingFragments : list whereFragment;
  orderBys : list whereFragment;
  limitCount : Z;
  limitValid : bool;
  offsetCount : Z;
  offsetValid : bool;
  scope : option Scope;
  sel_err : option error
}.

(** What a chaining call hands back: the receiver, or nil. *)
Inductive Returned : Type :=
| Receiver
| NilBuilder.

Definition emptySelectBuilder : SelectBuilder :=
  mkSelectBuilder false [] [] [] [] [] [] [] [] [] 0 false 0 false None None.

Definition sel_setErr (e : option error) (b : SelectBuilder) : SelectBuilder :=
  mkSelectBuilder (isDistinct b) (distinctColumns b) (columns b) (fors b)
    (tableFragments b) (joinFragments b) (sel_whereFragments b) (groupBys b)
    (havingFragments b) (orderBys b) (limitCount b) (limitValid b)
    (offsetCount b) (offsetValid b) (scope b) e.

Definition sel_setColumns (cs : list string) (b : SelectBuilder) : SelectBuilder :=
  mkSelectBuilder (isDistinct b) (distinctColumns b) cs (fors b)
    (tableFragments b) (joinFragments b) (sel_whereFragments b) (groupBys b)
    (havingFragments b) (orderBys b) (limitCount b) (limitValid b)
    (offsetCount b) (offsetValid b) (scope b) (sel_err b).

(** Columns: an empty list, or an empty first column, records the error and
    returns nil; otherwise the columns are appended. *)
Definition SelectBuilder_Columns (cs : list string) (b : SelectBuilder)
  : SelectBuilder * Returned :=
  if (len cs =? 0) || String.eqb (hd "" cs) ""
  then (sel_setErr (Some (NewError "Select requires 1 or more columns")) b, NilBuilder)
  else (sel_setColumns (columns b ++ cs) b, Receiver).

(** NewSelectBuilder drops what Columns returns and returns the builder. *)
Definition NewSelectBuilder (cs : list string) : SelectBuilder :=
  fst (SelectBuilder_Columns cs emptySelectBuilder).

Definition SelectBuilder_Distinct (b : SelectBuilder) : SelectBuilder :=
  mkSelectBuilder true (distinctColumns b) (columns b) (fors b)
    (tableFragments b) (joinFragments b) (sel_whereFragments b) (groupBys b)
    (havingFragments b) (orderBys b) (limitCount b) (limitValid b)
    (offsetCount b) (offsetValid b) (scope b) (sel_err b).

Definition SelectBuilder_DistinctOn (cs : list string) (b : SelectBuilder) : SelectBuilder :=
  mkSelectBuilder true cs (columns b) (fors b)
    (tableFragments b) (joinFragments b) (sel_whereFragments b) (groupBys b)
    (havingFragments b) (orderBys b) (limitCount b) (limitValid b)
    (offsetCount b) (offsetValid b) (scope b) (sel_err b).

Definition SelectBuilder_From (fromStr : string) (a : list Value) (b : SelectBuilder) : SelectBuilder :=
  match newWhereFragment (PString fromStr) a with
  | Failed e => sel_setErr (Some e) b
  | Ok fragment =>
      mkSelectBuilder (isDistinct b) (distinctColumns b) (columns b) (fors b)
        (tableFragments b ++ [fragment]) (joinFragments b) (sel_whereFragments b) (groupBys b)
        (havingFragments b) (orderBys b) (limitCount b) (limitValid b)
        (offsetCount b) (offsetValid b) (scope b) (sel_err b)
  end.

Definition implJoin (joinStr : string) (a : list Value) (b : SelectBuilder) : SelectBuilder :=
  match newWhereFragment (PString joinStr) a with
  | Failed e => sel_setErr (Some e) b
  | Ok fragment =>
      mkSelectBuilder (isDistinct b) (distinctColumns b) (columns b) (fors b)
        (tableFragments b) (joinFragments b ++ [fragment]) (sel_whereFragments b) (groupBys b)
        (havingFragments b) (orderBys b) (limitCount b) (limitValid b)
        (offsetCount b) (offsetValid b) (scope b) (sel_err b)
  end.

Definition SelectBuilder_Join (joinStr : string) := implJoin ("INNER JOIN " ++ joinStr).
Definition SelectBuilder_LeftJoin (joinStr : string) := implJoin ("LEFT JOIN " ++ joinStr).
Definition SelectBuilder_RightJoin (joinStr : string) := implJoin ("RIGHT JOIN " ++ joinStr).
Definition SelectBuilder_FullOuterJoin (joinStr : string) := implJoin ("FULL OUTER JOIN " ++ joinStr).

Definition SelectBuilder_For (options : list string) (b : SelectBuilder) : SelectBuilder :=
  mkSelectBuilder (isDistinct b) (distinctColumns b) (columns b) options
    (tableFragments b) (joinFragments b) (sel_whereFragments b) (groupBys b)
    (havingFragments b) (orderBys b) (limitCount b) (limitValid b)
    (offsetCount b) (offsetValid b) (scope b) (sel_err b).

(** Scope: the text and arguments, whatever the table. *)
Definition SelectBuilder_Scope (sql : string) (a : list Value) (b : SelectBuilder) : SelectBuilder :=
  mkSelectBuilder (isDistinct b) (distinctColumns b) (columns b) (fors b)
    (tableFragments b) (joinFragments b) (sel_whereFragments b) (groupBys b)
    (havingFragments b) (orderBys b) (limitCount b) (limitValid b)
    (offsetCount b) (offsetValid b) (Some (fun _ => (sql, a))) (sel_err b).

Definition SelectBuilder_Where (whereSQLOrMap : Predicate) (a : list Value) (b : SelectBuilder)
  : SelectBuilder :=
  match newWhereFragment whereSQLOrMap a with
  | Failed e => sel_setErr (Some e) b
  | Ok fragment =>
      mkSelectBuilder (isDistinct b) (distinctColumns b) (columns b) (fors b)
        (tableFragments b) (joinFragments b) (sel_whereFragments b ++ [fragment]) (groupBys b)
        (havingFragments b) (orderBys b) (limitCount b) (limitValid b)
        (offsetCount b) (offsetValid b) (scope b) (sel_err b)
  end.

Definition SelectBuilder_GroupBy (group : string) (b : SelectBuilder) : SelectBuilder :=
  mkSelectBuilder (isDistinct b) (distinctColumns b) (columns b) (fors b)
    (tableFragments b) (joinFragments b) (sel_whereFragments b) (groupBys b ++ [group])
    (havingFragments b) (orderBys b) (limitCount b) (limitValid b)
    (offsetCount b) (offsetValid b) (scope b) (sel_err b).

Definition SelectBuilder_Having (whereSQLOrMap : Predicate) (a : list Value) (b : SelectBuilder)
  : SelectBuilder :=
  match newWhereFragment whereSQLOrMap a with
  | Failed e => sel_setErr (Some e) b
  | Ok fragment =>
      mkSelectBuilder (isDistinct b) (distinctColumns b) (columns b) (fors b)
        (tableFragments b) (joinFragments b) (sel_whereFragments b) (groupBys b)
        (havingFragments b ++ [fragment]) (orderBys b) (limitCount b) (limitValid b)
        (offsetCount b) (offsetValid b) (scope b) (sel_err b)
  end.

Definition SelectBuilder_OrderBy (whereSQLOrMap : Predicate) (a : list Value) (b : SelectBuilder)
  : SelectBuilder :=
  match newWhereFragment whereSQLOrMap a with
  | Failed e => sel_setErr (Some e) b
  | Ok fragment =>
      mkSelectBuilder (isDistinct b) (distinctColumns b) (columns b) (fors b)
        (tableFragments b) (joinFragments b) (sel_whereFragments b) (groupBys b)
        (havingFragments b) (orderBys b ++ [fragment]) (limitCount b) (limitValid b)
        (offsetCount b) (offsetValid b) (scope b) (sel_err b)
  end.

Definition SelectBuilder_Limit (limit : Z) (b : SelectBuilder) : SelectBuilder :=
  mkSelectBuilder (isDistinct b) (distinctColumns b) (columns b) (fors b)
    (tableFragments b) (joinFragments b) (sel_whereFragments b) (groupBys b)
    (havingFragments b) (orderBys b) limit true
    (offsetCount b) (offsetValid b) (scope b) (sel_err b).

Definition SelectBuilder_Offset (offset : Z) (b : SelectBuilder) : SelectBuilder :=
  mkSelectBuilder (isDistinct b) (distinctColumns b) (columns b) (fors b)
    (tableFragments b) (joinFragments b) (sel_whereFragments b) (groupBys b)
    (havingFragments b) (orderBys b) (limitCount b) (limitValid b)
    offset true (scope b) (sel_err b).

(** Paginate: [(page - 1) * perPage] in uint64 arithmetic. *)
Definition SelectBuilder_Paginate (page perPage : Z) (b : SelectBuilder) : SelectBuilder :=
  SelectBuilder_Offset (((page - 1) * perPage) mod 2 ^ 64) (SelectBuilder_Limit perPage b).

(** [for i, s := range l]: the strings separated by [", "]. *)
Definition writeStrings (l : list string) (w : Writer) : Writer :=
  forRange (fun i s w => WriteString s (if (0 <? i)%nat then WriteString ", " w else w))
           0%nat l w.

Definition writeDistinct (b : SelectBuilder) (w : Writer) : Writer :=
  if isDistinct b then
    if len (distinctColumns b) =? 0 then WriteString "DISTINCT " w
    else WriteString ") " (writeStrings (distinctColumns b) (WriteString "DISTINCT ON (" w))
  else w.

(** Run [f] on a second buffer ([fromBuf]) sharing the arguments and the
    cursor; return what it wrote. *)
Definition onBuffer (f : Writer -> Writer) (w : Writer) : string * Writer :=
  let fw := f (mkWriter "" (args w) (pos w)) in
  (buf fw, mkWriter (buf w) (args fw) (pos fw)).

Definition writeUint64 (n : Z) (w : Writer) : Writer := WriteString (itoa n) w.

Section Select.

Variable X : Externals.

(** The scope, when one is set: its text up to the WHERE keyword is
    written, the rest becomes one more WHERE fragment. *)
Definition applyScope (sc : option Scope) (from : string)
  (fragments : list whereFragment) (w : Writer)
  : result (list whereFragment * Writer) :=
  match sc with
  | None => Ok (fragments, w)
  | Some sc =>
      let '(sql, args2) := sc from in
      let '(sql, whereText) := splitWhere X sql in
      let w := WriteString sql w in
      if negb (String.eqb whereText "") then
        match newWhereFragment (PString whereText) args2 with
        | Failed e => Failed e
        | Ok fragment => Ok ((fragments ++ [fragment])%list, w)
        end
      else Ok (fragments, w)
  end.

(** GROUP BY, HAVING, ORDER BY, LIMIT, OFFSET and FOR, as both ToSQL
    methods write them. *)
Definition writeGroupBys (b : SelectBuilder) (w : Writer) : Writer :=
  if 0 <? len (groupBys b) then writeStrings (groupBys b) (WriteString " GROUP BY " w) else w.

Definition writeHaving (b : SelectBuilder) (w : Writer) : Writer :=
  if 0 <? len (havingFragments b)
  then writeAndFragmentsToSQL X (havingFragments b) (WriteString " HAVING " w) else w.

Definition writeOrderBys (b : SelectBuilder) (w : Writer) : Writer :=
  if 0 <? len (orderBys b)
  then writeCommaFragmentsToSQL X (orderBys b) (WriteString " ORDER BY " w) else w.

Definition writeLimitOffset (b : SelectBuilder) (w : Writer) : Writer :=
  let w := if limitValid b then writeUint64 (limitCount b) (WriteString " LIMIT " w) else w in
  if offsetValid b then writeUint64 (offsetCount b) (WriteString " OFFSET " w) else w.

Definition writeFors (b : SelectBuilder) (w : Writer) : Writer :=
  if 0 <? len (fors b)
  then fold_left (fun w s => WriteString s (WriteString " " w)) (fors b) (WriteString " FOR" w)
  else w.

Definition writeWhere (fragments : list whereFragment) (w : Writer) : Writer :=
  if 0 <? len fragments
  then writeAndFragmentsToSQL X fragments (WriteString " WHERE " w) else w.

(** SelectBuilder.ToSQL *)
Definition SelectBuilder_ToSQL (b : SelectBuilder) : SQLResult :=
  match sel_err b with
  | Some e => NewDatSQLErr e
  | None =>
  if len (columns b) =? 0 then NewDatSQLError "no columns specified" else
  if (len (tableFragments b) =? 0) && (0 <? len (joinFragments b))
  then NewDatSQLError "joins may only be attached if a from target is specified" else
  let w := mkWriter "" [] 1 in
  let w := WriteString "SELECT " w in
  let w := writeDistinct b w in
  let w := writeStrings (columns b) w in
  let '(from, w) :=
    if 0 <? len (tableFragments b) then
      let w := WriteString " FROM " w in
      let '(from, w) :=
        onBuffer (fun fw => writeConcatFragmentsToSQL X (joinFragments b)
                              (writeCommaFragmentsToSQL X (tableFragments b) fw)) w in
      (from, WriteString from w)
    else ("", w) in
  match applyScope (scope b) from (sel_whereFragments b) w with
  | Failed e => NewDatSQLErr e
  | Ok (fragments, w) =>
      let w := writeWhere fragments w in
      let w := writeGroupBys b w in
      let w := writeHaving b w in
      let w := writeOrderBys b w in
      let w := writeLimitOffset b w in
      let w := writeFors b w in
      (buf w, args w, None)
  end
  end.

End Select.

(** ** SelectDocBuilder *)

Record subInfo : Type := mkSubInfo {
  sub_expr : Expression;
  alias : string
}.

(** The six roles a sub-query is stored under; for a union the alias holds
    the blank or [ALL] that follows the keyword. *)
Inductive Role : Type := WITH | MANY | ONE | VECTOR | SCALAR | UNION.

(** The slices hold pointers, and Whitelist writes nil into them: a slot is
    an [option].  The builder's own [err] shadows the one of the embedded
    SelectBuilder, which is kept in [inner]. *)
Record SelectDocBuilder : Type := mkDoc {
  inner : SelectBuilder;
  subQueriesWith : list (option subInfo);
  subQueriesMany : list (option subInfo);
  subQueriesOne : list (option subInfo);
  subQueriesVector : list (option subInfo);
  subQueriesScalar : list (option subInfo);
  innerSQL : option Expression;
  union : list (option subInfo);
  isParent : bool;
  doc_err : option error
}.

Definition NewSelectDocBuilder (cs : list string) : SelectDocBuilder :=
  mkDoc (NewSelectBuilder cs) [] [] [] [] [] None [] true None.

Definition subQueries (r : Role) (b : SelectDocBuilder) : list (option subInfo) :=
  match r with
  | WITH => subQueriesWith b
  | MANY => subQueriesMany b
  | ONE => subQueriesOne b
  | VECTOR => subQueriesVector b
  | SCALAR => subQueriesScalar b
  | UNION => union b
  end.

Definition setSubQueries (r : Role) (l : list (option subInfo)) (b : SelectDocBuilder)
  : SelectDocBuilder :=
  mkDoc (inner b)
    (match r with WITH => l | _ => subQueriesWith b end)
    (match r with MANY => l | _ => subQueriesMany b end)
    (match r with ONE => l | _ => subQueriesOne b end)
    (match r with VECTOR => l | _ => subQueriesVector b end)
    (match r with SCALAR => l | _ => subQueriesScalar b end)
    (innerSQL b)
    (match r with UNION => l | _ => union b end)
    (isParent b) (doc_err b).

Definition setIsParent (p : bool) (b : SelectDocBuilder) : SelectDocBuilder :=
  mkDoc (inner b) (subQueriesWith b) (subQueriesMany b) (subQueriesOne b)
    (subQueriesVector b) (subQueriesScalar b) (innerSQL b) (union b) p (doc_err b).

Definition doc_setErr (e : option error) (b : SelectDocBuilder) : SelectDocBuilder :=
  mkDoc (inner b) (subQueriesWith b) (subQueriesMany b) (subQueriesOne b)
    (subQueriesVector b) (subQueriesScalar b) (innerSQL b) (union b) (isParent b) e.

Definition setInner (sb : SelectBuilder) (b : SelectDocBuilder) : SelectDocBuilder :=
  mkDoc sb (subQueriesWith b) (subQueriesMany b) (subQueriesOne b)
    (subQueriesVector b) (subQueriesScalar b) (innerSQL b) (union b) (isParent b) (doc_err b).

Definition SelectDocBuilder_InnerSQL (sql : string) (a : list Value) (b : SelectDocBuilder)
  : SelectDocBuilder :=
  mkDoc (inner b) (subQueriesWith b) (subQueriesMany b) (subQueriesOne b)
    (subQueriesVector b) (subQueriesScalar b) (Some (Expr sql a)) (union b)
    (isParent b) (doc_err b).

(** The overrides that forward to the SelectBuilder and return the
    document builder. *)
Definition SelectDocBuilder_Columns (cs : list string) (b : SelectDocBuilder) : SelectDocBuilder :=
  setInner (fst (SelectBuilder_Columns cs (inner b))) b.
Definition SelectDocBuilder_From (fromStr : string) (a : list Value) (b : SelectDocBuilder) :=
  setInner (SelectBuilder_From fromStr a (inner b)) b.
Definition SelectDocBuilder_Join (joinStr : string) (a : list Value) (b : SelectDocBuilder) :=
  setInner (SelectBuilder_Join joinStr a (inner b)) b.
Definition SelectDocBuilder_Where (p : Predicate) (a : list Value) (b : SelectDocBuilder) :=
  setInner (SelectBuilder_Where p a (inner b)) b.
Definition SelectDocBuilder_Scope (sql : string) (a : list Value) (b : SelectDocBuilder) :=
  setInner (SelectBuilder_Scope sql a (inner b)) b.
Definition SelectDocBuilder_GroupBy (g : string) (b : SelectDocBuilder) :=
  setInner (SelectBuilder_GroupBy g (inner b)) b.
Definition SelectDocBuilder_Having (p : Predicate) (a : list Value) (b : SelectDocBuilder) :=
  setInner (SelectBuilder_Having p a (inner b)) b.
Definition SelectDocBuilder_OrderBy (p : Predicate) (a : list Value) (b : SelectDocBuilder) :=
  setInner (SelectBuilder_OrderBy p a (inner b)) b.
Definition SelectDocBuilder_Limit (n : Z) (b : SelectDocBuilder) :=
  setInner (SelectBuilder_Limit n (inner b)) b.
Definition SelectDocBuilder_Offset (n : Z) (b : SelectDocBuilder) :=
  setInner (SelectBuilder_Offset n (inner b)) b.
Definition SelectDocBuilder_For (options : list string) (b : SelectDocBuilder) :=
  setInner (SelectBuilder_For options (inner b)) b.

(** *** Whitelist *)

(** The last byte of a non-empty string, and the string without it. *)
Fixpoint lastChar (s : string) : option ascii :=
  match s with
  | EmptyString => None
  | String c EmptyString => Some c
  | String _ s' => lastChar s'
  end.

Definition dropLast (s : string) : string := substring 0 (String.length s - 1) s.

(** The first loop of Whitelist: the prefixes and the whole words of the
    allow-list.  [None]: a literal ["*"] was met and the call returns. *)
Fixpoint splitAllowList (cs : list string) (matchColumns eqColumns : list string)
  : option (list string * list string) :=
  match cs with
  | [] => Some (matchColumns, eqColumns)
  | c :: cs' =>
      if strlen c =? 0 then splitAllowList cs' matchColumns eqColumns
      else if String.eqb c "*" then None
      else match lastChar c with
           | Some "*"%char => splitAllowList cs' (matchColumns ++ [dropLast c])%list eqColumns
           | _ => splitAllowList cs' matchColumns (eqColumns ++ [c])%list
           end
  end.

(** [len(c) <= len(alias) && alias[:len(c)] == c] *)
Definition hasPrefix (c a : string) : bool :=
  (strlen c <=? strlen a) && String.eqb (substring 0 (String.length c) a) c.

(** One pass of the last loop of Whitelist over a slot.  The alias is read
    through the slot for every prefix and every whole word tried, so a slot
    already nil panics ([None]) unless there is nothing to try. *)
Definition whitelistSlot (matchColumns eqColumns : list string) (slot : option subInfo)
  : option (option subInfo) :=
  match slot with
  | None =>
      match matchColumns, eqColumns with
      | [], [] => Some None
      | _, _ => None
      end
  | Some sub =>
      if existsb (fun c => hasPrefix c (alias sub)) matchColumns then Some (Some sub)
      else if existsb (fun c => String.eqb (alias sub) c) eqColumns then Some (Some sub)
      else Some None
  end.

Fixpoint whitelistSlots (matchColumns eqColumns : list string) (l : list (option subInfo))
  : option (list (option subInfo)) :=
  match l with
  | [] => Some []
  | slot :: l' =>
      match whitelistSlot matchColumns eqColumns slot with
      | None => None
      | Some slot' =>
          match whitelistSlots matchColumns eqColumns l' with
          | None => None
          | Some l'' => Some (slot' :: l'')
          end
      end
  end.

(** Whitelist.  The slots are visited in the order many, one, vector,
    scalar; a panic leaves through [None]. *)
Definition SelectDocBuilder_Whitelist (cs : list string) (b : SelectDocBuilder)
  : option SelectDocBuilder :=
  if len cs =? 0 then Some b else
  match splitAllowList cs [] [] with
  | None => Some b
  | Some (matchColumns, eqColumns) =>
      match whitelistSlots matchColumns eqColumns (subQueriesMany b) with
      | None => None
      | Some many =>
      match whitelistSlots matchColumns eqColumns (subQueriesOne b) with
      | None => None
      | Some one =>
      match whitelistSlots matchColumns eqColumns (subQueriesVector b) with
      | None => None
      | Some vector =>
      match whitelistSlots matchColumns eqColumns (subQueriesScalar b) with
      | None => None
      | Some scalar =>
          Some (mkDoc (inner b) (subQueriesWith b) many one vector scalar
                  (innerSQL b) (union b) (isParent b) (doc_err b))
      end end end end
  end.

(** *** arrayToTable *)

(** A field of the element struct: its [db] tag (empty when it has none),
    whether its kind is Struct, and the array type the Dialect writes for a
    slice of it. *)
Record StructField : Type := mkField {
  tag : string;
  kindIsStruct : bool;
  arrayType : string
}.

(** A slice handed to [With]: scalars, or structs (by value or by pointer,
    a nil pointer being [None]) given by their field values. *)
Inductive SliceContents : Type :=
| ScalarSlice (arrayTypeName : string) (elems : list Value)
| StructSlice (fields : list StructField) (elems : list (option (list Value))).

Section ArrayToTable.

Variable X : Externals.

(** The array literal of one column: [NULL] for a nil element, a bound
    placeholder otherwise. *)
Definition writeArrayElems (i : nat) (elems : list (option (list Value))) (w : Writer) : Writer :=
  forRange (fun j value w =>
              let w := if negb (j =? 0)%nat then WriteString "," w else w in
              match value with
              | None => WriteString "NULL" w
              | Some fieldValues =>
                  bindArg (WriteString ("$" ++ itoa (pos w)) w) (nth i fieldValues VNil)
              end)
           0%nat elems w.

Fixpoint writeStructColumns (i : nat) (fields : list StructField)
  (elems : list (option (list Value))) (writtenArrays : nat) (w : Writer) : result Writer :=
  match fields with
  | [] => Ok w
  | field :: fields' =>
      if negb (String.eqb (tag field) "") then
        if kindIsStruct field
        then Failed (NewError "Temporary tables cannot be built from nested structs")
        else
          let w := if negb (writtenArrays =? 0)%nat then WriteString "," w else w in
          let w := WriteString " UNNEST(ARRAY[" w in
          let w := writeArrayElems i elems w in
          let w := WriteString "]::" w in
          let w := WriteString (arrayType field) w in
          let w := WriteString ") AS " w in
          let w := WriteString (writeQuotedIdentifier X (tag field)) w in
          writeStructColumns (S i) fields' elems (S writtenArrays) w
      else writeStructColumns (S i) fields' elems writtenArrays w
  end.

Definition arrayToTable (contents : SliceContents) : SQLResult :=
  match contents with
  | ScalarSlice ty elems =>
      let w := WriteString "SELECT UNNEST(ARRAY[" (mkWriter "" [] 1) in
      let w := forRange (fun i v w =>
                           let w := if negb (i =? 0)%nat then WriteString "," w else w in
                           bindArg (WriteString ("$" ++ itoa (pos w)) w) v)
                        0%nat elems w in
      let w := WriteString "]::" w in
      let w := WriteString ty w in
      let w := WriteString ") AS data " w in
      (buf w, args w, None)
  | StructSlice fields elems =>
      match writeStructColumns 0%nat fields elems 0%nat (WriteString "SELECT " (mkWriter "" [] 1)) with
      | Failed e => ("", nil, Some e)
      | Ok w => (buf w, args w, None)
      end
  end.

End ArrayToTable.

(** *** Rendering a document statement *)

Section DocRender.

Variable X : Externals.

(** The CTE list.  The loop reads [sub.alias] without a nil test. *)
Fixpoint writeWiths (i : nat) (l : list (option subInfo)) (w : Writer) : option Writer :=
  match l with
  | [] => Some w
  | None :: _ => None
  | Some sub :: l' =>
      let w := if (i =? 0)%nat then WriteString "WITH " w else WriteString ", " w in
      let w := WriteString (alias sub) w in
      let w := WriteString " AS (" w in
      let w := WriteRelativeArgs (sub_expr sub) w in
      let w := WriteString ") " w in
      writeWiths (S i) l' w
  end.

Definition writeMany (w : Writer) (slot : option subInfo) : Writer :=
  match slot with
  | None => w
  | Some sub =>
      let w := WriteString ", (SELECT array_agg(dat__" w in
      let w := WriteString (alias sub) w in
      let w := WriteString ".*) FROM (" w in
      let w := WriteRelativeArgs (sub_expr sub) w in
      let w := WriteString ") AS dat__" w in
      let w := WriteString (alias sub) w in
      let w := WriteString ") AS " w in
      WriteString (writeQuotedIdentifier X (alias sub)) w
  end.

Definition writeVector (w : Writer) (slot : option subInfo) : Writer :=
  match slot with
  | None => w
  | Some sub =>
      let w := WriteString ", (SELECT array_agg(dat__" w in
      let w := WriteString (alias sub) w in
      let w := WriteString ".dat__scalar) FROM (" w in
      let w := WriteRelativeArgs (sub_expr sub) w in
      let w := WriteString ") AS dat__" w in
      let w := WriteString (alias sub) w in
      let w := WriteString "(dat__scalar)) AS " w in
      WriteString (Dialect_WriteIdentifier X (alias sub)) w
  end.

Definition writeOne (w : Writer) (slot : option subInfo) : Writer :=
  match slot with
  | None => w
  | Some sub =>
      let w := WriteString ", (SELECT row_to_json(dat__" w in
      let w := WriteString (alias sub) w in
      let w := WriteString ".*) FROM (" w in
      let w := WriteRelativeArgs (sub_expr sub) w in
      let w := WriteString ") AS dat__" w in
      let w := WriteString (alias sub) w in
      let w := WriteString ") AS " w in
      WriteString (writeQuotedIdentifier X (alias sub)) w
  end.

Definition writeScalar (w : Writer) (slot : option subInfo) : Writer :=
  match slot with
  | None => w
  | Some sub =>
      let w := WriteString ", (SELECT dat__" w in
      let w := WriteString (alias sub) w in
      let w := WriteString ".dat__scalar FROM (" w in
      let w := WriteRelativeArgs (sub_expr sub) w in
      let w := WriteString ") AS dat__" w in
      let w := WriteString (alias sub) w in
      let w := WriteString "(dat__scalar) limit 1) AS " w in
      WriteString (writeQuotedIdentifier X (alias sub)) w
  end.

Definition writeUnion (w : Writer) (slot : option subInfo) : Writer :=
  match slot with
  | None => w
  | Some sub =>
      let w := WriteString " UNION " w in
      let w := WriteString (alias sub) w in
      let w := WriteString " " w in
      let w := WriteRelativeArgs (sub_expr sub) w in
      WriteString " " w
  end.

(** Everything after the projected columns and sub-queries. *)
Definition writeDocBody (b : SelectDocBuilder) (w : Writer) : result Writer :=
  match innerSQL b with
  | Some e => Ok (WriteRelativeArgs e w)
  | None =>
      let sb := inner b in
      let '(from, w) :=
        if 0 <? len (tableFragments sb) then
          let w := WriteString " FROM " w in
          let '(from, w) :=
            onBuffer (fun fw => writeConcatFragmentsToSQL X (joinFragments sb)
                                  (WriteString " "
                                     (writeCommaFragmentsToSQL X (tableFragments sb) fw))) w in
          (from, WriteString from w)
        else ("", w) in
      match applyScope X (scope sb) from (sel_whereFragments sb) w with
      | Failed e => Failed e
      | Ok (fragments, w) =>
          let w := writeWhere X fragments w in
          let w := fold_left writeUnion (union b) w in
          let w := writeGroupBys sb w in
          let w := writeHaving X sb w in
          let w := writeOrderBys X sb w in
          let w := writeLimitOffset sb w in
          Ok (writeFors sb w)
      end
  end.

(** SelectDocBuilder.ToSQL.  [None] is the nil dereference of
    [writeWiths]. *)
Definition SelectDocBuilder_ToSQL (b : SelectDocBuilder) : option SQLResult :=
  match doc_err b with
  | Some e => Some (NewDatSQLErr e)
  | None =>
  let sb := inner b in
  if len (columns sb) + len (subQueriesMany b) + len (subQueriesOne b)
     + len (subQueriesScalar b) + len (subQueriesVector b) =? 0
  then Some (NewDatSQLError "no columns specified") else
  if (len (tableFragments sb) =? 0) && (0 <? len (joinFragments sb))
  then Some (NewDatSQLError "joins may only be attached if a from target is specified") else
  match writeWiths 0%nat (subQueriesWith b) (mkWriter "" [] 1) with
  | None => None
  | Some w =>
      let w := if isParent b
               then WriteString "SELECT row_to_json(dat__item.*) FROM ( SELECT " w
               else WriteString "SELECT " w in
      let w := writeDistinct sb w in
      let w := writeStrings (columns sb) w in
      let w := fold_left writeMany (subQueriesMany b) w in
      let w := fold_left writeVector (subQueriesVector b) w in
      let w := fold_left writeOne (subQueriesOne b) w in
      let w := fold_left writeScalar (subQueriesScalar b) w in
      match writeDocBody b w with
      | Failed e => Some (NewDatSQLErr e)
      | Ok w =>
          let w := if isParent b then WriteString ") as dat__item" w else w in
          Some (buf w, args w, None)
      end
  end
  end.

(** *** Embedding a sub-query *)

(** Builders are reached through pointers: a heap of document builders,
    an address being an index. *)
Definition Heap : Type := list SelectDocBuilder.

Fixpoint heapSet (h : Heap) (p : nat) (b : SelectDocBuilder) : Heap :=
  match h, p with
  | [], _ => []
  | _ :: h', O => b :: h'
  | x :: h', S p' => x :: heapSet h' p' b
  end.

(** What [sqlOrBuilder interface{}] can hold. *)
Inductive SqlOrBuilder : Type :=
| ArgString (sql : string)
| ArgDoc (t : nat)
| ArgSelect (t : SelectBuilder)
| ArgInsert (t : InsertBuilder)
| ArgSlice (contents : SliceContents)
| ArgOther (v : Value).

(** The append through [destination], which is the slice [r] of the
    builder at [p]: a new [subInfo] of [Expr(sql, args...)] and the column. *)
Definition appendSub (p : nat) (r : Role) (sql : string) (a : list Value) (c : string)
  (h : Heap) : option Heap :=
  match nth_error h p with
  | None => None
  | Some b =>
      Some (heapSet h p
              (setSubQueries r (subQueries r b ++ [Some (mkSubInfo (Expr sql a) c)])%list b))
  end.

Definition storeResult (p : nat) (r : Role) (c : string) (res : SQLResult) (h : Heap)
  : option (Heap * option error) :=
  match res with
  | (_, _, Some e) => Some (h, Some e)
  | (sql, a, None) =>
      match appendSub p r sql a c h with
      | None => None
      | Some h' => Some (h', None)
      end
  end.

(** storeExpr: the destination is the slice [r] of the builder at [p].  A
    document builder given as the sub-query has its [isParent] cleared, in
    place, before it is rendered. *)
Definition storeExpr (p : nat) (r : Role) (name c : string)
  (sqlOrBuilder : SqlOrBuilder) (a : list Value) (h : Heap)
  : option (Heap * option error) :=
  match sqlOrBuilder with
  | ArgDoc t =>
      match nth_error h t with
      | None => None
      | Some tb =>
          let h := heapSet h t (setIsParent false tb) in
          match SelectDocBuilder_ToSQL (setIsParent false tb) with
          | None => None
          | Some res => storeResult p r c res h
          end
      end
  | ArgSelect t => storeResult p r c (SelectBuilder_ToSQL X t) h
  | ArgInsert t =>
      match InsertBuilder_ToSQL X t with
      | None => None
      | Some res => storeResult p r c res h
      end
  | ArgString t =>
      match appendSub p r t a c h with
      | None => None
      | Some h' => Some (h', None)
      end
  | ArgSlice _ | ArgOther _ =>
      Some (h, Some (NewError (name ++ ": sqlOrbuilder accepts only {string, Builder, *SelectDocBuilder} type")))
  end.

(** [b.err = storeExpr(...)] *)
Definition storeInto (p : nat) (r : Role) (name c : string)
  (sqlOrBuilder : SqlOrBuilder) (a : list Value) (h : Heap) : option Heap :=
  match storeExpr p r name c sqlOrBuilder a h with
  | None => None
  | Some (h', e) =>
      match nth_error h' p with
      | None => None
      | Some b => Some (heapSet h' p (doc_setErr e b))
      end
  end.

Definition SelectDocBuilder_Many (p : nat) (c : string) := storeInto p MANY "SelectDocBuilder.Many" c.
Definition SelectDocBuilder_Vector (p : nat) (c : string) := storeInto p VECTOR "SelectDocBuilder.Vector" c.
Definition SelectDocBuilder_One (p : nat) (c : string) := storeInto p ONE "SelectDocBuilder.One" c.
Definition SelectDocBuilder_Scalar (p : nat) (c : string) := storeInto p SCALAR "SelectDocBuilder.Scalar" c.
Definition SelectDocBuilder_Union (p : nat) := storeInto p UNION "SelectDocBuilder.Union" " ".
Definition SelectDocBuilder_UnionAll (p : nat) := storeInto p UNION "SelectDocBuilder.UnionAll" " ALL ".

(** With: a slice (always an [ArgSlice] here) is first turned into a
    table, the outcome of that overwriting the recorded error; the
    sub-query is stored only when no error is recorded.  The kind of the
    argument is read through [reflect.TypeOf], which is nil for a nil
    argument: the call panics. *)
Definition SelectDocBuilder_With (p : nat) (c : string)
  (sqlOrBuilder : SqlOrBuilder) (a : list Value) (h : Heap) : option Heap :=
  match sqlOrBuilder, nth_error h p with
  | ArgOther VNil, _ => None
  | _, None => None
  | _, Some b =>
      let '(sqlOrBuilder, a, h, e) :=
        match sqlOrBuilder with
        | ArgSlice contents =>
            let '(sql, a', e) := arrayToTable X contents in
            (ArgString sql, a', heapSet h p (doc_setErr e b), e)
        | _ => (sqlOrBuilder, a, h, doc_err b)
        end in
      match e with
      | None => storeInto p WITH "SelectDocBuilder.With" c sqlOrBuilder a h
      | Some _ => Some h
      end
  end.

End DocRender.

(** ** Writers only append

    A step of a rendering never reads the buffer: run on an empty buffer
    with the same arguments and cursor, it writes the text it would have
    appended. *)
Definition reset (w : Writer) : Writer := mkWriter "" (args w) (pos w).

Definition framed (f : Writer -> Writer) : Prop :=
  forall w, f w = mkWriter (buf w ++ buf (f (reset w))) (args (f (reset w))) (pos (f (reset w))).

(** The text a step appends when the arguments are [a] and the cursor [p]. *)
Definition written (f : Writer -> Writer) (a : list Value) (p : Z) : string :=
  buf (f (mkWriter "" a p)).

Definition framedR (f : Writer -> result Writer) : Prop :=
  forall w, f w = match f (reset w) with
                  | Ok w0 => Ok (mkWriter (buf w ++ buf w0) (args w0) (pos w0))
                  | Failed e => Failed e
                  end.

(** What SelectDocBuilder.ToSQL writes after the opening SELECT keyword. *)
Definition writeDocRest (X : Externals) (b : SelectDocBuilder) (w : Writer) : result Writer :=
  let w := writeDistinct (inner b) w in
  let w := writeStrings (columns (inner b)) w in
  let w := fold_left (writeMany X) (subQueriesMany b) w in
  let w := fold_left (writeVector X) (subQueriesVector b) w in
  let w := fold_left (writeOne X) (subQueriesOne b) w in
  let w := fold_left (writeScalar X) (subQueriesScalar b) w in
  writeDocBody X b w.

(** The heap of TestNestedSelecDocWhere before the call of One: the user
    builder at address 0, the games builder at address 1. *)
Definition nested_heap : Heap :=
  [ SelectDocBuilder_Where (PString "u.id = $1") [VInt 1]
      (SelectDocBuilder_From "users u" [] (NewSelectDocBuilder ["id"; "user_name"]));
    SelectDocBuilder_Where (PString "id = $1") [VInt 10]
      (SelectDocBuilder_From "games" [] (NewSelectDocBuilder ["id"])) ].

(** The conflict target as the specification spells it. *)
Definition targetText (t : onConflictTargetType) : string :=
  if String.eqb (column t) "" then "ON CONSTRAINT " ++ constraint t
  else "(" ++ column t ++ ")"
       ++ (if String.eqb (indexPredicate t) "" then "" else " WHERE " ++ indexPredicate t).

(** Exactly one of column and constraint is set. *)
Definition exactlyOneTarget (t : onConflictTargetType) : bool :=
  xorb (negb (String.eqb (column t) "")) (negb (String.eqb (constraint t) "")).

(** The RETURNING clause as the specification spells it: last, the columns
    comma-joined. *)
Definition returningText (X : Externals) (cs : list string) : string :=
  match cs with
  | [] => ""
  | _ => " RETURNING " ++ String.concat "," (map (writeIdentifier X) cs)
  end.

(** One SET pair as the specification spells it, at cursor [p]: its text
    and the arguments it binds. *)
Definition setPiece (X : Externals) (p : Z) (c : setClause) : string * list Value :=
  let lhs := writeIdentifier X (set_column c) ++ " = " in
  match set_value c with
  | VExpr sql eargs => (lhs ++ remapPlaceholders sql p, eargs)
  | VString s =>
      if String.eqb s ("EXCLUDED." ++ set_column c)
      then (lhs ++ s, [])
      else (lhs ++ "$" ++ itoa p, [VString s])
  | v => (lhs ++ "$" ++ itoa p, [v])
  end.

(** The SET pairs in order, each at the cursor the ones before it leave. *)
Fixpoint setPieces (X : Externals) (p : Z) (cs : list setClause) : list (string * list Value) :=
  match cs with
  | [] => []
  | c :: cs' =>
      let piece := setPiece X p c in
      piece :: setPieces X (p + len (snd piece)) cs'
  end.

(** The groups of placeholders of rows of the given widths, numbered on
    from [start], one parenthesized group per row. *)
Fixpoint groups (start : Z) (widths : list nat) : list string :=
  match widths with
  | [] => []
  | n :: ws => buildPlaceholders start n :: groups (start + Z.of_nat n) ws
  end.

(** The numbers [start], [start+1], ..., [n] of them. *)
Definition range (start : Z) (n : nat) : list Z :=
  map (fun i => start + Z.of_nat i) (seq 0 n).

(** Whether a fragment writes any predicate. *)
Definition rendersPredicate (f : whereFragment) : bool :=
  match f with
  | Condition _ _ => true
  | EqualityMap [] => false
  | EqualityMap _ => true
  end.

(** A fragment whose loops have no order to choose: raw text, or a map of
    at most one key. *)
Definition singleKey (f : whereFragment) : bool :=
  match f with
  | Condition _ _ => true
  | EqualityMap m => (List.length m <=? 1)%nat
  end.

Definition singleKeys (fragments : list whereFragment) : bool := forallb singleKey fragments.

Definition SelectBuilder_singleKeys (b : SelectBuilder) : bool :=
  singleKeys (tableFragments b) && singleKeys (joinFragments b)
  && singleKeys (sel_whereFragments b) && singleKeys (havingFragments b)
  && singleKeys (orderBys b).

Definition InsertBuilder_singleKeys (b : InsertBuilder) : bool :=
  singleKeys (whereFragments (onConflictAction b)).

Definition SelectDocBuilder_singleKeys (b : SelectDocBuilder) : bool :=
  SelectBuilder_singleKeys (inner b).

(** The draw under which a loop visits the entries of a map from the last
    listed to the first. *)
Definition backwards (m : EqMap) : list nat := repeat (List.length m) (List.length m).

(** The allow-list test of Whitelist as the specification spells it: the
    alias is an exact match of an entry, or a prefix match of an entry with
    a trailing [*]; empty entries are not entries. *)
Definition endsWithStar (c : string) : bool :=
  match lastChar c with
  | Some "*"%char => true
  | _ => false
  end.

Definition allowed (cs : list string) (a : string) : bool :=
  existsb (fun c => negb (String.eqb c "")
                    && (String.eqb c a || (endsWithStar c && hasPrefix (dropLast c) a)))
          cs.

(** The prefixes and the whole words the first loop of Whitelist collects. *)
Definition prefixesOf (cs : list string) : list string :=
  map dropLast (filter (fun c => negb (String.eqb c "") && endsWithStar c) cs).

Definition wordsOf (cs : list string) : list string :=
  filter (fun c => negb (String.eqb c "") && negb (endsWithStar c)) cs.

(** A slot after a Whitelist pass. *)
Definition pruneSlot (cs : list string) (slot : option subInfo) : option subInfo :=
  match slot with
  | Some sub => if allowed cs (alias sub) then Some sub else None
  | None => None
  end.

(** ** ToSQL as a call on a receiver

    None of the three ToSQL methods assigns to a field of its receiver or
    of anything reachable from it: they write to their locals (the buffers,
    [args], the cursor, [whereFragments], [from]) only.  As a call, ToSQL
    hands back its result and the receiver, or the heap, it was given; the
    externals of a call hold the runtime's draw for the loops of that
    call. *)
Definition InsertBuilder_callToSQL (X : Externals) (b : InsertBuilder)
  : option SQLResult * InsertBuilder :=
  (InsertBuilder_ToSQL X b, b).

Definition SelectBuilder_callToSQL (X : Externals) (b : SelectBuilder)
  : SQLResult * SelectBuilder :=
  (SelectBuilder_ToSQL X b, b).

Definition SelectDocBuilder_callToSQL (X : Externals) (p : nat) (h : Heap)
  : option (SQLResult * Heap) :=
  match nth_error h p with
  | None => None
  | Some b =>
      match SelectDocBuilder_ToSQL X b with
      | None => None
      | Some res => Some (res, h)
      end
  end.

(** ** Sequences of chaining calls on an InsertBuilder *)

Inductive InsertCall : Type :=
| CallColumns (cs : list string)
| CallBlacklist (cs : list string)
| CallWhitelist (cs : list string)
| CallValues (vs : list Value)
| CallRecord (r : GoRecord)
| CallOnConflictColumn (c : string)
| CallOnConflictConstraint (c : string)
| CallOnConflictWhere (c predicate : string)
| CallSet (c : string) (v : Value)
| CallSetMap (m : EqMap)
| CallWhere (p : Predicate) (a : list Value)
| CallReturning (cs : list string)
| CallPair (c : string) (v : Value).

Definition applyInsertCall (b : InsertBuilder) (call : InsertCall) : InsertBuilder :=
  match call with
  | CallColumns cs => InsertBuilder_Columns cs b
  | CallBlacklist cs => InsertBuilder_Blacklist cs b
  | CallWhitelist cs => InsertBuilder_Whitelist cs b
  | CallValues vs => InsertBuilder_Values vs b
  | CallRecord r => InsertBuilder_Record r b
  | CallOnConflictColumn c => OnConflictColumn c b
  | CallOnConflictConstraint c => OnConflictConstraint c b
  | CallOnConflictWhere c p => OnConflictWhere c p b
  | CallSet c v => InsertBuilder_Set c v b
  | CallSetMap m => InsertBuilder_SetMap m b
  | CallWhere p a => InsertBuilder_Where p a b
  | CallReturning cs => InsertBuilder_Returning cs b
  | CallPair c v => InsertBuilder_Pair c v b
  end.

(** The calls that never assign the error slot when it is taken: all but
    Pair, and Where with an argument that is neither text, map nor
    fragment. *)
Definition guardsError (call : InsertCall) : bool :=
  match call with
  | CallPair _ _ => false
  | CallWhere (POther _) _ => false
  | _ => true
  end.

(** The calls that can switch the conflict action to UPDATE. *)
Definition switchesAction (call : InsertCall) : bool :=
  match call with
  | CallSet _ _ | CallSetMap _ => true
  | _ => false
  end.

(** ** Fixtures: builders of the package's tests *)

(** A chain of calls, receiver first, as the package's users write it. *)
Notation "b |> f" := (f b) (at level 45, left associativity, only parsing).

(** The tests of the document builder compare statements with all white
    space taken out. *)
Fixpoint stripWS (s : string) : string :=
  match s with
  | EmptyString => EmptyString
  | String c s' =>
      if (Ascii.eqb c " " || Ascii.eqb c "009" || Ascii.eqb c "010" || Ascii.eqb c "013")%char
      then stripWS s'
      else String c (stripWS s')
  end.

Definition InsertInto (tableName : string) : InsertBuilder :=
  mkInsertBuilder tableName [] false [] [] (mkTarget "" "" "") (mkAction "" [] []) [] None.

(** objs of TestInsertRecordsToSql *)
Definition someRecord (somethingID userID : Z) (other : bool) : GoRecord :=
  [("something_id", VInt somethingID); ("user_id", VInt userID); ("other", VBool other)].

(** SelectDoc().Many("x", "SELECT 1"): no projected column, one binding. *)
Definition doc_only_subquery : SelectDocBuilder :=
  match SelectDocBuilder_Many testExternals 0 "x" (ArgString "SELECT 1") [] [NewSelectDocBuilder []] with
  | Some [b] => b
  | _ => NewSelectDocBuilder []
  end.

(** SelectDoc("b").Many("", "SELECT 1"): a binding with an empty alias. *)
Definition doc_empty_alias : SelectDocBuilder :=
  match SelectDocBuilder_Many testExternals 0 "" (ArgString "SELECT 1") [] [NewSelectDocBuilder ["b"]] with
  | Some [b] => b
  | _ => NewSelectDocBuilder []
  end.

(** The builder of TestSelectDocWhitelist before its Whitelist call. *)
Definition doc_whitelist : SelectDocBuilder :=
  let h := [NewSelectDocBuilder ["b"; "c"]] in
  let step (f : Heap -> option Heap) (h : Heap) := match f h with Some h' => h' | None => h end in
  let h := step (SelectDocBuilder_Many testExternals 0 "f" (ArgString "SELECT g, h FROM f WHERE id= $1") [VInt 4]) h in
  let h := step (SelectDocBuilder_Many testExternals 0 "x" (ArgString "SELECT id, y, z FROM x") []) h in
  let h := step (SelectDocBuilder_Vector testExternals 0 "y" (ArgString "SELECT id FROM x") []) h in
  let h := step (SelectDocBuilder_One testExternals 0 "foo" (ArgString "SELECT id FROM x") []) h in
  let h := step (SelectDocBuilder_Scalar testExternals 0 "z" (ArgString "SELECT id FROM x") []) h in
  match h with
  | [b] => SelectDocBuilder_From "a" [] b
  | _ => NewSelectDocBuilder []
  end.

(** Select("a").From("b").Where(map[string]interface{}{"a": []int(nil)}) *)
Definition select_where_nil_slice : SelectBuilder :=
  SelectBuilder_Where (PMap [("a", VSlice None)]) []
    (SelectBuilder_From "b" [] (NewSelectBuilder ["a"])).

(** Select("a").From("b").Where(map[string]interface{}{"a": []int{}}) *)
Definition select_where_empty_slice : SelectBuilder :=
  SelectBuilder_Where (PMap [("a", VSlice (Some []))]) []
    (SelectBuilder_From "b" [] (NewSelectBuilder ["a"])).

(** Select("a").From("b").Where(map[string]interface{}{"a": 1, "b": true}) *)
Definition select_where_two_keys : SelectBuilder :=
  SelectBuilder_Where (PMap [("a", VInt 1); ("b", VBool true)]) []
    (SelectBuilder_From "b" [] (NewSelectBuilder ["a"])).

(** InsertInto("a").Columns("b", "c").Values(1, 2).OnConflictColumn("b") *)
Definition insert_do_nothing : InsertBuilder :=
  OnConflictColumn "b"
    (InsertBuilder_Values [VInt 1; VInt 2]
       (InsertBuilder_Columns ["b"; "c"]
          (mkInsertBuilder "a" [] false [] [] (mkTarget "" "" "") (mkAction "" [] []) [] None))).

(** ... .Set("b", 50): TestInsertOnConflictSet *)
Definition insert_upsert : InsertBuilder :=
  InsertBuilder_Set "b" (VInt 50) insert_do_nothing.

(** ** Sequences of calls on the other builders *)

(** [Pair] called for every pair of a list, in order. *)
Definition pairs (ps : list (string * Value)) (b : InsertBuilder) : InsertBuilder :=
  fold_left (fun b p => InsertBuilder_Pair (fst p) (snd p) b) ps b.

(** The target of a builder that was given none. *)
Definition noTarget : onConflictTargetType := mkTarget "" "" "".

(** The chaining calls of a SelectBuilder (ScopeMap apart, whose MapScope
    is not among the sources), made on the builder the caller holds. *)
Inductive SelectCall : Type :=
| SCallColumns (cs : list string)
| SCallDistinct
| SCallDistinctOn (cs : list string)
| SCallFrom (fromStr : string) (a : list Value)
| SCallJoin (joinStr : string) (a : list Value)
| SCallLeftJoin (joinStr : string) (a : list Value)
| SCallRightJoin (joinStr : string) (a : list Value)
| SCallFullOuterJoin (joinStr : string) (a : list Value)
| SCallFor (options : list string)
| SCallScope (sql : string) (a : list Value)
| SCallWhere (p : Predicate) (a : list Value)
| SCallGroupBy (group : string)
| SCallHaving (p : Predicate) (a : list Value)
| SCallOrderBy (p : Predicate) (a : list Value)
| SCallLimit (limit : Z)
| SCallOffset (offset : Z)
| SCallPaginate (page perPage : Z).

Definition applySelectCall (b : SelectBuilder) (call : SelectCall) : SelectBuilder :=
  match call with
  | SCallColumns cs => fst (SelectBuilder_Columns cs b)
  | SCallDistinct => SelectBuilder_Distinct b
  | SCallDistinctOn cs => SelectBuilder_DistinctOn cs b
  | SCallFrom s a => SelectBuilder_From s a b
  | SCallJoin s a => SelectBuilder_Join s a b
  | SCallLeftJoin s a => SelectBuilder_LeftJoin s a b
  | SCallRightJoin s a => SelectBuilder_RightJoin s a b
  | SCallFullOuterJoin s a => SelectBuilder_FullOuterJoin s a b
  | SCallFor options => SelectBuilder_For options b
  | SCallScope s a => SelectBuilder_Scope s a b
  | SCallWhere p a => SelectBuilder_Where p a b
  | SCallGroupBy g => SelectBuilder_GroupBy g b
  | SCallHaving p a => SelectBuilder_Having p a b
  | SCallOrderBy p a => SelectBuilder_OrderBy p a b
  | SCallLimit n => SelectBuilder_Limit n b
  | SCallOffset n => SelectBuilder_Offset n b
  | SCallPaginate page perPage => SelectBuilder_Paginate page perPage b
  end.

(** The clauses of the statement a call writes to. *)
Inductive Clause : Type :=
| CColumns | CDistinct | CFrom | CJoin | CFor | CScope | CWhere | CGroupBy | CHaving
| COrderBy | CLimit | COffset.

Definition Clause_eqb (c1 c2 : Clause) : bool :=
  match c1, c2 with
  | CColumns, CColumns | CDistinct, CDistinct | CFrom, CFrom | CJoin, CJoin | CFor, CFor
  | CScope, CScope | CWhere, CWhere | CGroupBy, CGroupBy | CHaving, CHaving
  | COrderBy, COrderBy | CLimit, CLimit | COffset, COffset => true
  | _, _ => false
  end.

Definition clausesOf (call : SelectCall) : list Clause :=
  match call with
  | SCallColumns _ => [CColumns]
  | SCallDistinct | SCallDistinctOn _ => [CDistinct]
  | SCallFrom _ _ => [CFrom]
  | SCallJoin _ _ | SCallLeftJoin _ _ | SCallRightJoin _ _ | SCallFullOuterJoin _ _ => [CJoin]
  | SCallFor _ => [CFor]
  | SCallScope _ _ => [CScope]
  | SCallWhere _ _ => [CWhere]
  | SCallGroupBy _ => [CGroupBy]
  | SCallHaving _ _ => [CHaving]
  | SCallOrderBy _ _ => [COrderBy]
  | SCallLimit _ => [CLimit]
  | SCallOffset _ => [COffset]
  | SCallPaginate _ _ => [CLimit; COffset]
  end.

(** Two calls that write to no common clause. *)
Definition apart (c1 c2 : SelectCall) : bool :=
  negb (existsb (fun x => existsb (Clause_eqb x) (clausesOf c2)) (clausesOf c1)).

(** The calls that assign the error slot. *)
Definition recordsError (call : SelectCall) : bool :=
  match call with
  | SCallColumns cs => (len cs =? 0) || String.eqb (hd "" cs) ""
  | SCallWhere p a | SCallHaving p a | SCallOrderBy p a =>
      match newWhereFragment p a with
      | Failed _ => true
      | Ok _ => false
      end
  | _ => false
  end.

(** The calls of a program on document builders: the constructor, which
    puts a new builder at the next address, and the chaining calls, each on
    the builder at an address; the overrides that forward to the embedded
    SelectBuilder are [DSelect]. *)
Inductive DocCall : Type :=
| DNew (cs : list string)
| DWith (p : nat) (c : string) (s : SqlOrBuilder) (a : list Value)
| DMany (p : nat) (c : string) (s : SqlOrBuilder) (a : list Value)
| DVector (p : nat) (c : string) (s : SqlOrBuilder) (a : list Value)
| DOne (p : nat) (c : string) (s : SqlOrBuilder) (a : list Value)
| DScalar (p : nat) (c : string) (s : SqlOrBuilder) (a : list Value)
| DUnion (p : nat) (s : SqlOrBuilder) (a : list Value)
| DUnionAll (p : nat) (s : SqlOrBuilder) (a : list Value)
| DWhitelist (p : nat) (cs : list string)
| DInnerSQL (p : nat) (sql : string) (a : list Value)
| DSelect (p : nat) (call : SelectCall).

Definition onBuilder (p : nat) (f : SelectDocBuilder -> option SelectDocBuilder) (h : Heap)
  : option Heap :=
  match nth_error h p with
  | None => None
  | Some b =>
      match f b with
      | None => None
      | Some b' => Some (heapSet h p b')
      end
  end.

Definition applyDocCall (X : Externals) (h : Heap) (call : DocCall) : option Heap :=
  match call with
  | DNew cs => Some (h ++ [NewSelectDocBuilder cs])%list
  | DWith p c s a => SelectDocBuilder_With X p c s a h
  | DMany p c s a => SelectDocBuilder_Many X p c s a h
  | DVector p c s a => SelectDocBuilder_Vector X p c s a h
  | DOne p c s a => SelectDocBuilder_One X p c s a h
  | DScalar p c s a => SelectDocBuilder_Scalar X p c s a h
  | DUnion p s a => SelectDocBuilder_Union X p s a h
  | DUnionAll p s a => SelectDocBuilder_UnionAll X p s a h
  | DWhitelist p cs => onBuilder p (SelectDocBuilder_Whitelist cs) h
  | DInnerSQL p sql a => onBuilder p (fun b => Some (SelectDocBuilder_InnerSQL sql a b)) h
  | DSelect p call => onBuilder p (fun b => Some (setInner (applySelectCall (inner b) call) b)) h
  end.

(** The calls in order; a panic ends the program. *)
Fixpoint runDocCalls (X : Externals) (calls : list DocCall) (h : Heap) : option Heap :=
  match calls with
  | [] => Some h
  | call :: calls' =>
      match applyDocCall X h call with
      | None => None
      | Some h' => runDocCalls X calls' h'
      end
  end.

(** No slot of the WITH list is nil. *)
Definition withsLive (b : SelectDocBuilder) : Prop :=
  Forall (fun slot => slot <> None) (subQueriesWith b).

(** The arguments [storeExpr] has a case for. *)
Definition textOrBuilder (s : SqlOrBuilder) : bool :=
  match s with
  | ArgString _ | ArgDoc _ | ArgSelect _ | ArgInsert _ => true
  | _ => false
  end.

(** Two SelectBuilders that agree on what a document statement holds
    before its body. *)
Definition sameHead (sb sb' : SelectBuilder) : Prop :=
  columns sb = columns sb' /\ isDistinct sb = isDistinct sb'
  /\ distinctColumns sb = distinctColumns sb'
  /\ (tableFragments sb = [] <-> tableFragments sb' = [])
  /\ (joinFragments sb = [] <-> joinFragments sb' = []).

(** ** The arguments a statement binds *)

(** The values one entry of an equality map binds. *)
Definition entryArgs (v : Value) : list Value :=
  match v with
  | VNil => []
  | VSlice None => []
  | VSlice (Some []) => []
  | VSlice (Some [x]) => [x]
  | _ => [v]
  end.

Definition fragmentArgs (X : Externals) (f : whereFragment) : list Value :=
  match f with
  | Condition _ values => values
  | EqualityMap m => flat_map (fun kv => entryArgs (snd kv)) (rangeMap X m)
  end.

(** The fragment a scope adds to the WHERE clause: the text after its WHERE
    keyword with the scope's arguments, when there is such text. *)
Definition scopeFragments (X : Externals) (b : SelectBuilder) (from : string)
  : list whereFragment :=
  match scope b with
  | None => []
  | Some sc =>
      let whereText := snd (splitWhere X (fst (sc from))) in
      if String.eqb whereText "" then [] else [Condition whereText (snd (sc from))]
  end.

Definition subArgs (slot : option subInfo) : list Value :=
  match slot with
  | Some sub => Args (sub_expr sub)
  | None => []
  end.

(** The arguments of the body of a document statement: those of the inner
    SQL when there is one, else those of FROM, JOIN, WHERE and the scope,
    of the unions, of HAVING and of ORDER BY. *)
Definition bodyArgs (X : Externals) (b : SelectDocBuilder) (from : string) : list Value :=
  match innerSQL b with
  | Some e => Args e
  | None =>
      (flat_map (fragmentArgs X)
         (tableFragments (inner b) ++ joinFragments (inner b)
          ++ sel_whereFragments (inner b) ++ scopeFragments X (inner b) from)
       ++ flat_map subArgs (union b)
       ++ flat_map (fragmentArgs X) (havingFragments (inner b) ++ orderBys (inner b)))%list
  end.

(** ** The table of a slice, column by column *)

(** The elements that are not nil pointers. *)
Definition liveElems (elems : list (option (list Value))) : list (list Value) :=
  flat_map (fun value => match value with Some fieldValues => [fieldValues] | None => [] end) elems.

(** Field [i] of every such element. *)
Definition column_of (i : nat) (elems : list (option (list Value))) : list Value :=
  map (fun fieldValues => nth i fieldValues VNil) (liveElems elems).

(** The cells of one array literal: [NULL] for a nil pointer, the next
    placeholder otherwise. *)
Fixpoint cells (start : Z) (elems : list (option (list Value))) : list string :=
  match elems with
  | [] => []
  | None :: elems' => "NULL" :: cells start elems'
  | Some _ :: elems' => ("$" ++ itoa start) :: cells (start + 1) elems'
  end.

(** The indices of the fields that have a [db] tag, counted from [i]. *)
Fixpoint taggedFrom (i : nat) (fields : list StructField) : list nat :=
  match fields with
  | [] => []
  | field :: fields' =>
      if String.eqb (tag field) "" then taggedFrom (S i) fields'
      else i :: taggedFrom (S i) fields'
  end.

(** One [UNNEST] column per tagged field, the placeholders numbered on from
    column to column. *)
Fixpoint structColumns (X : Externals) (start : Z) (fields : list StructField)
  (elems : list (option (list Value))) : list string :=
  match fields with
  | [] => []
  | field :: fields' =>
      if String.eqb (tag field) "" then structColumns X start fields' elems
      else (" UNNEST(ARRAY[" ++ String.concat "," (cells start elems) ++ "]::"
            ++ arrayType field ++ ") AS " ++ writeQuotedIdentifier X (tag field))
           :: structColumns X (start + len (liveElems elems)) fields' elems
  end.

(** Some tagged field is itself a struct. *)
Definition nestedStruct (fields : list StructField) : bool :=
  existsb (fun field => negb (String.eqb (tag field) "") && kindIsStruct field) fields.

(** ** Further fixtures *)

(** Select("a").From("b").Having("c = $1", 2).Where("d = $1", 1) *)
Definition select_having_then_where : SelectBuilder :=
  NewSelectBuilder ["a"] |> SelectBuilder_From "b" []
  |> SelectBuilder_Having (PString "c = $1") [VInt 2]
  |> SelectBuilder_Where (PString "d = $1") [VInt 1].

(** A slice of pointers to a struct of three fields, the second without a
    [db] tag; the second pointer is nil. *)
Definition people_fields : list StructField :=
  [mkField "id" false "int[]"; mkField "" false ""; mkField "name" false "text[]"].

Definition people_elems : list (option (list Value)) :=
  [Some [VInt 1; VBool true; VString "ann"]; None; Some [VInt 2; VBool false; VString "bob"]].

(** Two builders, the second embedded in the first, which is then
    filtered. *)
Definition embed_then_filter : list DocCall :=
  [DNew ["id"; "user_name"]; DNew ["id"];
   DSelect 1 (SCallFrom "games" []);
   DOne 0 "game" (ArgDoc 1) [];
   DWith 0 "ids" (ArgSlice (ScalarSlice "int[]" [VInt 1; VInt 2])) [];
   DWhitelist 0 ["user*"]].

Definition embed_then_filter_heap : Heap := Eval vm_compute in
    match runDocCalls testExternals embed_then_filter [] with
    | Some h => h
    | None => []
    end.

(** The heap of TestNestedSelecDocWhere after the call of One. *)
Definition nested_heap_after : Heap := Eval vm_compute in
    match SelectDocBuilder_One testExternals 1 "user" (ArgDoc 0) [] nested_heap with
    | Some h => h
    | None => []
    end.

(** ** Placeholders and the arguments they name *)

(** Text without a dollar sign: it holds no placeholder and completes
    none. *)
Fixpoint inert (s : string) : bool :=
  match s with
  | EmptyString => true
  | String c s' => negb (Ascii.eqb c "$") && inert s'
  end.

(** Text that does not begin with a digit, so that it cannot lengthen a
    placeholder written just before it. *)
Definition opensPlain (s : string) : bool :=
  match s with
  | EmptyString => true
  | String c _ => match digit_of c with None => true | Some _ => false end
  end.

(** The two states of a buffer under construction, [ms] the placeholders
    written so far.  [sealed]: whatever is appended, these placeholders
    stay as they are.  [carrying]: the same, provided what is appended does
    not begin with a digit (the buffer may end in a placeholder). *)
Definition sealed (t : string) (ms : list Z) : Prop :=
  forall r, snd (markers_scan (t ++ r)) = (ms ++ snd (markers_scan r))%list.

Definition carrying (t : string) (ms : list Z) : Prop :=
  forall r, fst (markers_scan r) = Nil ->
            snd (markers_scan (t ++ r)) = (ms ++ snd (markers_scan r))%list.

(** The state before the element of index [i] of a separated list: any
    continuation is safe before the first, a separator follows
    otherwise. *)
Definition before (i : nat) (t : string) (m : list Z) : Prop :=
  if (0 <? i)%nat then carrying t m else sealed t m.

(** A step that writes text without placeholders and binds nothing. *)
Definition quiet (f : Writer -> Writer) : Prop :=
  forall w m, carrying (buf w) m -> carrying (buf (f w)) m /\ pos (f w) = pos w.

(** The placeholders of one fragment written with the cursor at [p]: those
    of its own text moved by [p - 1]; for a map, one per bound value. *)
Definition fragmentMarkers (X : Externals) (p : Z) (f : whereFragment) : list Z :=
  match f with
  | Condition sql _ => map (fun k => p + k - 1) (markers sql)
  | EqualityMap _ => range p (List.length (fragmentArgs X f))
  end.

(** The placeholders of a list of fragments, each written where the
    arguments of the ones before it end. *)
Fixpoint placed (X : Externals) (p : Z) (fs : list whereFragment) : list Z :=
  match fs with
  | [] => []
  | f :: fs' => (fragmentMarkers X p f ++ placed X (p + len (fragmentArgs X f)) fs')%list
  end.

Definition inertKey (X : Externals) (kv : string * Value) : Prop :=
  inert (writeIdentifier X (fst kv)) = true.

Definition inertKeys (X : Externals) (f : whereFragment) : Prop :=
  match f with
  | Condition _ _ => True
  | EqualityMap m => Forall (inertKey X) m
  end.

(** A builder whose names (columns, DISTINCT ON, GROUP BY, FOR and the
    quoted keys of its maps) hold no dollar sign, and whose scope, if any,
    writes text before its WHERE keyword that holds none and does not begin
    with a digit. *)
Definition plainText (X : Externals) (b : SelectBuilder) : Prop :=
  Forall (fun s => inert s = true) (columns b ++ distinctColumns b ++ groupBys b ++ fors b)
  /\ Forall (inertKeys X)
       (tableFragments b ++ joinFragments b ++ sel_whereFragments b
        ++ havingFragments b ++ orderBys b)
  /\ (forall sc from, scope b = Some sc ->
        opensPlain (fst (splitWhere X (fst (sc from)))) = true
        /\ inert (fst (splitWhere X (fst (sc from)))) = true).

(** A raw fragment that names only its own arguments, [$1] to [$n] for
    [n] of them. *)
Definition ownArguments (f : whereFragment) : Prop :=
  match f with
  | Condition sql values => Forall (fun k => 1 <= k <= len values) (markers sql)
  | EqualityMap _ => True
  end.

(** * Properties *)

(** ** Text *)

Lemma append_assoc (a b c : string) : (a ++ b) ++ c = a ++ (b ++ c).
Proof. induction a as [|x a IH]; simpl; [reflexivity | now rewrite IH]. Qed.

Lemma append_nil_r (a : string) : a ++ "" = a.
Proof. induction a as [|x a IH]; simpl; [reflexivity | now rewrite IH]. Qed.

(** ** Ranging over a map *)

Lemma insertAt_nil {A : Type} (n : nat) (x : A) : insertAt n x [] = [x].
Proof. unfold insertAt. now rewrite firstn_nil, skipn_nil. Qed.

Lemma insertAt_Permutation {A : Type} (n : nat) (x : A) (l : list A) :
  Permutation (x :: l) (insertAt n x l).
Proof.
  unfold insertAt. rewrite <- (firstn_skipn n l) at 1. apply Permutation_middle.
Qed.

(** A loop visits every entry of the map, once. *)
Lemma shuffle_Permutation {A : Type} (l : list A) :
  forall order, Permutation l (shuffle order l).
Proof.
  induction l as [|x l IH]; intros order; simpl; [constructor|].
  eapply Permutation_trans; [|apply insertAt_Permutation].
  constructor. apply IH.
Qed.

(** Every order of visit is the outcome of some draw. *)
Lemma shuffle_complete {A : Type} (l : list A) :
  forall l', Permutation l l' -> exists order, shuffle order l = l'.
Proof.
  induction l as [|x l IH]; intros l' HP.
  - apply Permutation_nil in HP. subst l'. now exists [].
  - assert (Hin : In x l') by (eapply Permutation_in; [exact HP | now left]).
    destruct (in_split _ _ Hin) as [l1 [l2 ->]].
    apply Permutation_cons_app_inv in HP.
    destruct (IH _ HP) as [order Ho].
    exists (List.length l1 :: order). simpl. rewrite Ho. unfold insertAt.
    rewrite firstn_app, Nat.sub_diag, firstn_all, firstn_O, app_nil_r.
    rewrite skipn_app, Nat.sub_diag, skipn_all. reflexivity.
Qed.

Lemma shuffle_length {A : Type} (order : list nat) (l : list A) :
  List.length (shuffle order l) = List.length l.
Proof. symmetry. apply Permutation_length, shuffle_Permutation. Qed.

Lemma shuffle_single {A : Type} (order : list nat) (x : A) : shuffle order [x] = [x].
Proof. simpl. apply insertAt_nil. Qed.

Lemma shuffle_short {A : Type} (order : list nat) (l : list A) :
  (List.length l <= 1)%nat -> shuffle order l = l.
Proof.
  destruct l as [|x [|y l]]; simpl; intros H; [reflexivity | apply insertAt_nil | lia].
Qed.

Lemma shuffle_nil_order {A : Type} (l : list A) : shuffle [] l = l.
Proof. induction l as [|x l IH]; simpl; [reflexivity | now rewrite IH]. Qed.

Lemma rangeMap_single (X : Externals) (k : string) (v : Value) :
  rangeMap X [(k, v)] = [(k, v)].
Proof. apply shuffle_single. Qed.

Lemma len_app {A : Type} (l1 l2 : list A) : len (l1 ++ l2) = len l1 + len l2.
Proof. unfold len. rewrite length_app. lia. Qed.

Lemma len_nonneg {A : Type} (l : list A) : 0 <= len l.
Proof. unfold len. lia. Qed.

(** ** Decimal rendering *)

(** A non-negative number prints as a non-empty run of digits that reads
    back as the number. *)
Lemma itoa_digits (n : Z) :
  0 <= n ->
  exists u, u <> Nil /\ itoa n = NilEmpty.string_of_uint u /\ Z.of_uint u = n.
Proof.
  intros Hn. unfold itoa.
  destruct n as [|p|p]; [| |lia].
  - exists (D0 Nil). repeat split. discriminate.
  - exists (Pos.to_uint p). split; [apply DecimalPos.Unsigned.to_uint_nonnil|].
    split.
    + simpl. unfold NilZero.string_of_uint.
      pose proof (DecimalPos.Unsigned.to_uint_nonnil p) as Hnn.
      destruct (Pos.to_uint p); [congruence | reflexivity ..].
    + pose proof (DecimalZ.of_to (Z.pos p)) as H. simpl in H. exact H.
Qed.

(** ** The scan *)

(** A digit run in front of a text that starts with none is read whole. *)
Lemma markers_scan_digits (u : uint) (r : string) (ms : list Z) :
  markers_scan r = (Nil, ms) ->
  markers_scan (NilEmpty.string_of_uint u ++ r) = (u, ms).
Proof.
  intros Hr. induction u; simpl; rewrite ?IHu; simpl; auto.
Qed.

Lemma markers_scan_dollar_digits (n : Z) (r : string) (ms : list Z) :
  0 <= n ->
  markers_scan r = (Nil, ms) ->
  markers_scan ("$" ++ itoa n ++ r) = (Nil, n :: ms).
Proof.
  intros Hn Hr. destruct (itoa_digits n Hn) as (u & Hu & Hs & Hz).
  rewrite Hs. simpl. rewrite (markers_scan_digits u r ms Hr).
  rewrite Hz. destruct u; [congruence | reflexivity ..].
Qed.

(** The two scans agree on the pending digit run, and the remapped text
    holds the shifted markers. *)
Lemma remap_scan_markers (start : Z) (s : string) :
  1 <= start ->
  forall d r d' ms,
    remap_scan start s = (d, r) ->
    markers_scan s = (d', ms) ->
    d = d' /\ markers_scan r = (Nil, map (fun k => start + k - 1) ms).
Proof.
  intros Hstart. induction s as [|c s IH]; simpl; intros d r d' ms Hr Hm.
  - inversion Hr; inversion Hm; subst. auto.
  - destruct (remap_scan start s) as [d0 r0] eqn:Er.
    destruct (markers_scan s) as [d1 ms0] eqn:Em.
    destruct (IH d0 r0 d1 ms0 eq_refl eq_refl) as [-> Hr0].
    destruct (digit_of c) as [D|] eqn:Ed.
    + inversion Hr; inversion Hm; subst. auto.
    + destruct (Ascii.eqb c "$") eqn:Ec.
      * inversion Hr; inversion Hm; subst. split; [reflexivity|].
        assert (Hnn : 0 <= Z.of_uint d1).
        { unfold Z.of_uint. apply N2Z.is_nonneg. }
        destruct d1 eqn:Ed1;
          try (unfold shift_marker; rewrite append_assoc;
               rewrite (markers_scan_dollar_digits _ r0 _) by (lia || exact Hr0);
               reflexivity).
        simpl. rewrite Hr0. reflexivity.
      * inversion Hr; inversion Hm; subst. split; [reflexivity|].
        simpl. rewrite (markers_scan_digits d1 r0 _ Hr0).
        rewrite Ed, Ec. reflexivity.
Qed.

(** Every marker [$k] of a text is rewritten to [$(start+k-1)], and no
    marker is added or lost. *)
Lemma markers_remap (start : Z) (s : string) :
  1 <= start ->
  markers (remapPlaceholders s start) = map (fun k => start + k - 1) (markers s).
Proof.
  intros Hstart. unfold remapPlaceholders, markers.
  destruct (remap_scan start s) as [d r] eqn:Er.
  destruct (markers_scan s) as [d' ms] eqn:Em.
  destruct (remap_scan_markers start s Hstart d r d' ms Er Em) as [-> Hr].
  rewrite (markers_scan_digits d' r _ Hr). reflexivity.
Qed.

(** Markers do not straddle a boundary behind which no digit stands. *)
Lemma markers_scan_app (s1 s2 : string) (ms2 : list Z) :
  markers_scan s2 = (Nil, ms2) ->
  markers_scan (s1 ++ s2) = (fst (markers_scan s1), (snd (markers_scan s1) ++ ms2)%list).
Proof.
  intros H2. induction s1 as [|c s1 IH]; simpl.
  - rewrite H2. reflexivity.
  - rewrite IH. destruct (markers_scan s1) as [d ms]. simpl.
    destruct (digit_of c); [reflexivity|].
    destruct (Ascii.eqb c "$"); [|reflexivity].
    destruct d; reflexivity.
Qed.

(** ** Embedding a fragment *)

Lemma firstn_skipn_middle {A : Type} (l1 l2 l3 : list A) :
  firstn (List.length l2) (skipn (List.length l1) (l1 ++ l2 ++ l3)) = l2.
Proof.
  rewrite skipn_app, skipn_all, Nat.sub_diag. simpl.
  rewrite firstn_app, firstn_all, Nat.sub_diag. simpl. apply app_nil_r.
Qed.



(** ** Writers only append: the steps *)

(** Normalise both sides of an equation between written texts. *)
Ltac text_norm :=
  unfold reset, bindArg, WriteString; simpl;
  repeat (progress (rewrite ?append_assoc, ?append_nil_r; simpl)).

Lemma framed_eq (f : Writer -> Writer) (w : Writer) :
  framed f ->
  buf (f w) = buf w ++ written f (args w) (pos w)
  /\ args (f w) = args (f (reset w))
  /\ pos (f w) = pos (f (reset w)).
Proof. intros H. rewrite (H w). simpl. auto. Qed.

Lemma framed_id : framed (fun w => w).
Proof. intros [b a p]. unfold reset. simpl. now rewrite append_nil_r. Qed.

Lemma framed_WriteString (s : string) : framed (WriteString s).
Proof. intros [b a p]. reflexivity. Qed.

Lemma framed_comp (f g : Writer -> Writer) :
  framed f -> framed g -> framed (fun w => g (f w)).
Proof.
  intros Hf Hg w. rewrite (Hf w). rewrite (Hg (mkWriter _ _ _)).
  rewrite (Hg (f (reset w))). unfold reset. simpl. now rewrite append_assoc.
Qed.

Lemma framed_if (c : bool) (f g : Writer -> Writer) :
  framed f -> framed g -> framed (fun w => if c then f w else g w).
Proof. destruct c; auto. Qed.

Lemma framed_WriteRelativeArgs (e : Expression) : framed (WriteRelativeArgs e).
Proof. intros [b a p]. reflexivity. Qed.

Lemma framed_forRange {A : Type} (body : nat -> A -> Writer -> Writer) :
  (forall i x, framed (body i x)) ->
  forall l i, framed (forRange body i l).
Proof.
  intros Hb l. induction l as [|x l IH]; intros i; simpl.
  - apply framed_id.
  - apply (framed_comp (body i x) (forRange body (S i) l)); auto.
Qed.

Lemma framed_fold_left {A : Type} (step : Writer -> A -> Writer) :
  (forall x, framed (fun w => step w x)) ->
  forall l, framed (fold_left step l).
Proof.
  intros Hs l. induction l as [|x l IH]; simpl.
  - apply framed_id.
  - apply (framed_comp (fun w => step w x) (fold_left step l)); auto.
Qed.

Section Frames.

Variable X : Externals.

Lemma framed_sep (c : bool) (sep : string) :
  framed (fun w => if c then WriteString sep w else w).
Proof. apply framed_if; [apply framed_WriteString | apply framed_id]. Qed.

Lemma framed_writeBound (c op : string) (v : Value) : framed (writeBound X c op v).
Proof. intros [b a p]. reflexivity. Qed.

Lemma framed_writeEqualityEntry (c : string) (v : Value) : framed (writeEqualityEntry X c v).
Proof.
  unfold writeEqualityEntry.
  destruct v as [| | | |[[|x [|y l]]|]|];
    first [apply framed_WriteString | apply framed_writeBound].
Qed.

Lemma writeEqualityEntries_frame (m : EqMap) :
  forall anyConditions w,
    fst (writeEqualityEntries X m anyConditions w)
    = fst (writeEqualityEntries X m anyConditions (reset w))
    /\ snd (writeEqualityEntries X m anyConditions w)
       = mkWriter (buf w ++ buf (snd (writeEqualityEntries X m anyConditions (reset w))))
                  (args (snd (writeEqualityEntries X m anyConditions (reset w))))
                  (pos (snd (writeEqualityEntries X m anyConditions (reset w)))).
Proof.
  induction m as [|[k v] m IH]; intros anyC w; simpl.
  - destruct w as [b a p]. unfold reset. simpl. now rewrite append_nil_r.
  - set (step := fun w => WriteString ")" (writeEqualityEntry X k v (WriteString (andPrefix anyC) w))).
    assert (Hstep : framed step).
    { apply (framed_comp (fun w => writeEqualityEntry X k v (WriteString (andPrefix anyC) w))
                         (WriteString ")")); [|apply framed_WriteString].
      apply (framed_comp (WriteString (andPrefix anyC)) (writeEqualityEntry X k v));
        [apply framed_WriteString | apply framed_writeEqualityEntry]. }
    change (WriteString ")" (writeEqualityEntry X k v (WriteString (andPrefix anyC) w)))
      with (step w).
    change (WriteString ")" (writeEqualityEntry X k v (WriteString (andPrefix anyC) (reset w))))
      with (step (reset w)).
    destruct (IH true (step w)) as [H1 H2].
    destruct (IH true (step (reset w))) as [H3 H4].
    assert (Hr : reset (step w) = reset (step (reset w))).
    { rewrite (Hstep w). reflexivity. }
    split.
    + rewrite H1, H3, Hr. reflexivity.
    + rewrite H2, H4, Hr. rewrite (Hstep w). simpl. now rewrite append_assoc.
Qed.

Lemma writeEqualityMapToSQL_frame (m : EqMap) :
  forall anyConditions w,
    fst (writeEqualityMapToSQL X m anyConditions w)
    = fst (writeEqualityMapToSQL X m anyConditions (reset w))
    /\ snd (writeEqualityMapToSQL X m anyConditions w)
       = mkWriter (buf w ++ buf (snd (writeEqualityMapToSQL X m anyConditions (reset w))))
                  (args (snd (writeEqualityMapToSQL X m anyConditions (reset w))))
                  (pos (snd (writeEqualityMapToSQL X m anyConditions (reset w)))).
Proof. intros anyC w. apply writeEqualityEntries_frame. Qed.

Lemma framed_writeAndFragments (fs : list whereFragment) :
  forall anyConditions, framed (writeAndFragments X fs anyConditions).
Proof.
  induction fs as [|[sql values|m] fs IH]; intros anyC; simpl.
  - apply framed_id.
  - apply (framed_comp
             (fun w => WriteString ")" (WriteRelativeArgs (Expr sql values)
                                          (WriteString (andPrefix anyC) w)))
             (writeAndFragments X fs true)); [|apply IH].
    apply (framed_comp (fun w => WriteRelativeArgs (Expr sql values)
                                   (WriteString (andPrefix anyC) w))
                       (WriteString ")")); [|apply framed_WriteString].
    apply (framed_comp (WriteString (andPrefix anyC)) (WriteRelativeArgs (Expr sql values)));
      [apply framed_WriteString | apply framed_WriteRelativeArgs].
  - intros w.
    destruct (writeEqualityMapToSQL_frame m anyC w) as [H1 H2].
    destruct (writeEqualityMapToSQL X m anyC w) as [a1 w1] eqn:E1.
    destruct (writeEqualityMapToSQL X m anyC (reset w)) as [a2 w2] eqn:E2.
    simpl in H1, H2. subst a2 w1.
    rewrite (IH a1 (mkWriter _ _ _)). rewrite (IH a1 w2).
    unfold reset. simpl. now rewrite append_assoc.
Qed.

Lemma framed_writeAndFragmentsToSQL (fs : list whereFragment) :
  framed (writeAndFragmentsToSQL X fs).
Proof. apply framed_writeAndFragments. Qed.

Lemma framed_writeSetClause (i : nat) (c : setClause) : framed (writeSetClause X i c).
Proof.
  intros [b a p]. unfold writeSetClause, reset. simpl.
  destruct (0 <? i)%nat; simpl;
    destruct (set_value c) as [| | |s| |sql ea]; simpl;
      try destruct (String.eqb s _); try destruct (p <? maxLookup);
        text_norm; reflexivity.
Qed.

Lemma framed_writeConflictTarget (t : onConflictTargetType) : framed (writeConflictTarget t).
Proof.
  intros [b a p]. unfold writeConflictTarget, reset.
  destruct (0 <? strlen (column t)); [destruct (0 <? strlen (indexPredicate t))|
                                      destruct (0 <? strlen (constraint t))];
    text_norm; reflexivity.
Qed.

Lemma framed_writeConflictAction (a : onConflictActionType) : framed (writeConflictAction X a).
Proof.
  unfold writeConflictAction.
  destruct (negb (String.eqb (action a) updateAction)); [apply framed_WriteString|].
  destruct (0 <? len (whereFragments a)).
  - apply (framed_comp
             (fun w => WriteString " WHERE "
                         (forRange (writeSetClause X) 0%nat (setClauses a)
                            (WriteString " DO UPDATE SET " w)))
             (writeAndFragmentsToSQL X (whereFragments a)));
      [|apply framed_writeAndFragmentsToSQL].
    apply (framed_comp
             (fun w => forRange (writeSetClause X) 0%nat (setClauses a)
                         (WriteString " DO UPDATE SET " w))
             (WriteString " WHERE ")); [|apply framed_WriteString].
    apply (framed_comp (WriteString " DO UPDATE SET ")
                       (forRange (writeSetClause X) 0%nat (setClauses a)));
      [apply framed_WriteString|].
    apply framed_forRange. apply framed_writeSetClause.
  - apply (framed_comp (WriteString " DO UPDATE SET ")
                       (forRange (writeSetClause X) 0%nat (setClauses a)));
      [apply framed_WriteString|].
    apply framed_forRange. apply framed_writeSetClause.
Qed.

Lemma framed_writeOnConflict (b : InsertBuilder) : framed (writeOnConflict X b).
Proof.
  unfold writeOnConflict.
  destruct (hasOneConflictTarget (Some (onConflictTarget b))); [|apply framed_id].
  apply (framed_comp
           (fun w => writeConflictTarget (onConflictTarget b) (WriteString " ON CONFLICT " w))
           (writeConflictAction X (onConflictAction b)));
    [|apply framed_writeConflictAction].
  apply (framed_comp (WriteString " ON CONFLICT ") (writeConflictTarget (onConflictTarget b)));
    [apply framed_WriteString | apply framed_writeConflictTarget].
Qed.

End Frames.

(** ** Arguments are only appended *)

Lemma writeEqualityEntry_args (X : Externals) (c : string) (v : Value) (w : Writer) :
  exists t, args (writeEqualityEntry X c v w) = (args w ++ t)%list.
Proof.
  unfold writeEqualityEntry, writeBound.
  destruct v as [| | | |[[|x [|y l]]|]|]; simpl;
    first [ now (exists []; rewrite app_nil_r) | eexists; reflexivity ].
Qed.

Lemma writeEqualityEntries_args (X : Externals) (m : EqMap) :
  forall anyC w, exists t, args (snd (writeEqualityEntries X m anyC w)) = (args w ++ t)%list.
Proof.
  induction m as [|[k v] m IH]; intros anyC w; simpl.
  - exists []. now rewrite app_nil_r.
  - destruct (IH true (WriteString ")" (writeEqualityEntry X k v (WriteString (andPrefix anyC) w))))
      as [t Ht].
    destruct (writeEqualityEntry_args X k v (WriteString (andPrefix anyC) w)) as [t' Ht'].
    rewrite Ht. simpl. rewrite Ht'. simpl. exists (t' ++ t)%list. now rewrite app_assoc.
Qed.

Lemma writeEqualityMapToSQL_args (X : Externals) (m : EqMap) :
  forall anyC w, exists t, args (snd (writeEqualityMapToSQL X m anyC w)) = (args w ++ t)%list.
Proof. intros anyC w. apply writeEqualityEntries_args. Qed.

Lemma writeAndFragments_args (X : Externals) (fs : list whereFragment) :
  forall anyC w, exists t, args (writeAndFragments X fs anyC w) = (args w ++ t)%list.
Proof.
  induction fs as [|[sql values|m] fs IH]; intros anyC w; simpl.
  - exists []. now rewrite app_nil_r.
  - destruct (IH true (WriteString ")" (WriteRelativeArgs (Expr sql values)
                                          (WriteString (andPrefix anyC) w)))) as [t Ht].
    rewrite Ht. simpl. exists (values ++ t)%list. now rewrite app_assoc.
  - destruct (writeEqualityMapToSQL_args X m anyC w) as [t' Ht'].
    destruct (writeEqualityMapToSQL X m anyC w) as [a1 w1]. simpl in Ht'.
    destruct (IH a1 w1) as [t Ht]. rewrite Ht, Ht'. exists (t' ++ t)%list.
    now rewrite app_assoc.
Qed.


(** ** Separated lists *)

Lemma concat_cons (sep x : string) (l : list string) :
  l <> [] -> String.concat sep (x :: l) = x ++ sep ++ String.concat sep l.
Proof. destruct l; [congruence | reflexivity]. Qed.

(** A loop that writes a separator before every element but the first
    writes the elements joined by the separator. *)
Lemma forRange_joined {A : Type} (f : A -> string) (sep : string) (l : list A) :
  forall i w,
    forRange (fun i x w => WriteString (f x) (if (0 <? i)%nat then WriteString sep w else w))
             i l w
    = mkWriter (buf w ++ match l with
                         | [] => ""
                         | _ => (if (0 <? i)%nat then sep else "")
                                ++ String.concat sep (map f l)
                         end)
               (args w) (pos w).
Proof.
  induction l as [|x l IH]; intros i [b a p]; simpl.
  - now rewrite append_nil_r.
  - rewrite IH. destruct l as [|y l]; simpl.
    + destruct (0 <? i)%nat; text_norm; reflexivity.
    + destruct (0 <? i)%nat; text_norm; reflexivity.
Qed.

(** The RETURNING loop after its first pass. *)
Lemma forRange_ext_joined (X : Externals) (cs : list string) :
  forall i w,
    forRange (fun i c w =>
                WriteString (writeIdentifier X c)
                  (if (i =? 0)%nat then WriteString " RETURNING " w else WriteString "," w))
             (S i) cs w
    = mkWriter (buf w ++ match cs with
                         | [] => ""
                         | _ => "," ++ String.concat "," (map (writeIdentifier X) cs)
                         end)
               (args w) (pos w).
Proof.
  induction cs as [|c cs IH]; intros i [b a p]; simpl forRange.
  - simpl. now rewrite append_nil_r.
  - rewrite IH. destruct cs; text_norm; reflexivity.
Qed.

Lemma strlen_zero (s : string) : (strlen s =? 0) = String.eqb s "".
Proof. destruct s; reflexivity. Qed.

Lemma strlen_pos (s : string) : (0 <? strlen s) = negb (String.eqb s "").
Proof. destruct s; [reflexivity|]. unfold strlen. simpl String.length.
  destruct (0 <? Z.of_nat (S (String.length s))) eqn:E; [reflexivity|].
  apply Z.ltb_ge in E. lia. Qed.

Lemma len_zero {A : Type} (l : list A) : (len l =? 0) = match l with [] => true | _ => false end.
Proof. destruct l; [reflexivity|]. unfold len. simpl List.length.
  apply Z.eqb_neq. lia. Qed.

Lemma len_pos {A : Type} (l : list A) : (0 <? len l) = match l with [] => false | _ => true end.
Proof. destruct l; [reflexivity|]. unfold len. simpl List.length.
  apply Z.ltb_lt. lia. Qed.

(** ** InsertBuilder: the ON CONFLICT clause *)

Lemma hasOneConflictTarget_exactlyOne (t : onConflictTargetType) :
  hasOneConflictTarget (Some t) = exactlyOneTarget t.
Proof.
  unfold hasOneConflictTarget, exactlyOneTarget. rewrite !strlen_zero.
  destruct (String.eqb (column t) ""), (String.eqb (constraint t) ""); reflexivity.
Qed.

Lemma written_writeConflictTarget (t : onConflictTargetType) (a : list Value) (p : Z) :
  exactlyOneTarget t = true ->
  written (writeConflictTarget t) a p = targetText t.
Proof.
  unfold exactlyOneTarget, written, writeConflictTarget, targetText.
  rewrite !strlen_pos.
  destruct (String.eqb (column t) ""), (String.eqb (constraint t) ""),
    (String.eqb (indexPredicate t) ""); simpl; intros H;
    try discriminate; text_norm; reflexivity.
Qed.

Lemma writeConflictTarget_args (t : onConflictTargetType) (w : Writer) :
  args (writeConflictTarget t w) = args w /\ pos (writeConflictTarget t w) = pos w.
Proof.
  unfold writeConflictTarget.
  destruct (0 <? strlen (column t)); [destruct (0 <? strlen (indexPredicate t))|
                                      destruct (0 <? strlen (constraint t))];
    split; reflexivity.
Qed.

Lemma writeReturnings_eq (X : Externals) (cs : list string) (w : Writer) :
  writeReturnings X cs w = mkWriter (buf w ++ returningText X cs) (args w) (pos w).
Proof.
  unfold writeReturnings, returningText. destruct w as [b a p].
  destruct cs as [|c cs]; simpl forRange.
  - simpl. now rewrite append_nil_r.
  - rewrite (forRange_ext_joined X cs). destruct cs; text_norm; reflexivity.
Qed.

(** What a successful ToSQL went through. *)
Lemma InsertBuilder_ToSQL_ok (X : Externals) (b : InsertBuilder) (sql : string) (a : list Value) :
  InsertBuilder_ToSQL X b = Some (sql, a, None) ->
  exists columns w,
    err b = None
    /\ resolveColumns b = Some columns
    /\ writeValues X b columns = Ok w
    /\ sql = buf (writeOnConflict X b w) ++ returningText X (returnings b)
    /\ a = args (writeOnConflict X b w).
Proof.
  unfold InsertBuilder_ToSQL. intros H.
  destruct (err b) as [e|] eqn:Eerr; [discriminate|].
  destruct (strlen (table b) =? 0); [discriminate|].
  destruct (len (cols b) =? 0); [discriminate|].
  destruct ((len (vals b) =? 0) && (len (records b) =? 0)); [discriminate|].
  destruct ((len (records b) =? 0) && String.eqb (hd "" (cols b)) "*"); [discriminate|].
  destruct ((len (records b) =? 0) && isBlacklist b); [discriminate|].
  destruct (resolveColumns b) as [columns|]; [|discriminate].
  destruct (writeValues X b columns) as [w|e] eqn:Ew; [|discriminate].
  rewrite writeReturnings_eq in H. simpl in H. inversion H; subst.
  exists columns, w. auto.
Qed.

Lemma unswitched_action (calls : list InsertCall) :
  forall b,
    Forall (fun call => switchesAction call = false) calls ->
    action (onConflictAction (fold_left applyInsertCall calls b)) = action (onConflictAction b).
Proof.
  induction calls as [|call calls IH]; intros b HF; simpl; [reflexivity|].
  inversion HF as [|? ? Hc HF']; subst. rewrite (IH _ HF').
  destruct call; simpl in Hc; try discriminate; try reflexivity.
  - unfold applyInsertCall, InsertBuilder_Where.
    destruct (negb _); [destruct (err b); reflexivity|].
    destruct (newWhereFragment p a); reflexivity.
  - unfold applyInsertCall, InsertBuilder_Pair. simpl.
    destruct (vals b) as [|row [|row' rows]]; reflexivity.
Qed.

(** C6.  When ToSQL succeeds, the statement is the text up to the last row,
    then the ON CONFLICT clause, then the RETURNING clause.  The clause is
    there if and only if exactly one of the target's column and constraint
    is set; then it reads [ ON CONFLICT ], the target as [(column)] with
    [ WHERE indexPredicate] when a predicate is set, or as
    [ON CONSTRAINT name], and the action; an action that is not UPDATE
    reads [ DO NOTHING] and binds nothing.  The action of a builder that
    NewInsertBuilder made is not UPDATE as long as neither Set nor SetMap
    was called on it. *)
Theorem C6_on_conflict_clause (X : Externals) (b : InsertBuilder)
  (sql : string) (a : list Value) :
  (InsertBuilder_ToSQL X b = Some (sql, a, None) ->
   exists columns w clause,
     resolveColumns b = Some columns
     /\ writeValues X b columns = Ok w
     /\ sql = buf w ++ clause ++ returningText X (returnings b)
     /\ (clause <> "" <-> exactlyOneTarget (onConflictTarget b) = true)
     /\ (exactlyOneTarget (onConflictTarget b) = true ->
         exists actionText,
           clause = " ON CONFLICT " ++ targetText (onConflictTarget b) ++ actionText
           /\ (action (onConflictAction b) <> updateAction ->
               actionText = " DO NOTHING" /\ a = args w)))
  /\ (forall tableName b0 calls,
        NewInsertBuilder tableName = Some b0 ->
        Forall (fun call => switchesAction call = false) calls ->
        action (onConflictAction (fold_left applyInsertCall calls b0)) <> updateAction).
Proof.
  split.
  2:{ intros tableName b0 calls Hnew HF. rewrite (unswitched_action calls b0 HF).
      unfold NewInsertBuilder in Hnew. destruct (String.eqb tableName ""); [discriminate|].
      inversion Hnew; subst. discriminate. }
  intros H.
  destruct (InsertBuilder_ToSQL_ok X b sql a H) as (columns & w & _ & Hc & Hw & Hsql & Ha).
  exists columns, w, (written (writeOnConflict X b) (args w) (pos w)).
  split; [exact Hc|]. split; [exact Hw|].
  destruct (framed_eq (writeOnConflict X b) w (framed_writeOnConflict X b)) as (Hb & Hargs & _).
  split; [rewrite Hsql, Hb; apply append_assoc|].
  unfold written, writeOnConflict in *.
  rewrite hasOneConflictTarget_exactlyOne in *.
  destruct (exactlyOneTarget (onConflictTarget b)) eqn:Eone.
  - set (w1 := WriteString " ON CONFLICT " (mkWriter "" (args w) (pos w))).
    destruct (framed_eq (writeConflictTarget (onConflictTarget b)) w1
                (framed_writeConflictTarget _)) as (Ht & Hta & Htp).
    set (w2 := writeConflictTarget (onConflictTarget b) w1) in *.
    destruct (framed_eq (writeConflictAction X (onConflictAction b)) w2
                (framed_writeConflictAction X _)) as (Hact & _ & _).
    assert (Hclause :
      buf (writeConflictAction X (onConflictAction b) w2)
      = " ON CONFLICT " ++ targetText (onConflictTarget b)
        ++ written (writeConflictAction X (onConflictAction b)) (args w2) (pos w2)).
    { rewrite Hact, Ht. rewrite (written_writeConflictTarget _ _ _ Eone).
      unfold w1. simpl. reflexivity. }
    split.
    + split; [reflexivity|]. intros _. rewrite Hclause. discriminate.
    + intros _. eexists. split; [exact Hclause|].
      intros Hne. assert (E : String.eqb (action (onConflictAction b)) updateAction = false)
        by (apply String.eqb_neq; exact Hne).
      unfold written, writeConflictAction. rewrite E. simpl. split; [reflexivity|].
      rewrite Ha, Hargs. unfold writeConflictAction. rewrite E. simpl.
      rewrite (proj1 (writeConflictTarget_args _ _)). reflexivity.
  - split; [|discriminate]. split; [simpl; congruence | discriminate].
Qed.

Lemma C6_on_conflict_clause_witness :
  InsertBuilder_ToSQL testExternals insert_do_nothing
  = Some ("INSERT INTO a (b,c) VALUES ($1,$2) ON CONFLICT (b) DO NOTHING", [VInt 1; VInt 2], None)
  /\ exists columns w clause,
       resolveColumns insert_do_nothing = Some columns
       /\ writeValues testExternals insert_do_nothing columns = Ok w
       /\ clause <> "".
Proof.
  split; [reflexivity|].
  destruct (C6_on_conflict_clause testExternals insert_do_nothing
              "INSERT INTO a (b,c) VALUES ($1,$2) ON CONFLICT (b) DO NOTHING"
              [VInt 1; VInt 2]) as [H _].
  destruct (H eq_refl) as (columns & w & clause & Hc & Hw & _ & Hiff & _).
  exists columns, w, clause. split; [exact Hc|]. split; [exact Hw|].
  apply Hiff. reflexivity.
Defined.

(** ** InsertBuilder: DO UPDATE SET *)

Lemma writeSetClause_piece (X : Externals) (i : nat) (c : setClause) (w : Writer) :
  writeSetClause X i c w
  = mkWriter (buf w ++ (if (0 <? i)%nat then ", " else "") ++ fst (setPiece X (pos w) c))
             (args w ++ snd (setPiece X (pos w) c))
             (pos w + len (snd (setPiece X (pos w) c))).
Proof.
  destruct w as [b a p]. unfold writeSetClause, setPiece, equalsPlaceholderTab.
  destruct (0 <? i)%nat; simpl;
    destruct (set_value c) as [| | |s| |sql ea]; simpl;
      try destruct (String.eqb s _); try destruct (p <? maxLookup);
        text_norm; rewrite ?app_nil_r, ?Z.add_0_r; reflexivity.
Qed.

Lemma forRange_writeSetClause (X : Externals) (cs : list setClause) :
  forall i w,
    forRange (writeSetClause X) i cs w
    = mkWriter (buf w ++ match cs with
                         | [] => ""
                         | _ => (if (0 <? i)%nat then ", " else "")
                                ++ String.concat ", " (map fst (setPieces X (pos w) cs))
                         end)
               (args w ++ List.concat (map snd (setPieces X (pos w) cs)))
               (pos w + len (List.concat (map snd (setPieces X (pos w) cs)))).
Proof.
  induction cs as [|c cs IH]; intros i [b a p]; simpl forRange.
  - simpl. now rewrite append_nil_r, app_nil_r, Z.add_0_r.
  - rewrite IH, writeSetClause_piece. simpl.
    rewrite len_app, <- app_assoc, Z.add_assoc.
    destruct cs as [|c' cs]; simpl.
    + destruct (0 <? i)%nat; text_norm; reflexivity.
    + destruct (0 <? i)%nat; text_norm; reflexivity.
Qed.

Lemma setPieces_nth (X : Externals) (cs : list setClause) :
  forall p i c,
    nth_error cs i = Some c ->
    nth_error (setPieces X p cs) i
    = Some (setPiece X (p + len (List.concat (map snd (firstn i (setPieces X p cs))))) c).
Proof.
  induction cs as [|c0 cs IH]; intros p i c Hi.
  - destruct i; discriminate.
  - destruct i as [|i]; simpl in *.
    + inversion Hi; subst. now rewrite Z.add_0_r.
    + rewrite (IH _ _ _ Hi). rewrite len_app, Z.add_assoc. reflexivity.
Qed.

Lemma writeConflictTarget_eq (t : onConflictTargetType) (w : Writer) :
  exactlyOneTarget t = true ->
  writeConflictTarget t w = mkWriter (buf w ++ targetText t) (args w) (pos w).
Proof.
  intros H. destruct w as [bf a p].
  unfold exactlyOneTarget, writeConflictTarget, targetText in *.
  rewrite !strlen_pos.
  destruct (String.eqb (column t) ""), (String.eqb (constraint t) ""),
    (String.eqb (indexPredicate t) ""); simpl in *;
    try discriminate; text_norm; reflexivity.
Qed.

(** The UPDATE action: the SET pairs, then the optional WHERE. *)
Lemma writeConflictAction_update (X : Externals) (a : onConflictActionType) (w : Writer) :
  action a = updateAction ->
  let pieces := setPieces X (pos w) (setClauses a) in
  let w' := mkWriter (buf w ++ " DO UPDATE SET " ++ String.concat ", " (map fst pieces))
                     (args w ++ List.concat (map snd pieces))
                     (pos w + len (List.concat (map snd pieces))) in
  writeConflictAction X a w
  = (if 0 <? len (whereFragments a)
     then writeAndFragmentsToSQL X (whereFragments a) (WriteString " WHERE " w')
     else w').
Proof.
  intros Hact pieces w'.
  unfold writeConflictAction. rewrite Hact. simpl negb. cbv iota.
  assert (E : forRange (writeSetClause X) 0%nat (setClauses a)
                (WriteString " DO UPDATE SET " w) = w').
  { rewrite forRange_writeSetClause. unfold w', pieces. destruct w as [b ar p]. simpl.
    destruct (setClauses a); text_norm; reflexivity. }
  rewrite E. reflexivity.
Qed.

(** C8.  With the action switched to UPDATE, the action reads
    [ DO UPDATE SET ] followed by the SET pairs joined by [", "], then the
    optional WHERE.  The i-th pair is rendered at the cursor the pairs
    before it leave (the incoming cursor plus the number of arguments they
    bound) as [column = rhs]: a string value equal to [EXCLUDED.] followed
    by the pair's own column is written as it stands and binds nothing; an
    Expression value is remapped at the cursor and its arguments are
    appended; any other value is [$cursor] with the value appended.  In the
    statement ToSQL returns, the pairs start at the cursor the rows leave,
    and their arguments follow those of the rows. *)
Theorem C8_do_update_set (X : Externals) (a : onConflictActionType) (w : Writer) :
  action a = updateAction ->
  let pieces := setPieces X (pos w) (setClauses a) in
  let w' := mkWriter (buf w ++ " DO UPDATE SET " ++ String.concat ", " (map fst pieces))
                     (args w ++ List.concat (map snd pieces))
                     (pos w + len (List.concat (map snd pieces))) in
  writeConflictAction X a w
  = (if 0 <? len (whereFragments a)
     then writeAndFragmentsToSQL X (whereFragments a) (WriteString " WHERE " w')
     else w')
  /\ (forall i c,
        nth_error (setClauses a) i = Some c ->
        nth_error pieces i
        = Some (setPiece X (pos w + len (List.concat (map snd (firstn i pieces)))) c))
  /\ (forall p c,
        let lhs := writeIdentifier X (set_column c) ++ " = " in
        (set_value c = VString ("EXCLUDED." ++ set_column c) ->
         setPiece X p c = (lhs ++ "EXCLUDED." ++ set_column c, []))
        /\ (forall sql ea, set_value c = VExpr sql ea ->
            setPiece X p c = (lhs ++ remapPlaceholders sql p, ea))
        /\ ((forall sql ea, set_value c <> VExpr sql ea) ->
            set_value c <> VString ("EXCLUDED." ++ set_column c) ->
            setPiece X p c = (lhs ++ "$" ++ itoa p, [set_value c])))
  /\ (forall b sql ar,
        onConflictAction b = a ->
        exactlyOneTarget (onConflictTarget b) = true ->
        InsertBuilder_ToSQL X b = Some (sql, ar, None) ->
        exists columns w0 whereText whereArgs,
          resolveColumns b = Some columns
          /\ writeValues X b columns = Ok w0
          /\ let pieces0 := setPieces X (pos w0) (setClauses a) in
             sql = buf w0 ++ " ON CONFLICT " ++ targetText (onConflictTarget b)
                   ++ " DO UPDATE SET " ++ String.concat ", " (map fst pieces0)
                   ++ whereText ++ returningText X (returnings b)
             /\ ar = (args w0 ++ List.concat (map snd pieces0) ++ whereArgs)%list
             /\ (whereFragments a = [] -> whereText = "" /\ whereArgs = [])).
Proof.
  intros Hact pieces w'. split; [|split; [|split]].
  - apply writeConflictAction_update. exact Hact.
  - intros i c Hi. apply setPieces_nth. exact Hi.
  - intros p c lhs. unfold setPiece. fold lhs. repeat split.
    + intros ->. rewrite String.eqb_refl. reflexivity.
    + intros sql ea ->. reflexivity.
    + intros Hne Hns. destruct (set_value c) as [| | |s| |sql ea]; try reflexivity.
      * destruct (String.eqb_spec s ("EXCLUDED." ++ set_column c)) as [->|]; [congruence|reflexivity].
      * exfalso. apply (Hne sql ea). reflexivity.
  - intros b sql ar Hb Hone H.
    destruct (InsertBuilder_ToSQL_ok X b sql ar H) as (columns & w0 & _ & Hc & Hw & Hsql & Har).
    unfold writeOnConflict in Hsql, Har.
    rewrite hasOneConflictTarget_exactlyOne, Hone, Hb in Hsql, Har.
    rewrite (writeConflictTarget_eq _ _ Hone) in Hsql, Har.
    rewrite (writeConflictAction_update X a _ Hact) in Hsql, Har.
    cbn [buf args pos WriteString] in Hsql, Har.
    exists columns, w0.
    destruct (whereFragments a) as [|f fs] eqn:Ewf.
    + exists "", []. split; [exact Hc|]. split; [exact Hw|]. cbv zeta.
      change (0 <? len []) with false in Hsql, Har. cbn [buf args] in Hsql, Har.
      split; [|split; [|auto]].
      * rewrite Hsql. text_norm. reflexivity.
      * rewrite Har, app_nil_r. reflexivity.
    + rewrite len_pos in Hsql, Har. cbv iota in Hsql, Har.
      match type of Hsql with
      | context [writeAndFragmentsToSQL X ?fs0 ?w1] =>
          destruct (framed_eq (writeAndFragmentsToSQL X fs0) w1
                      (framed_writeAndFragmentsToSQL X fs0)) as (Hbuf & _ & _);
          destruct (writeAndFragments_args X fs0 false w1) as [t Ht];
          exists (" WHERE " ++ written (writeAndFragmentsToSQL X fs0) (args w1) (pos w1)), t
      end.
      split; [exact Hc|]. split; [exact Hw|]. cbv zeta.
      split; [|split; [|discriminate]].
      * rewrite Hsql, Hbuf. cbn [buf args pos WriteString]. text_norm. reflexivity.
      * rewrite Har. unfold writeAndFragmentsToSQL. rewrite Ht.
        cbn [buf args pos WriteString]. rewrite <- app_assoc. reflexivity.
Qed.

Lemma C8_do_update_set_witness :
  action (onConflictAction insert_upsert) = updateAction
  /\ writeConflictAction testExternals (onConflictAction insert_upsert)
       (mkWriter "" [VInt 1; VInt 2] 3)
     = mkWriter " DO UPDATE SET b = $3" [VInt 1; VInt 2; VInt 50] 4.
Proof.
  split; [reflexivity|].
  destruct (C8_do_update_set testExternals (onConflictAction insert_upsert)
              (mkWriter "" [VInt 1; VInt 2] 3) eq_refl) as (H & _).
  rewrite H. reflexivity.
Defined.

(** ** InsertBuilder: rows and records *)

Lemma fold_left_bindArg (row : list Value) :
  forall w, fold_left bindArg row w
            = mkWriter (buf w) (args w ++ row) (pos w + len row).
Proof.
  induction row as [|v row IH]; intros [b a p]; simpl.
  - now rewrite app_nil_r, Z.add_0_r.
  - rewrite IH. unfold bindArg. simpl. rewrite <- app_assoc. simpl.
    f_equal. unfold len. simpl List.length. lia.
Qed.

Lemma writeRow_eq (row : list Value) (w : Writer) :
  writeRow row w
  = mkWriter (buf w ++ buildPlaceholders (pos w) (List.length row))
             (args w ++ row) (pos w + len row).
Proof. unfold writeRow. rewrite fold_left_bindArg. reflexivity. Qed.

Lemma writeRows_from (rows : list (list Value)) :
  forall i w,
    forRange (fun i row w => writeRow row (if (0 <? i)%nat then WriteString "," w else w))
             i rows w
    = mkWriter (buf w ++ match rows with
                         | [] => ""
                         | _ => (if (0 <? i)%nat then "," else "")
                                ++ String.concat "," (groups (pos w) (map (@List.length Value) rows))
                         end)
               (args w ++ List.concat rows)
               (pos w + len (List.concat rows)).
Proof.
  induction rows as [|row rows IH]; intros i [b a p]; simpl forRange.
  - simpl. now rewrite append_nil_r, app_nil_r, Z.add_0_r.
  - rewrite IH, writeRow_eq. cbn [buf args pos List.concat].
    rewrite len_app, <- app_assoc, Z.add_assoc.
    destruct rows as [|row' rows]; destruct (0 <? i)%nat; simpl; text_norm;
      rewrite ?append_nil_r; reflexivity.
Qed.

Lemma valuesFor_length (rec : GoRecord) (cs : list string) :
  forall vs, valuesFor rec cs = Ok vs -> List.length vs = List.length cs.
Proof.
  induction cs as [|c cs IH]; simpl; intros vs H.
  - inversion H. reflexivity.
  - destruct (fieldValue rec c); [|discriminate].
    destruct (valuesFor rec cs) as [vs'|]; [|discriminate].
    inversion H. simpl. f_equal. apply IH. reflexivity.
Qed.

Lemma writeRecords_ok (anyVals : bool) (cs : list string) (recs : list GoRecord) :
  forall i w w',
    writeRecords anyVals cs i recs w = Ok w' ->
    exists recVals,
      Forall2 (fun rec vs => valuesFor rec cs = Ok vs) recs recVals
      /\ w' = mkWriter (buf w ++ match recs with
                                 | [] => ""
                                 | _ => (if (0 <? i)%nat || anyVals then "," else "")
                                        ++ String.concat ","
                                             (groups (pos w) (map (@List.length Value) recVals))
                                 end)
                       (args w ++ List.concat recVals)
                       (pos w + len (List.concat recVals)).
Proof.
  induction recs as [|rec recs IH]; intros i [b a p] w' H; simpl in H.
  - inversion H. exists []. split; [constructor|].
    simpl. now rewrite append_nil_r, app_nil_r, Z.add_0_r.
  - destruct (valuesFor rec cs) as [vs|e] eqn:Ev; [|discriminate].
    apply IH in H. destruct H as (recVals & HF & ->).
    exists (vs :: recVals). split; [constructor; assumption|].
    rewrite writeRow_eq. cbn [buf args pos List.concat].
    rewrite len_app, <- app_assoc, Z.add_assoc.
    assert (Hne : recs = [] <-> recVals = []).
    { inversion HF; subst; split; congruence. }
    destruct recs as [|rec' recs]; destruct recVals as [|vs' recVals];
      try (exfalso; destruct Hne as [H1 H2]; (discriminate (H1 eq_refl) || discriminate (H2 eq_refl)));
      destruct ((0 <? i)%nat || anyVals); simpl; text_norm; rewrite ?append_nil_r; reflexivity.
Qed.

(** The groups of the literal rows followed by the groups of the records
    are the groups of all rows. *)
Lemma concat_groups_app (rows1 rows2 : list (list Value)) :
  forall p,
    String.concat "," (groups p (map (@List.length Value) (rows1 ++ rows2)))
    = match rows1 with
      | [] => ""
      | _ => String.concat "," (groups p (map (@List.length Value) rows1))
      end
      ++ match rows2 with
         | [] => ""
         | _ => match rows1 with [] => "" | _ => "," end
                ++ String.concat ","
                     (groups (p + len (List.concat rows1)) (map (@List.length Value) rows2))
         end.
Proof.
  induction rows1 as [|r rows1 IH]; intros p.
  - simpl. rewrite Z.add_0_r. destruct rows2; reflexivity.
  - specialize (IH (p + Z.of_nat (List.length r))).
    assert (Hlen : p + len (List.concat (r :: rows1))
                   = p + Z.of_nat (List.length r) + len (List.concat rows1)).
    { simpl List.concat. rewrite len_app. unfold len at 1. lia. }
    rewrite Hlen. clear Hlen.
    change (map (@List.length Value) ((r :: rows1) ++ rows2))
      with (List.length r :: map (@List.length Value) (rows1 ++ rows2)).
    change (map (@List.length Value) (r :: rows1))
      with (List.length r :: map (@List.length Value) rows1).
    cbn [groups].
    destruct rows1 as [|r1 rows1].
    + destruct rows2 as [|r2 rows2].
      * simpl. now rewrite append_nil_r.
      * rewrite concat_cons by discriminate.
        change (len (List.concat [])) with 0. rewrite Z.add_0_r.
        simpl. text_norm. reflexivity.
    + rewrite concat_cons by discriminate. rewrite IH.
      rewrite (concat_cons "," _ (groups _ (map _ (r1 :: rows1)))) by discriminate.
      destruct rows2; text_norm; reflexivity.
Qed.

Lemma writeValues_ok (X : Externals) (b : InsertBuilder) (cs : list string) (w : Writer) :
  writeValues X b cs = Ok w ->
  exists recVals,
    Forall2 (fun rec vs => valuesFor rec cs = Ok vs) (records b) recVals
    /\ w = mkWriter ("INSERT INTO " ++ table b ++ " ("
                     ++ String.concat "," (map (writeIdentifier X) cs) ++ ") VALUES "
                     ++ String.concat ","
                          (groups 1 (map (@List.length Value) (vals b ++ recVals))))
                    (List.concat (vals b ++ recVals))
                    (1 + len (List.concat (vals b ++ recVals))).
Proof.
  unfold writeValues, writeColumns, writeRows. intros H.
  rewrite forRange_joined, writeRows_from in H.
  apply writeRecords_ok in H. destruct H as (recVals & HF & ->).
  exists recVals. split; [exact HF|].
  cbn [buf args pos WriteString]. rewrite concat_groups_app, concat_app, len_app.
  rewrite len_pos. rewrite Z.add_assoc.
  assert (Hne : records b = [] <-> recVals = []).
  { inversion HF; subst; split; congruence. }
  f_equal.
  destruct (vals b) as [|r0 rows]; destruct (records b) as [|rec recs];
    destruct recVals as [|vs recVals];
    try (exfalso; destruct Hne as [H1 H2];
         (discriminate (H1 eq_refl) || discriminate (H2 eq_refl)));
    destruct cs; simpl; text_norm; rewrite ?append_nil_r; reflexivity.
Qed.

(** ** Counting placeholders *)

Lemma range_S (start : Z) (n : nat) : range start (S n) = start :: range (start + 1) n.
Proof.
  unfold range. simpl. rewrite Z.add_0_r. f_equal.
  rewrite <- seq_shift, map_map. apply map_ext. intros i. lia.
Qed.

Lemma range_app (start : Z) (n m : nat) :
  range start (n + m) = (range start n ++ range (start + Z.of_nat n) m)%list.
Proof.
  revert start. induction n as [|n IH]; intros start.
  - simpl. now rewrite Z.add_0_r.
  - change (S n + m)%nat with (S (n + m)). rewrite !range_S, IH. simpl. do 3 f_equal. lia.
Qed.

Lemma range_from_1 (n : nat) : range 1 n = map Z.of_nat (seq 1 n).
Proof.
  unfold range. rewrite <- seq_shift, map_map. apply map_ext. intros i. lia.
Qed.

Lemma placeholderList_S (start : Z) (n : nat) :
  placeholderList start (S n) = ("$" ++ itoa start) :: placeholderList (start + 1) n.
Proof.
  unfold placeholderList. simpl. rewrite Z.add_0_r. f_equal.
  rewrite <- seq_shift, map_map. apply map_ext. intros i. do 2 f_equal. lia.
Qed.

Lemma markers_scan_nondigit (c : ascii) (s : string) :
  digit_of c = None -> Ascii.eqb c "$" = false ->
  markers_scan (String c s) = (Nil, snd (markers_scan s)).
Proof.
  intros Hd Hc. simpl. destruct (markers_scan s) as [d ms]. rewrite Hd, Hc. reflexivity.
Qed.

Lemma markers_scan_placeholders (n : nat) :
  forall start r ms,
    0 <= start ->
    markers_scan r = (Nil, ms) ->
    markers_scan (String.concat "," (placeholderList start n) ++ r)
    = (Nil, (range start n ++ ms)%list).
Proof.
  induction n as [|n IH]; intros start r ms Hs Hr.
  - simpl. exact Hr.
  - rewrite placeholderList_S, range_S. destruct n as [|n].
    + change (placeholderList (start + 1) 0) with (@nil string).
      cbn [String.concat range map seq List.app]. rewrite append_assoc.
      rewrite (markers_scan_dollar_digits start r ms Hs Hr). reflexivity.
    + rewrite concat_cons by (rewrite placeholderList_S; discriminate).
      rewrite !append_assoc.
      rewrite (markers_scan_dollar_digits start _ (range (start + 1) (S n) ++ ms)%list Hs).
      * reflexivity.
      * change ("," ++ String.concat "," (placeholderList (start + 1) (S n)) ++ r)
          with (String "," (String.concat "," (placeholderList (start + 1) (S n)) ++ r)).
        rewrite markers_scan_nondigit by reflexivity.
        rewrite (IH (start + 1) r ms) by (lia || exact Hr). reflexivity.
Qed.

Lemma markers_scan_buildPlaceholders (start : Z) (n : nat) (r : string) :
  0 <= start ->
  markers_scan (buildPlaceholders start n ++ r)
  = (Nil, (range start n ++ snd (markers_scan r))%list).
Proof.
  intros Hs. unfold buildPlaceholders. rewrite !append_assoc.
  change ("(" ++ String.concat "," (placeholderList start n) ++ ")" ++ r)
    with (String "(" (String.concat "," (placeholderList start n) ++ String ")" r)).
  rewrite markers_scan_nondigit by reflexivity.
  rewrite (markers_scan_placeholders n start (String ")" r) (snd (markers_scan r)) Hs).
  - reflexivity.
  - apply markers_scan_nondigit; reflexivity.
Qed.

Lemma markers_groups (rows : list (list Value)) :
  forall start,
    0 <= start ->
    markers (String.concat "," (groups start (map (@List.length Value) rows)))
    = range start (List.length (List.concat rows)).
Proof.
  unfold markers.
  induction rows as [|row rows IH]; intros start Hs.
  - reflexivity.
  - simpl map. simpl groups. simpl List.concat. rewrite length_app, range_app.
    destruct rows as [|row' rows].
    + simpl String.concat. rewrite <- (append_nil_r (buildPlaceholders _ _)).
      rewrite markers_scan_buildPlaceholders by exact Hs. simpl. reflexivity.
    + rewrite concat_cons by discriminate.
      rewrite markers_scan_buildPlaceholders by exact Hs.
      change ("," ++ ?s) with (String "," s).
      rewrite markers_scan_nondigit by reflexivity.
      cbn [snd]. rewrite IH by lia. reflexivity.
Qed.

(** ** The arguments of the conflict clause *)

Lemma writeConflictAction_args (X : Externals) (a : onConflictActionType) (w : Writer) :
  action a = updateAction ->
  exists t, args (writeConflictAction X a w) = (args w ++ t)%list.
Proof.
  intros Hact. unfold writeConflictAction. rewrite Hact. simpl negb. cbv iota.
  rewrite forRange_writeSetClause.
  destruct (0 <? len (whereFragments a)).
  - unfold writeAndFragmentsToSQL.
    match goal with
    | |- context [writeAndFragments X ?fs false ?w0] =>
        destruct (writeAndFragments_args X fs false w0) as [t Ht]
    end.
    rewrite Ht. simpl. eexists. rewrite <- app_assoc. reflexivity.
  - simpl. eexists. reflexivity.
Qed.

Lemma writeOnConflict_args (X : Externals) (b : InsertBuilder) (w : Writer) :
  exists t,
    args (writeOnConflict X b w) = (args w ++ t)%list
    /\ (exactlyOneTarget (onConflictTarget b) = false
        \/ action (onConflictAction b) <> updateAction -> t = []).
Proof.
  unfold writeOnConflict. rewrite hasOneConflictTarget_exactlyOne.
  destruct (exactlyOneTarget (onConflictTarget b)) eqn:E1.
  - set (w1 := writeConflictTarget (onConflictTarget b) (WriteString " ON CONFLICT " w)).
    assert (Ha1 : args w1 = args w) by (unfold w1; now rewrite (proj1 (writeConflictTarget_args _ _))).
    destruct (String.eqb_spec (action (onConflictAction b)) updateAction) as [Eu|Eu].
    + destruct (writeConflictAction_args X (onConflictAction b) w1 Eu) as [t Ht].
      exists t. rewrite Ht, Ha1. split; [reflexivity|]. intros [H|H]; [discriminate|contradiction].
    + exists []. unfold writeConflictAction.
      apply String.eqb_neq in Eu. rewrite Eu. simpl. rewrite Ha1, app_nil_r. auto.
  - exists []. rewrite app_nil_r. auto.
Qed.

(** ** InsertBuilder: the VALUES section *)

(** C7.  When ToSQL succeeds, the statement is the INSERT head, the VALUES
    section and a tail (the ON CONFLICT and RETURNING clauses).  The VALUES
    section holds one parenthesized group per row, the literal rows first
    and then the records in registration order, each record row as wide as
    the resolved column list; its placeholders are numbered [$1] .. [$n]
    where n is the number of values of all rows, and the first n bound
    arguments are those values in row-major order.  For N literal rows of
    width W and no records n is N*W.  The arguments of a DO UPDATE SET
    action follow them; without such an action nothing follows. *)
Theorem C7_rows_then_records (X : Externals) (b : InsertBuilder)
  (sql : string) (a : list Value) :
  InsertBuilder_ToSQL X b = Some (sql, a, None) ->
  exists columns recVals tail tailArgs,
    resolveColumns b = Some columns
    /\ Forall2 (fun rec vs => valuesFor rec columns = Ok vs) (records b) recVals
    /\ Forall (fun vs => List.length vs = List.length columns) recVals
    /\ let rows := (vals b ++ recVals)%list in
       let valuesText := String.concat "," (groups 1 (map (@List.length Value) rows)) in
       sql = "INSERT INTO " ++ table b ++ " ("
             ++ String.concat "," (map (writeIdentifier X) columns) ++ ") VALUES "
             ++ valuesText ++ tail
       /\ a = (List.concat rows ++ tailArgs)%list
       /\ markers valuesText = map Z.of_nat (seq 1 (List.length (List.concat rows)))
       /\ (forall W, records b = [] ->
                     Forall (fun row => List.length row = W) (vals b) ->
                     List.length (List.concat rows) = (List.length (vals b) * W)%nat)
       /\ (exactlyOneTarget (onConflictTarget b) = false
           \/ action (onConflictAction b) <> updateAction -> tailArgs = []).
Proof.
  intros H.
  destruct (InsertBuilder_ToSQL_ok X b sql a H) as (columns & w & _ & Hc & Hw & Hsql & Ha).
  destruct (writeValues_ok X b columns w Hw) as (recVals & HF & Ew).
  destruct (writeOnConflict_args X b w) as (tailArgs & Hargs & Hnil).
  destruct (framed_eq (writeOnConflict X b) w (framed_writeOnConflict X b)) as (Hb & _ & _).
  exists columns, recVals,
    (written (writeOnConflict X b) (args w) (pos w) ++ returningText X (returnings b)),
    tailArgs.
  split; [exact Hc|]. split; [exact HF|]. split.
  { clear -HF. induction HF; constructor; auto. eapply valuesFor_length; eauto. }
  cbv zeta. split; [|split; [|split; [|split]]].
  - rewrite Hsql, Hb. rewrite Ew at 1. cbn [buf]. text_norm. reflexivity.
  - rewrite Ha, Hargs, Ew. reflexivity.
  - rewrite markers_groups by lia. apply range_from_1.
  - intros W Hrec HW. rewrite Hrec in HF. inversion HF; subst. rewrite app_nil_r.
    clear -HW. induction HW as [|row rows Hrow _ IH]; [reflexivity|].
    simpl. rewrite length_app, IH, Hrow. reflexivity.
  - exact Hnil.
Qed.

Lemma C7_rows_then_records_witness :
  InsertBuilder_ToSQL testExternals insert_do_nothing
  = Some ("INSERT INTO a (b,c) VALUES ($1,$2) ON CONFLICT (b) DO NOTHING", [VInt 1; VInt 2], None)
  /\ exists tail,
       "INSERT INTO a (b,c) VALUES ($1,$2) ON CONFLICT (b) DO NOTHING"
       = "INSERT INTO a (b,c) VALUES ($1,$2)" ++ tail.
Proof.
  split; [reflexivity|].
  destruct (C7_rows_then_records testExternals insert_do_nothing _ _ eq_refl)
    as (columns & recVals & tail & tailArgs & Hc & HF & _ & Hsql & _).
  inversion HF; subst. inversion Hc; subst.
  exists tail. exact Hsql.
Defined.

(** The claim as the specification words it fails on an upsert: one literal
    row of width two, no records, and ToSQL emits three placeholders and
    binds three arguments (TestInsertOnConflictSet). *)
Lemma C7_counterexample :
  vals insert_upsert = [[VInt 1; VInt 2]]
  /\ records insert_upsert = []
  /\ exists sql a,
       InsertBuilder_ToSQL testExternals insert_upsert = Some (sql, a, None)
       /\ markers sql = [1; 2; 3]
       /\ a = [VInt 1; VInt 2; VInt 50]
       /\ List.length a <> (1 * 2)%nat.
Proof.
  split; [reflexivity|]. split; [reflexivity|].
  eexists. eexists. split; [vm_compute; reflexivity|].
  split; [vm_compute; reflexivity|]. split; [reflexivity|]. discriminate.
Qed.

(** ** Equality maps *)

Lemma writeEqualityMapToSQL_flag (X : Externals) (m : EqMap) :
  forall anyC w,
    fst (writeEqualityMapToSQL X m anyC w) = anyC || rendersPredicate (EqualityMap m).
Proof.
  intros anyC w. unfold writeEqualityMapToSQL.
  replace (rendersPredicate (EqualityMap m))
    with (negb (Nat.eqb (List.length (rangeMap X m)) 0))
    by (unfold rangeMap; rewrite shuffle_length; now destruct m).
  generalize (rangeMap X m) as entries. intros entries. revert anyC w.
  induction entries as [|[k v] entries IH]; intros anyC w; simpl.
  - now rewrite orb_false_r.
  - rewrite IH. now rewrite orb_true_r.
Qed.

Lemma writeAndFragments_app (X : Externals) (fs1 fs2 : list whereFragment) :
  forall anyC w,
    writeAndFragments X (fs1 ++ fs2) anyC w
    = writeAndFragments X fs2 (anyC || existsb rendersPredicate fs1)
        (writeAndFragments X fs1 anyC w).
Proof.
  induction fs1 as [|f fs1 IH]; intros anyC w.
  - simpl. now rewrite orb_false_r.
  - destruct f as [sql values|m].
    + cbn [List.app writeAndFragments existsb rendersPredicate].
      rewrite IH. now rewrite orb_true_r.
    + cbn [List.app writeAndFragments existsb].
      pose proof (writeEqualityMapToSQL_flag X m anyC w) as Hf.
      destruct (writeEqualityMapToSQL X m anyC w) as [a1 w1]. simpl in Hf. subst a1.
      rewrite IH. now rewrite orb_assoc.
Qed.



(** ** SelectDocBuilder: validation *)

Lemma applyScope_ok (X : Externals) (sc : option Scope) (from : string)
  (fs : list whereFragment) (w : Writer) :
  exists r, applyScope X sc from fs w = Ok r.
Proof.
  unfold applyScope. destruct sc as [sc|]; [|eexists; reflexivity].
  destruct (sc from) as [sql args2]. destruct (splitWhere X sql) as [sql' whereText].
  destruct (negb (String.eqb whereText "")); eexists; reflexivity.
Qed.

Lemma writeDocBody_ok (X : Externals) (b : SelectDocBuilder) (w : Writer) :
  exists w', writeDocBody X b w = Ok w'.
Proof.
  unfold writeDocBody. destruct (innerSQL b); [eexists; reflexivity|].
  destruct (0 <? len (tableFragments (inner b))); [destruct (onBuffer _ _) as [from w1]|];
    match goal with
    | |- context [applyScope X ?sc ?from ?fs ?w0] =>
        destruct (applyScope_ok X sc from fs w0) as [[fs' w'] Hr]
    end; rewrite Hr; eexists; reflexivity.
Qed.

Lemma lens_zero (b : SelectDocBuilder) :
  (len (columns (inner b)) + len (subQueriesMany b) + len (subQueriesOne b)
   + len (subQueriesScalar b) + len (subQueriesVector b) =? 0) = true
  <-> columns (inner b) = [] /\ subQueriesMany b = [] /\ subQueriesOne b = []
      /\ subQueriesVector b = [] /\ subQueriesScalar b = [].
Proof.
  rewrite Z.eqb_eq. split.
  - intros H.
    pose proof (len_nonneg (columns (inner b))). pose proof (len_nonneg (subQueriesMany b)).
    pose proof (len_nonneg (subQueriesOne b)). pose proof (len_nonneg (subQueriesScalar b)).
    pose proof (len_nonneg (subQueriesVector b)).
    assert (Hz : forall A (l : list A), len l = 0 -> l = []).
    { intros A [|x l]; [reflexivity|]. unfold len. simpl List.length. lia. }
    repeat split; apply Hz; lia.
  - intros (-> & -> & -> & -> & ->). reflexivity.
Qed.

(** C10.  A document builder with no recorded error gets the
    [no columns specified] error from ToSQL exactly when its projected
    columns and its MANY, ONE, VECTOR and SCALAR lists are all empty.  So a
    document with a sub-query binding and no projected column passes
    validation: given a FROM target for its joins and a CTE list without nil
    entries, ToSQL returns a statement and no error.  The plain
    SelectBuilder, with no recorded error, returns that error whenever its
    column list is empty. *)
Theorem C10_no_columns (X : Externals) (b : SelectDocBuilder) :
  doc_err b = None ->
  (SelectDocBuilder_ToSQL X b = Some (NewDatSQLError "no columns specified")
   <-> columns (inner b) = [] /\ subQueriesMany b = [] /\ subQueriesOne b = []
       /\ subQueriesVector b = [] /\ subQueriesScalar b = [])
  /\ (columns (inner b) = [] ->
      subQueriesMany b <> [] \/ subQueriesOne b <> []
      \/ subQueriesVector b <> [] \/ subQueriesScalar b <> [] ->
      tableFragments (inner b) <> [] \/ joinFragments (inner b) = [] ->
      Forall (fun slot => slot <> None) (subQueriesWith b) ->
      exists sql a, SelectDocBuilder_ToSQL X b = Some (sql, a, None))
  /\ (forall sb, sel_err sb = None -> columns sb = [] ->
        SelectBuilder_ToSQL X sb = NewDatSQLError "no columns specified").
Proof.
  intros Herr. split; [|split].
  - unfold SelectDocBuilder_ToSQL. rewrite Herr.
    destruct (_ =? 0) eqn:E.
    + split; [intros _; apply lens_zero; exact E | reflexivity].
    + split.
      * intros H. exfalso.
        destruct ((len (tableFragments (inner b)) =? 0) && (0 <? len (joinFragments (inner b))));
          [discriminate|].
        destruct (writeWiths 0 (subQueriesWith b) _) as [w|]; [|discriminate].
        match type of H with
        | context [writeDocBody X b ?w0] =>
            destruct (writeDocBody_ok X b w0) as [w' Hw']; rewrite Hw' in H
        end.
        discriminate.
      * intros H. apply lens_zero in H. congruence.
  - intros Hcols Hsub Hjoin Hwith.
    unfold SelectDocBuilder_ToSQL. rewrite Herr.
    destruct (_ =? 0) eqn:E.
    { apply lens_zero in E. destruct E as (_ & E1 & E2 & E3 & E4).
      exfalso. destruct Hsub as [H|[H|[H|H]]]; contradiction. }
    assert (Ej : (len (tableFragments (inner b)) =? 0) && (0 <? len (joinFragments (inner b)))
                 = false).
    { rewrite len_zero, len_pos.
      destruct Hjoin as [H|H]; [destruct (tableFragments (inner b)); [contradiction|reflexivity]|].
      rewrite H. apply andb_false_r. }
    rewrite Ej.
    assert (Hw : forall l i w, Forall (fun slot : option subInfo => slot <> None) l ->
                               exists w', writeWiths i l w = Some w').
    { induction l as [|slot l IH]; intros i w HF; simpl.
      - eexists; reflexivity.
      - inversion HF; subst. destruct slot as [sub|]; [|contradiction]. apply IH. assumption. }
    destruct (Hw _ 0%nat (mkWriter "" [] 1) Hwith) as [w0 Hw0]. rewrite Hw0.
    match goal with
    | |- context [writeDocBody X b ?w1] =>
        destruct (writeDocBody_ok X b w1) as [w' Hw']; rewrite Hw'
    end.
    eexists. eexists. reflexivity.
  - intros sb He Hc. unfold SelectBuilder_ToSQL. rewrite He, Hc. reflexivity.
Qed.

Lemma C10_no_columns_witness :
  doc_err doc_only_subquery = None
  /\ columns (inner doc_only_subquery) = []
  /\ exists sql a, SelectDocBuilder_ToSQL testExternals doc_only_subquery = Some (sql, a, None).
Proof.
  split; [reflexivity|]. split; [reflexivity|].
  destruct (C10_no_columns testExternals doc_only_subquery eq_refl) as (_ & H & _).
  apply H.
  - reflexivity.
  - left. discriminate.
  - right. reflexivity.
  - constructor.
Defined.

(** ** SelectDocBuilder: Whitelist *)

Lemma substring_0_length (n : nat) :
  forall s, (n <= String.length s)%nat -> String.length (substring 0 n s) = n.
Proof.
  induction n as [|n IH]; intros [|c s] H; simpl in *; try reflexivity; try lia.
  f_equal. apply IH. lia.
Qed.

Lemma substring_0_app (p rest : string) : substring 0 (String.length p) (p ++ rest) = p.
Proof.
  induction p as [|c p IH]; simpl.
  - destruct rest; reflexivity.
  - now rewrite IH.
Qed.

Lemma substring_0_prefix (n : nat) :
  forall s, (n <= String.length s)%nat -> exists rest, s = substring 0 n s ++ rest.
Proof.
  induction n as [|n IH]; intros [|c s] H; simpl in *; try lia.
  - exists "". reflexivity.
  - exists (String c s). reflexivity.
  - destruct (IH s ltac:(lia)) as [rest Hr]. exists rest. simpl. now rewrite <- Hr.
Qed.

Lemma length_append (a b : string) :
  String.length (a ++ b) = (String.length a + String.length b)%nat.
Proof. induction a as [|x a IH]; simpl; [reflexivity | now rewrite IH]. Qed.

(** [hasPrefix] is the prefix relation. *)
Lemma hasPrefix_spec (p a : string) :
  hasPrefix p a = true <-> exists rest, a = p ++ rest.
Proof.
  unfold hasPrefix, strlen. split.
  - intros H. apply andb_true_iff in H. destruct H as [Hl He].
    apply Z.leb_le in Hl. apply String.eqb_eq in He.
    destruct (substring_0_prefix (String.length p) a ltac:(lia)) as [rest Hr].
    exists rest. rewrite He in Hr. exact Hr.
  - intros [rest ->]. apply andb_true_iff. split.
    + apply Z.leb_le. rewrite length_append. lia.
    + rewrite substring_0_app. apply String.eqb_refl.
Qed.

Lemma lastChar_app_star (pre : string) : lastChar (pre ++ "*") = Some "*"%char.
Proof.
  induction pre as [|c pre IH]; [reflexivity|].
  simpl. destruct (pre ++ "*") eqn:E; [destruct pre; discriminate | exact IH].
Qed.

Lemma dropLast_app_star (pre : string) : dropLast (pre ++ "*") = pre.
Proof.
  unfold dropLast. rewrite length_append. simpl String.length.
  replace (String.length pre + 1 - 1)%nat with (String.length pre) by lia.
  apply substring_0_app.
Qed.

Lemma endsWithStar_spec (c : string) :
  endsWithStar c = true <-> c = dropLast c ++ "*".
Proof.
  split.
  - unfold endsWithStar, dropLast. induction c as [|x c IH]; [discriminate|].
    destruct c as [|y c].
    + simpl. destruct (Ascii.eqb_spec x "*") as [->|Hne]; [reflexivity|].
      destruct x as [[] [] [] [] [] [] [] []]; try discriminate. congruence.
    + intros H. change (lastChar (String x (String y c))) with (lastChar (String y c)) in H.
      specialize (IH H). cbn in IH |- *. rewrite ?Nat.sub_0_r in *.
      f_equal. exact IH.
  - intros ->. unfold endsWithStar. now rewrite lastChar_app_star.
Qed.

Lemma splitAllowList_star (cs : list string) :
  In "*" cs -> forall m e, splitAllowList cs m e = None.
Proof.
  induction cs as [|c cs IH]; intros Hin m e; [contradiction|]. simpl.
  rewrite strlen_zero. destruct (String.eqb_spec c "") as [->|Hne].
  - destruct Hin as [H|H]; [discriminate | apply IH; exact H].
  - destruct (String.eqb_spec c "*") as [->|Hns]; [reflexivity|].
    destruct Hin as [H|H]; [congruence|].
    destruct (lastChar c) as [[[] [] [] [] [] [] [] []]|]; apply IH; exact H.
Qed.

Lemma splitAllowList_nostar (cs : list string) :
  ~ In "*" cs ->
  forall m e, splitAllowList cs m e = Some ((m ++ prefixesOf cs)%list, (e ++ wordsOf cs)%list).
Proof.
  unfold prefixesOf, wordsOf.
  induction cs as [|c cs IH]; intros Hin m e.
  - simpl. now rewrite !app_nil_r.
  - simpl. rewrite strlen_zero.
    assert (Hcs : ~ In "*" cs) by (intros H; apply Hin; right; exact H).
    destruct (String.eqb_spec c "") as [->|Hne]; [simpl; apply IH; exact Hcs|].
    destruct (String.eqb_spec c "*") as [->|Hns]; [exfalso; apply Hin; left; reflexivity|].
    unfold endsWithStar. simpl negb. cbv iota.
    destruct (lastChar c) as [[[] [] [] [] [] [] [] []]|]; simpl;
      rewrite (IH Hcs); rewrite <- ?app_assoc; reflexivity.
Qed.

Lemma hasPrefix_dropLast_self (c : string) : hasPrefix (dropLast c) c = true.
Proof.
  unfold hasPrefix, dropLast, strlen.
  assert (Hl : (String.length c - 1 <= String.length c)%nat) by lia.
  rewrite (substring_0_length _ _ Hl). apply andb_true_iff. split.
  - apply Z.leb_le. lia.
  - apply String.eqb_refl.
Qed.

(** The test the last loop of Whitelist makes is the allow-list test. *)
Lemma whitelist_test_allowed (cs : list string) (a : string) :
  existsb (fun c => hasPrefix c a) (prefixesOf cs) || existsb (fun c => String.eqb a c) (wordsOf cs)
  = allowed cs a.
Proof.
  unfold prefixesOf, wordsOf, allowed.
  induction cs as [|c cs IH]; [reflexivity|]. simpl. rewrite <- IH. clear IH.
  destruct (String.eqb_spec c "") as [->|Hne]; [reflexivity|]. simpl negb. cbv iota.
  rewrite !andb_true_l.
  destruct (endsWithStar c) eqn:Es; simpl.
  - destruct (String.eqb_spec c a) as [->|Hca].
    + rewrite hasPrefix_dropLast_self. reflexivity.
    + simpl. now rewrite orb_assoc.
  - rewrite orb_false_r. rewrite (String.eqb_sym a c).
    destruct (String.eqb c a); simpl; [now rewrite orb_true_r|reflexivity].
Qed.

Lemma whitelistSlots_live (cs : list string) (l : list (option subInfo)) :
  Forall (fun slot => slot <> None) l ->
  whitelistSlots (prefixesOf cs) (wordsOf cs) l = Some (map (pruneSlot cs) l).
Proof.
  induction 1 as [|slot l Hs _ IH]; [reflexivity|]. simpl. rewrite IH.
  destruct slot as [sub|]; [|contradiction]. simpl.
  rewrite <- whitelist_test_allowed.
  destruct (existsb (fun c => hasPrefix c (alias sub)) (prefixesOf cs)); [reflexivity|].
  destruct (existsb (fun c => String.eqb (alias sub) c) (wordsOf cs)); reflexivity.
Qed.

Lemma allowed_spec (cs : list string) (a : string) :
  allowed cs a = true
  <-> exists c, In c cs /\ c <> ""
                /\ (c = a \/ exists pre rest, c = pre ++ "*" /\ a = pre ++ rest).
Proof.
  unfold allowed. rewrite existsb_exists. split.
  - intros (c & Hin & H). exists c. split; [exact Hin|].
    apply andb_true_iff in H. destruct H as [Hne H].
    split; [intros ->; discriminate|].
    apply orb_true_iff in H. destruct H as [H|H].
    + left. apply String.eqb_eq. exact H.
    + right. apply andb_true_iff in H. destruct H as [Hs Hp].
      apply endsWithStar_spec in Hs. apply hasPrefix_spec in Hp. destruct Hp as [rest Hr].
      exists (dropLast c), rest. split; assumption.
  - intros (c & Hin & Hne & H). exists c. split; [exact Hin|].
    apply andb_true_iff. split; [apply negb_true_iff, String.eqb_neq; exact Hne|].
    apply orb_true_iff. destruct H as [->|(pre & rest & -> & ->)].
    + left. apply String.eqb_refl.
    + right. apply andb_true_iff. split.
      * unfold endsWithStar. now rewrite lastChar_app_star.
      * rewrite dropLast_app_star. apply hasPrefix_spec. exists rest. reflexivity.
Qed.

(** C5.  A Whitelist call with no argument, or with the literal [*] among
    its arguments, leaves the builder as it is.  Any other call, on a
    builder none of whose MANY, ONE, VECTOR and SCALAR bindings is pruned
    yet, keeps every such binding whose alias is allowed and prunes every
    other one, the slot staying in place; WITH and UNION bindings and the
    rest of the builder are untouched.  An alias is allowed when a non-empty
    entry of the list equals it, or ends in [*] and is, without that [*], a
    prefix of it.  A pruned slot writes nothing when the statement is
    rendered. *)
Theorem C5_whitelist (X : Externals) (cs : list string) (b : SelectDocBuilder) :
  (cs = [] \/ In "*" cs -> SelectDocBuilder_Whitelist cs b = Some b)
  /\ (cs <> [] -> ~ In "*" cs ->
      Forall (fun slot => slot <> None)
        (subQueriesMany b ++ subQueriesOne b ++ subQueriesVector b ++ subQueriesScalar b) ->
      SelectDocBuilder_Whitelist cs b
      = Some (mkDoc (inner b) (subQueriesWith b)
                (map (pruneSlot cs) (subQueriesMany b))
                (map (pruneSlot cs) (subQueriesOne b))
                (map (pruneSlot cs) (subQueriesVector b))
                (map (pruneSlot cs) (subQueriesScalar b))
                (innerSQL b) (union b) (isParent b) (doc_err b)))
  /\ (forall a,
        allowed cs a = true
        <-> exists c, In c cs /\ c <> ""
                      /\ (c = a \/ exists pre rest, c = pre ++ "*" /\ a = pre ++ rest))
  /\ (forall w, writeMany X w None = w /\ writeOne X w None = w
                /\ writeVector X w None = w /\ writeScalar X w None = w).
Proof.
  split; [|split; [|split]].
  - intros [->|Hin]; [reflexivity|]. unfold SelectDocBuilder_Whitelist.
    destruct (len cs =? 0); [reflexivity|].
    now rewrite (splitAllowList_star cs Hin).
  - intros Hne Hns HF. unfold SelectDocBuilder_Whitelist.
    rewrite len_zero. destruct cs as [|c cs']; [congruence|].
    rewrite (splitAllowList_nostar _ Hns). cbn [List.app].
    apply Forall_app in HF. destruct HF as [H1 HF].
    apply Forall_app in HF. destruct HF as [H2 HF].
    apply Forall_app in HF. destruct HF as [H3 H4].
    rewrite !whitelistSlots_live by assumption. reflexivity.
  - apply allowed_spec.
  - intros w. repeat split.
Qed.

Lemma C5_whitelist_witness :
  match SelectDocBuilder_Whitelist ["f*"; "x"] doc_whitelist with
  | Some b' =>
      map (option_map alias) (subQueriesMany b') = [Some "f"; Some "x"]
      /\ map (option_map alias) (subQueriesOne b') = [Some "foo"]
      /\ map (option_map alias) (subQueriesVector b') = [None]
      /\ map (option_map alias) (subQueriesScalar b') = [None]
  | None => False
  end.
Proof.
  destruct (C5_whitelist testExternals ["f*"; "x"] doc_whitelist) as (_ & H & _).
  rewrite H.
  - repeat split.
  - discriminate.
  - intros [H1|[H1|[]]]; discriminate.
  - repeat constructor; discriminate.
Defined.

(** The claim as the specification words it fails on an empty entry: the
    alias of the binding is an exact match of the allow-list entry, both
    being the empty string, and the binding is pruned. *)
Lemma C5_counterexample :
  map (option_map alias) (subQueriesMany doc_empty_alias) = [Some ""]
  /\ In "" [""]
  /\ exists b', SelectDocBuilder_Whitelist [""] doc_empty_alias = Some b'
                /\ subQueriesMany b' = [None].
Proof.
  split; [reflexivity|]. split; [left; reflexivity|].
  eexists. split; reflexivity.
Qed.

(** ** SelectDocBuilder: the steps only append *)

Section DocFrames.

Variable X : Externals.

Lemma framed_writeStrings (l : list string) : framed (writeStrings l).
Proof.
  unfold writeStrings. apply framed_forRange. intros i x.
  apply (framed_comp (fun w => if (0 <? i)%nat then WriteString ", " w else w) (WriteString x));
    [apply framed_sep | apply framed_WriteString].
Qed.

Lemma framed_writeDistinct (sb : SelectBuilder) : framed (writeDistinct sb).
Proof.
  unfold writeDistinct. destruct (isDistinct sb); [|apply framed_id].
  destruct (len (distinctColumns sb) =? 0); [apply framed_WriteString|].
  apply (framed_comp (fun w => writeStrings (distinctColumns sb) (WriteString "DISTINCT ON (" w))
                     (WriteString ") ")); [|apply framed_WriteString].
  apply (framed_comp (WriteString "DISTINCT ON (") (writeStrings (distinctColumns sb)));
    [apply framed_WriteString | apply framed_writeStrings].
Qed.

Lemma framed_sub (slot : option subInfo) :
  framed (fun w => writeMany X w slot) /\ framed (fun w => writeVector X w slot)
  /\ framed (fun w => writeOne X w slot) /\ framed (fun w => writeScalar X w slot)
  /\ framed (fun w => writeUnion w slot).
Proof.
  destruct slot as [sub|]; [|repeat split; apply framed_id].
  repeat split; intros [b a p];
    unfold writeMany, writeVector, writeOne, writeScalar, writeUnion, WriteRelativeArgs;
    text_norm; reflexivity.
Qed.

Lemma framed_writeFragment (sep : string) (f : whereFragment) : framed (writeFragment X sep f).
Proof.
  destruct f as [sql values|m]; simpl.
  - apply framed_WriteRelativeArgs.
  - apply framed_forRange. intros i kv.
    apply (framed_comp (fun w => if (0 <? i)%nat then WriteString sep w else w)
                       (writeEqualityEntry X (fst kv) (snd kv)));
      [apply framed_sep | apply framed_writeEqualityEntry].
Qed.

Lemma framed_writeCommaFragmentsToSQL (fs : list whereFragment) :
  framed (writeCommaFragmentsToSQL X fs).
Proof.
  unfold writeCommaFragmentsToSQL. apply framed_forRange. intros i f.
  apply (framed_comp (fun w => if (0 <? i)%nat then WriteString ", " w else w)
                     (writeFragment X ", " f));
    [apply framed_sep | apply framed_writeFragment].
Qed.

(** The clauses that follow the FROM target and the scope. *)
Lemma framed_tail (b : SelectDocBuilder) (fs : list whereFragment) :
  framed (fun w =>
            writeFors (inner b)
              (writeLimitOffset (inner b)
                 (writeOrderBys X (inner b)
                    (writeHaving X (inner b)
                       (writeGroupBys (inner b)
                          (fold_left writeUnion (union b) (writeWhere X fs w))))))).
Proof.
  set (sb := inner b).
  assert (H1 : framed (writeWhere X fs)).
  { unfold writeWhere. destruct (0 <? len fs); [|apply framed_id].
    apply (framed_comp (WriteString " WHERE ") (writeAndFragmentsToSQL X fs));
      [apply framed_WriteString | apply framed_writeAndFragmentsToSQL]. }
  assert (H2 : framed (fold_left writeUnion (union b))).
  { apply framed_fold_left. intros slot. apply framed_sub. }
  assert (H3 : framed (writeGroupBys sb)).
  { unfold writeGroupBys. destruct (0 <? len (groupBys sb)); [|apply framed_id].
    apply (framed_comp (WriteString " GROUP BY ") (writeStrings (groupBys sb)));
      [apply framed_WriteString | apply framed_writeStrings]. }
  assert (H4 : framed (writeHaving X sb)).
  { unfold writeHaving. destruct (0 <? len (havingFragments sb)); [|apply framed_id].
    apply (framed_comp (WriteString " HAVING ") (writeAndFragmentsToSQL X (havingFragments sb)));
      [apply framed_WriteString | apply framed_writeAndFragmentsToSQL]. }
  assert (H5 : framed (writeOrderBys X sb)).
  { unfold writeOrderBys. destruct (0 <? len (orderBys sb)); [|apply framed_id].
    apply (framed_comp (WriteString " ORDER BY ") (writeCommaFragmentsToSQL X (orderBys sb)));
      [apply framed_WriteString | apply framed_writeCommaFragmentsToSQL]. }
  assert (H6 : framed (writeLimitOffset sb)).
  { intros [bf a p]. unfold writeLimitOffset, writeUint64.
    destruct (limitValid sb), (offsetValid sb); text_norm; reflexivity. }
  assert (H7 : framed (writeFors sb)).
  { unfold writeFors. destruct (0 <? len (fors sb)); [|apply framed_id].
    apply (framed_comp (WriteString " FOR")
             (fold_left (fun w s => WriteString s (WriteString " " w)) (fors sb)));
      [apply framed_WriteString|].
    apply framed_fold_left. intros s.
    apply (framed_comp (WriteString " ") (WriteString s)); apply framed_WriteString. }
  pose proof (framed_comp _ _ H1 H2) as C1.
  pose proof (framed_comp _ _ C1 H3) as C2.
  pose proof (framed_comp _ _ C2 H4) as C3.
  pose proof (framed_comp _ _ C3 H5) as C4.
  pose proof (framed_comp _ _ C4 H6) as C5.
  exact (framed_comp _ _ C5 H7).
Qed.

Lemma framedR_comp (f : Writer -> Writer) (g : Writer -> result Writer) :
  framed f -> framedR g -> framedR (fun w => g (f w)).
Proof.
  intros Hf Hg w. rewrite (Hf w). rewrite (Hg (mkWriter _ _ _)).
  rewrite (Hg (f (reset w))). unfold reset. simpl.
  destruct (g _) as [w0|e]; [|reflexivity]. simpl. now rewrite append_assoc.
Qed.

(** Frame every tail of the goal that does not yet start from a reset
    writer. *)
Ltac frame_tails b :=
  repeat match goal with
         | |- context [writeWhere X ?fs ?w] =>
             lazymatch w with
             | reset _ => fail
             | _ => let E := fresh in
                    pose proof (framed_tail b fs w) as E; cbv beta in E;
                    rewrite E; clear E
             end
         end.

Lemma framedR_writeDocBody (b : SelectDocBuilder) : framedR (writeDocBody X b).
Proof.
  intros [bf a p]. unfold writeDocBody, reset. cbn [buf args pos].
  destruct (innerSQL b) as [e|].
  { unfold WriteRelativeArgs. simpl. reflexivity. }
  destruct (0 <? len (tableFragments (inner b))).
  - unfold onBuffer. cbn [buf args pos WriteString].
    set (fw := writeConcatFragmentsToSQL X _ _).
    unfold applyScope. destruct (scope (inner b)) as [sc|].
    + destruct (sc (buf fw)) as [sql args2]. destruct (splitWhere X sql) as [sql' whereText].
      destruct (negb (String.eqb whereText "")); cbn [newWhereFragment];
        frame_tails b; unfold reset, WriteString; cbn [buf args pos];
        rewrite ?append_assoc; reflexivity.
    + frame_tails b. unfold reset, WriteString; cbn [buf args pos].
      rewrite ?append_assoc. reflexivity.
  - unfold applyScope. destruct (scope (inner b)) as [sc|].
    + destruct (sc "") as [sql args2]. destruct (splitWhere X sql) as [sql' whereText].
      destruct (negb (String.eqb whereText "")); cbn [newWhereFragment];
        frame_tails b; unfold reset, WriteString; cbn [buf args pos];
        rewrite ?append_assoc; reflexivity.
    + frame_tails b. unfold reset; cbn [buf args pos].
      rewrite ?append_assoc. reflexivity.
Qed.

Lemma framedR_writeDocRest (b : SelectDocBuilder) : framedR (writeDocRest X b).
Proof.
  unfold writeDocRest.
  pose proof (framed_writeDistinct (inner b)) as H1.
  pose proof (framed_writeStrings (columns (inner b))) as H2.
  assert (H3 : framed (fold_left (writeMany X) (subQueriesMany b)))
    by (apply framed_fold_left; intros slot; apply framed_sub).
  assert (H4 : framed (fold_left (writeVector X) (subQueriesVector b)))
    by (apply framed_fold_left; intros slot; apply framed_sub).
  assert (H5 : framed (fold_left (writeOne X) (subQueriesOne b)))
    by (apply framed_fold_left; intros slot; apply framed_sub).
  assert (H6 : framed (fold_left (writeScalar X) (subQueriesScalar b)))
    by (apply framed_fold_left; intros slot; apply framed_sub).
  pose proof (framed_comp _ _ H1 H2) as C1.
  pose proof (framed_comp _ _ C1 H3) as C2.
  pose proof (framed_comp _ _ C2 H4) as C3.
  pose proof (framed_comp _ _ C3 H5) as C4.
  pose proof (framed_comp _ _ C4 H6) as C5.
  exact (framedR_comp _ _ C5 (framedR_writeDocBody b)).
Qed.

End DocFrames.

(** ** The heap *)

Lemma heapSet_eq (h : Heap) :
  forall p b x, nth_error h p = Some x -> nth_error (heapSet h p b) p = Some b.
Proof.
  induction h as [|y h IH]; intros [|p] b x H; simpl in *; try discriminate.
  - reflexivity.
  - eapply IH; eauto.
Qed.

Lemma heapSet_ne (h : Heap) :
  forall p q b, p <> q -> nth_error (heapSet h p b) q = nth_error h q.
Proof.
  induction h as [|y h IH]; intros [|p] [|q] b H; simpl; try reflexivity; try congruence.
  apply IH. congruence.
Qed.

(** ** SelectDocBuilder: wrapping *)

Lemma SelectDocBuilder_ToSQL_rest (X : Externals) (b : SelectDocBuilder) :
  SelectDocBuilder_ToSQL X b
  = match doc_err b with
    | Some e => Some (NewDatSQLErr e)
    | None =>
        if len (columns (inner b)) + len (subQueriesMany b) + len (subQueriesOne b)
           + len (subQueriesScalar b) + len (subQueriesVector b) =? 0
        then Some (NewDatSQLError "no columns specified") else
        if (len (tableFragments (inner b)) =? 0) && (0 <? len (joinFragments (inner b)))
        then Some (NewDatSQLError "joins may only be attached if a from target is specified") else
        match writeWiths 0%nat (subQueriesWith b) (mkWriter "" [] 1) with
        | None => None
        | Some w =>
            match writeDocRest X b
                    (if isParent b
                     then WriteString "SELECT row_to_json(dat__item.*) FROM ( SELECT " w
                     else WriteString "SELECT " w) with
            | Failed e => Some (NewDatSQLErr e)
            | Ok w =>
                let w := if isParent b then WriteString ") as dat__item" w else w in
                Some (buf w, args w, None)
            end
        end
    end.
Proof. reflexivity. Qed.

Lemma writeDocRest_setIsParent (X : Externals) (b : SelectDocBuilder) (f : bool) (w : Writer) :
  writeDocRest X (setIsParent f b) w = writeDocRest X b w.
Proof. reflexivity. Qed.

(** The rendering of a builder with the flag set is the rendering with the
    flag cleared, wrapped once. *)
Lemma wrap_once (X : Externals) (b : SelectDocBuilder) (sql : string) (a : list Value) :
  SelectDocBuilder_ToSQL X (setIsParent true b) = Some (sql, a, None) ->
  exists withs body,
    sql = withs ++ "SELECT row_to_json(dat__item.*) FROM ( SELECT "
          ++ body ++ ") as dat__item"
    /\ SelectDocBuilder_ToSQL X (setIsParent false b) = Some (withs ++ "SELECT " ++ body, a, None).
Proof.
  rewrite !SelectDocBuilder_ToSQL_rest. cbn [setIsParent doc_err inner subQueriesMany
    subQueriesOne subQueriesScalar subQueriesVector subQueriesWith isParent].
  destruct (doc_err b); [discriminate|].
  destruct (_ =? 0); [discriminate|].
  destruct (_ && _); [discriminate|].
  destruct (writeWiths 0 (subQueriesWith b) _) as [w0|]; [|discriminate].
  rewrite !writeDocRest_setIsParent.
  rewrite (framedR_writeDocRest X b (WriteString "SELECT row_to_json(dat__item.*) FROM ( SELECT " w0)).
  rewrite (framedR_writeDocRest X b (WriteString "SELECT " w0)).
  change (reset (WriteString "SELECT row_to_json(dat__item.*) FROM ( SELECT " w0))
    with (reset w0).
  change (reset (WriteString "SELECT " w0)) with (reset w0).
  destruct (writeDocRest X b (reset w0)) as [w1|e]; [|discriminate].
  intros H. inversion H; subst. exists (buf w0), (buf w1).
  unfold WriteString. cbn [buf args pos]. rewrite !append_assoc. split; reflexivity.
Qed.




(** ** Recorded errors *)

Lemma Set_keeps_err (c : string) (v : Value) (b : InsertBuilder) (e : error) :
  err b = Some e -> err (InsertBuilder_Set c v b) = Some e.
Proof.
  intros H. unfold InsertBuilder_Set.
  destruct (negb (hasOneConflictTarget (Some (onConflictTarget b)))); [rewrite H|]; exact H.
Qed.

Lemma SetMap_keeps_err (m : EqMap) :
  forall b e, err b = Some e -> err (InsertBuilder_SetMap m b) = Some e.
Proof.
  unfold InsertBuilder_SetMap. induction m as [|[k v] m IH]; intros b e H; simpl.
  - exact H.
  - apply IH. apply Set_keeps_err. exact H.
Qed.

Lemma guarded_call_keeps_err (call : InsertCall) (b : InsertBuilder) (e : error) :
  guardsError call = true -> err b = Some e -> err (applyInsertCall b call) = Some e.
Proof.
  intros Hg H. destruct call; simpl in *; try exact H; try discriminate.
  - apply Set_keeps_err. exact H.
  - apply SetMap_keeps_err. exact H.
  - unfold InsertBuilder_Where.
    destruct (negb (String.eqb (action (onConflictAction b)) updateAction)); [rewrite H; exact H|].
    destruct p; simpl; try exact H. discriminate.
Qed.




(** ** ToSQL is repeatable *)

Section MapOrder.

Variable X : Externals.
Variable order : EqMap -> list nat.

Lemma rangeMap_short (Y : Externals) (m : EqMap) :
  (List.length m <=? 1)%nat = true -> rangeMap Y m = m.
Proof. intros H. apply shuffle_short. now apply Nat.leb_le. Qed.

Lemma writeEqualityMapToSQL_order (m : EqMap) (anyC : bool) (w : Writer) :
  singleKey (EqualityMap m) = true ->
  writeEqualityMapToSQL (withMapOrder order X) m anyC w = writeEqualityMapToSQL X m anyC w.
Proof.
  simpl. intros H. unfold writeEqualityMapToSQL. rewrite !rangeMap_short by exact H.
  reflexivity.
Qed.

Lemma writeAndFragments_order (fs : list whereFragment) :
  singleKeys fs = true ->
  forall anyC w,
    writeAndFragments (withMapOrder order X) fs anyC w = writeAndFragments X fs anyC w.
Proof.
  induction fs as [|[sql values|m] fs IH]; intros H anyC w; [reflexivity| |];
    apply andb_true_iff in H; destruct H as [Hf Hfs].
  - cbn [writeAndFragments]. apply IH. exact Hfs.
  - cbn [writeAndFragments]. rewrite writeEqualityMapToSQL_order by exact Hf.
    destruct (writeEqualityMapToSQL X m anyC w) as [any' w']. apply IH. exact Hfs.
Qed.

Lemma writeFragment_order (sep : string) (f : whereFragment) (w : Writer) :
  singleKey f = true ->
  writeFragment (withMapOrder order X) sep f w = writeFragment X sep f w.
Proof.
  destruct f as [sql values|m]; intros H; [reflexivity|].
  unfold writeFragment. rewrite !rangeMap_short by exact H. reflexivity.
Qed.

Lemma writeCommaFragmentsToSQL_order (fs : list whereFragment) (w : Writer) :
  singleKeys fs = true ->
  writeCommaFragmentsToSQL (withMapOrder order X) fs w = writeCommaFragmentsToSQL X fs w.
Proof.
  unfold writeCommaFragmentsToSQL. intros H.
  enough (Hi : forall i w,
             forRange (fun i f w =>
                         writeFragment (withMapOrder order X) ", " f
                           (if (0 <? i)%nat then WriteString ", " w else w)) i fs w
             = forRange (fun i f w =>
                           writeFragment X ", " f
                             (if (0 <? i)%nat then WriteString ", " w else w)) i fs w)
    by apply Hi.
  induction fs as [|f fs IH]; intros i w'; [reflexivity|].
  apply andb_true_iff in H. destruct H as [Hf Hfs].
  cbn [forRange]. rewrite writeFragment_order by exact Hf. apply IH. exact Hfs.
Qed.

Lemma writeConcatFragmentsToSQL_order (fs : list whereFragment) (w : Writer) :
  singleKeys fs = true ->
  writeConcatFragmentsToSQL (withMapOrder order X) fs w = writeConcatFragmentsToSQL X fs w.
Proof.
  unfold writeConcatFragmentsToSQL. intros H. generalize 0%nat as i. revert w.
  induction fs as [|f fs IH]; intros w i; [reflexivity|].
  apply andb_true_iff in H. destruct H as [Hf Hfs].
  cbn [forRange]. rewrite writeFragment_order by exact Hf. apply IH. exact Hfs.
Qed.

Lemma applyScope_singleKeys (sc : option Scope) (from : string)
  (fs fs' : list whereFragment) (w w' : Writer) :
  applyScope X sc from fs w = Ok (fs', w') -> singleKeys fs = true -> singleKeys fs' = true.
Proof.
  unfold applyScope. destruct sc as [sc|]; [|intros E; inversion E; subst; auto].
  destruct (sc from) as [sql args2]. destruct (splitWhere X sql) as [sql' whereText].
  destruct (negb (String.eqb whereText "")); intros E; inversion E; subst; auto.
  intros H. unfold singleKeys. rewrite forallb_app. unfold singleKeys in H. rewrite H.
  reflexivity.
Qed.

Lemma writeWhere_order (fs : list whereFragment) (w : Writer) :
  singleKeys fs = true -> writeWhere (withMapOrder order X) fs w = writeWhere X fs w.
Proof.
  intros H. unfold writeWhere, writeAndFragmentsToSQL.
  destruct (0 <? len fs); [|reflexivity]. apply writeAndFragments_order. exact H.
Qed.

Lemma writeHaving_order (b : SelectBuilder) (w : Writer) :
  singleKeys (havingFragments b) = true ->
  writeHaving (withMapOrder order X) b w = writeHaving X b w.
Proof.
  intros H. unfold writeHaving, writeAndFragmentsToSQL.
  destruct (0 <? len (havingFragments b)); [|reflexivity].
  apply writeAndFragments_order. exact H.
Qed.

Lemma writeOrderBys_order (b : SelectBuilder) (w : Writer) :
  singleKeys (orderBys b) = true ->
  writeOrderBys (withMapOrder order X) b w = writeOrderBys X b w.
Proof.
  intros H. unfold writeOrderBys.
  destruct (0 <? len (orderBys b)); [|reflexivity].
  apply writeCommaFragmentsToSQL_order. exact H.
Qed.

Lemma SelectBuilder_ToSQL_order (b : SelectBuilder) :
  SelectBuilder_singleKeys b = true ->
  SelectBuilder_ToSQL (withMapOrder order X) b = SelectBuilder_ToSQL X b.
Proof.
  unfold SelectBuilder_singleKeys. rewrite !andb_true_iff.
  intros [[[[Ht Hj] Hw] Hh] Ho].
  unfold SelectBuilder_ToSQL.
  destruct (sel_err b); [reflexivity|].
  destruct (len (columns b) =? 0); [reflexivity|].
  destruct ((len (tableFragments b) =? 0) && (0 <? len (joinFragments b))); [reflexivity|].
  change (applyScope (withMapOrder order X)) with (applyScope X).
  destruct (0 <? len (tableFragments b)).
  - unfold onBuffer. cbv beta iota zeta.
    rewrite !writeCommaFragmentsToSQL_order by exact Ht.
    rewrite !writeConcatFragmentsToSQL_order by exact Hj.
    match goal with
    | |- context [applyScope X ?sc ?from ?fs ?w] =>
        destruct (applyScope X sc from fs w) as [[fs' w']|e] eqn:E; [|reflexivity]
    end.
    rewrite writeWhere_order by (eapply applyScope_singleKeys; eassumption).
    rewrite writeHaving_order by exact Hh. rewrite writeOrderBys_order by exact Ho.
    reflexivity.
  - cbv beta iota zeta.
    match goal with
    | |- context [applyScope X ?sc ?from ?fs ?w] =>
        destruct (applyScope X sc from fs w) as [[fs' w']|e] eqn:E; [|reflexivity]
    end.
    rewrite writeWhere_order by (eapply applyScope_singleKeys; eassumption).
    rewrite writeHaving_order by exact Hh. rewrite writeOrderBys_order by exact Ho.
    reflexivity.
Qed.

Lemma writeDocBody_order (b : SelectDocBuilder) (w : Writer) :
  SelectDocBuilder_singleKeys b = true ->
  writeDocBody (withMapOrder order X) b w = writeDocBody X b w.
Proof.
  unfold SelectDocBuilder_singleKeys, SelectBuilder_singleKeys. rewrite !andb_true_iff.
  intros [[[[Ht Hj] Hw] Hh] Ho].
  unfold writeDocBody.
  destruct (innerSQL b); [reflexivity|].
  change (applyScope (withMapOrder order X)) with (applyScope X).
  destruct (0 <? len (tableFragments (inner b))).
  - unfold onBuffer. cbv beta iota zeta.
    rewrite !writeCommaFragmentsToSQL_order by exact Ht.
    rewrite !writeConcatFragmentsToSQL_order by exact Hj.
    match goal with
    | |- context [applyScope X ?sc ?from ?fs ?w] =>
        destruct (applyScope X sc from fs w) as [[fs' w']|e] eqn:E; [|reflexivity]
    end.
    rewrite writeWhere_order by (eapply applyScope_singleKeys; eassumption).
    rewrite writeHaving_order by exact Hh. rewrite writeOrderBys_order by exact Ho.
    reflexivity.
  - cbv beta iota zeta.
    match goal with
    | |- context [applyScope X ?sc ?from ?fs ?w] =>
        destruct (applyScope X sc from fs w) as [[fs' w']|e] eqn:E; [|reflexivity]
    end.
    rewrite writeWhere_order by (eapply applyScope_singleKeys; eassumption).
    rewrite writeHaving_order by exact Hh. rewrite writeOrderBys_order by exact Ho.
    reflexivity.
Qed.

Lemma SelectDocBuilder_ToSQL_order (b : SelectDocBuilder) :
  SelectDocBuilder_singleKeys b = true ->
  SelectDocBuilder_ToSQL (withMapOrder order X) b = SelectDocBuilder_ToSQL X b.
Proof.
  intros H. unfold SelectDocBuilder_ToSQL.
  destruct (doc_err b); [reflexivity|]. cbv zeta.
  repeat match goal with
         | |- (if ?c then _ else _) = _ => destruct c; [reflexivity|]
         end.
  destruct (writeWiths 0 (subQueriesWith b) (mkWriter "" [] 1)) as [w|]; [|reflexivity].
  rewrite writeDocBody_order by exact H. reflexivity.
Qed.

Lemma InsertBuilder_ToSQL_order (b : InsertBuilder) :
  InsertBuilder_singleKeys b = true ->
  InsertBuilder_ToSQL (withMapOrder order X) b = InsertBuilder_ToSQL X b.
Proof.
  unfold InsertBuilder_singleKeys. intros H. unfold InsertBuilder_ToSQL.
  destruct (err b); [reflexivity|]. cbv zeta.
  repeat match goal with
         | |- (if ?c then _ else _) = _ => destruct c; [reflexivity|]
         end.
  destruct (resolveColumns b) as [columns|]; [|reflexivity].
  change (writeValues (withMapOrder order X)) with (writeValues X).
  destruct (writeValues X b columns) as [w|e]; [|reflexivity].
  unfold writeOnConflict. destruct (hasOneConflictTarget _); [|reflexivity].
  unfold writeConflictAction.
  destruct (negb (String.eqb (action (onConflictAction b)) updateAction)); [reflexivity|].
  cbv zeta. destruct (0 <? len (whereFragments (onConflictAction b))); [|reflexivity].
  unfold writeAndFragmentsToSQL. rewrite writeAndFragments_order by exact H. reflexivity.
Qed.

End MapOrder.




(** ** The package's tests, replayed

    The assertions of the tests that are among the sources, on the
    embedding: they fix what the helpers modelled from the specification
    write. *)

Example TestInsertToSql :
  InsertBuilder_ToSQL testExternals
    (InsertInto "a" |> InsertBuilder_Columns ["b"; "c"] |> InsertBuilder_Values [VInt 1; VInt 2])
  = Some ("INSERT INTO a (b,c) VALUES ($1,$2)", [VInt 1; VInt 2], None)
  /\ InsertBuilder_ToSQL testExternals
       (InsertInto "a" |> InsertBuilder_Columns ["b"; "c"]
        |> InsertBuilder_Values [VInt 1; VInt 2] |> InsertBuilder_Values [VInt 3; VInt 4])
     = Some ("INSERT INTO a (b,c) VALUES ($1,$2),($3,$4)",
             [VInt 1; VInt 2; VInt 3; VInt 4], None)
  /\ InsertBuilder_ToSQL testExternals
       (InsertInto "a" |> InsertBuilder_Columns ["something_id"; "user_id"; "other"]
        |> InsertBuilder_Record (someRecord 1 88 false)
        |> InsertBuilder_Record (someRecord 2 99 true))
     = Some ("INSERT INTO a (something_id,user_id,other) VALUES ($1,$2,$3),($4,$5,$6)",
             [VInt 1; VInt 88; VBool false; VInt 2; VInt 99; VBool true], None)
  /\ InsertBuilder_ToSQL testExternals
       (InsertInto "a" |> InsertBuilder_Whitelist ["*"]
        |> InsertBuilder_Record (someRecord 1 88 false)
        |> InsertBuilder_Record (someRecord 2 99 true))
     = Some ("INSERT INTO a (something_id,user_id,other) VALUES ($1,$2,$3),($4,$5,$6)",
             [VInt 1; VInt 88; VBool false; VInt 2; VInt 99; VBool true], None)
  /\ InsertBuilder_ToSQL testExternals
       (InsertInto "a" |> InsertBuilder_Blacklist ["something_id"]
        |> InsertBuilder_Record (someRecord 1 88 false)
        |> InsertBuilder_Record (someRecord 2 99 true))
     = Some ("INSERT INTO a (user_id,other) VALUES ($1,$2),($3,$4)",
             [VInt 88; VBool false; VInt 99; VBool true], None)
  /\ (exists e, InsertBuilder_ToSQL testExternals
                  (InsertInto "a" |> InsertBuilder_Blacklist ["something_id"]
                   |> InsertBuilder_Values [VString "foo"])
                = Some ("", [], Some e)).
Proof. repeat split; try (vm_compute; reflexivity). eexists. vm_compute. reflexivity. Qed.

Example TestInsertOnConflict :
  InsertBuilder_ToSQL testExternals
    (InsertInto "a" |> InsertBuilder_Columns ["b"; "c"] |> InsertBuilder_Values [VInt 1; VInt 2]
     |> OnConflictConstraint "test_constraint")
  = Some ("INSERT INTO a (b,c) VALUES ($1,$2) ON CONFLICT ON CONSTRAINT test_constraint DO NOTHING",
          [VInt 1; VInt 2], None)
  /\ InsertBuilder_ToSQL testExternals
       (InsertInto "a" |> InsertBuilder_Columns ["b"; "c"] |> InsertBuilder_Values [VInt 1; VInt 2]
        |> OnConflictWhere "b" "b > 0")
     = Some ("INSERT INTO a (b,c) VALUES ($1,$2) ON CONFLICT (b) WHERE b > 0 DO NOTHING",
             [VInt 1; VInt 2], None)
  /\ InsertBuilder_ToSQL testExternals
       (InsertInto "a" |> InsertBuilder_Columns ["b"; "c"] |> InsertBuilder_Values [VInt 1; VInt 2]
        |> OnConflictColumn "b" |> InsertBuilder_Set "b" (VInt 50) |> InsertBuilder_Set "c" (VInt 100))
     = Some ("INSERT INTO a (b,c) VALUES ($1,$2) ON CONFLICT (b) DO UPDATE SET b = $3, c = $4",
             [VInt 1; VInt 2; VInt 50; VInt 100], None)
  /\ InsertBuilder_ToSQL testExternals
       (InsertInto "a" |> InsertBuilder_Columns ["b"; "c"] |> InsertBuilder_Values [VInt 1; VInt 2]
        |> OnConflictColumn "b" |> InsertBuilder_Set "b" (VString "EXCLUDED.b")
        |> InsertBuilder_Set "c" (VInt 50))
     = Some ("INSERT INTO a (b,c) VALUES ($1,$2) ON CONFLICT (b) DO UPDATE SET b = EXCLUDED.b, c = $3",
             [VInt 1; VInt 2; VInt 50], None)
  /\ InsertBuilder_ToSQL testExternals
       (InsertInto "a" |> InsertBuilder_Columns ["b"; "c"] |> InsertBuilder_Values [VInt 1; VInt 2]
        |> OnConflictColumn "b" |> InsertBuilder_Set "b" (VString "EXCLUDED.b")
        |> InsertBuilder_Where (PString "a.b = $1") [VInt 10])
     = Some ("INSERT INTO a (b,c) VALUES ($1,$2) ON CONFLICT (b) DO UPDATE SET b = EXCLUDED.b WHERE (a.b = $3)",
             [VInt 1; VInt 2; VInt 10], None).
Proof. repeat split; vm_compute; reflexivity. Qed.

Example TestSelectToSql :
  SelectBuilder_ToSQL testExternals
    (NewSelectBuilder ["a"; "b"] |> SelectBuilder_From "c" []
     |> SelectBuilder_Where (PString "id = $1") [VInt 1])
  = ("SELECT a, b FROM c WHERE (id = $1)", [VInt 1], None)
  /\ SelectBuilder_ToSQL testExternals
       (NewSelectBuilder ["a"; "b"] |> SelectBuilder_Distinct |> SelectBuilder_From "c" []
        |> SelectBuilder_Where (PString "d = $1 OR e = $2") [VInt 1; VString "wat"]
        |> SelectBuilder_Where (PMap [("f", VInt 2)]) []
        |> SelectBuilder_Where (PMap [("g", VInt 3)]) []
        |> SelectBuilder_Where (PMap [("h", VSlice (Some [VInt 4; VInt 5; VInt 6]))]) []
        |> SelectBuilder_GroupBy "i" |> SelectBuilder_Having (PString "j = k") []
        |> SelectBuilder_OrderBy (PString "l") [] |> SelectBuilder_Limit 7 |> SelectBuilder_Offset 8)
     = ("SELECT DISTINCT a, b FROM c WHERE (d = $1 OR e = $2) AND (f = $3) AND (g = $4) AND (h IN $5) GROUP BY i HAVING (j = k) ORDER BY l LIMIT 7 OFFSET 8",
        [VInt 1; VString "wat"; VInt 2; VInt 3; VSlice (Some [VInt 4; VInt 5; VInt 6])], None)
  /\ SelectBuilder_ToSQL testExternals
       (NewSelectBuilder ["a"; "b"] |> SelectBuilder_From "c" []
        |> SelectBuilder_Where (PString "d = $1") [VInt 1]
        |> SelectBuilder_Paginate 3 30 |> SelectBuilder_OrderBy (PString "id") [])
     = ("SELECT a, b FROM c WHERE (d = $1) ORDER BY id LIMIT 30 OFFSET 60", [VInt 1], None)
  /\ SelectBuilder_ToSQL testExternals
       (NewSelectBuilder ["a"; "b"] |> SelectBuilder_From "c" []
        |> SelectBuilder_Where (PString "p = $1") [VInt 1] |> SelectBuilder_GroupBy "z"
        |> SelectBuilder_Having (PString "z = $1") [VInt 2]
        |> SelectBuilder_Having (PString "y = $1") [VInt 3])
     = ("SELECT a, b FROM c WHERE (p = $1) GROUP BY z HAVING (z = $2) AND (y = $3)",
        [VInt 1; VInt 2; VInt 3], None)
  /\ SelectBuilder_ToSQL testExternals
       (NewSelectBuilder ["a"; "b"] |> SelectBuilder_From "c" []
        |> SelectBuilder_OrderBy (PString "name ASC") []
        |> SelectBuilder_OrderBy (PString "id DESC") [])
     = ("SELECT a, b FROM c ORDER BY name ASC, id DESC", [], None)
  /\ SelectBuilder_ToSQL testExternals
       (NewSelectBuilder ["a"] |> SelectBuilder_From "b" []
        |> SelectBuilder_Where (PExpression (Expr "id=$1" [VInt 100])) [])
     = ("SELECT a FROM b WHERE (id=$1)", [VInt 100], None).
Proof. repeat split; vm_compute; reflexivity. Qed.

Example TestSelectWhereMapSql :
  let whereMap m := SelectBuilder_ToSQL testExternals
                      (NewSelectBuilder ["a"] |> SelectBuilder_From "b" []
                       |> SelectBuilder_Where (PMap m) []) in
  whereMap [("a", VInt 1)] = ("SELECT a FROM b WHERE (a = $1)", [VInt 1], None)
  /\ whereMap [("a", VInt 1); ("b", VBool true)]
     = ("SELECT a FROM b WHERE (a = $1) AND (b = $2)", [VInt 1; VBool true], None)
  /\ SelectBuilder_ToSQL (withMapOrder backwards testExternals)
       (NewSelectBuilder ["a"] |> SelectBuilder_From "b" []
        |> SelectBuilder_Where (PMap [("a", VInt 1); ("b", VBool true)]) [])
     = ("SELECT a FROM b WHERE (b = $1) AND (a = $2)", [VBool true; VInt 1], None)
  /\ whereMap [("a", VNil)] = ("SELECT a FROM b WHERE (a IS NULL)", [], None)
  /\ whereMap [("a", VSlice (Some [VInt 1; VInt 2; VInt 3]))]
     = ("SELECT a FROM b WHERE (a IN $1)", [VSlice (Some [VInt 1; VInt 2; VInt 3])], None)
  /\ whereMap [("a", VSlice (Some [VInt 1]))]
     = ("SELECT a FROM b WHERE (a = $1)", [VInt 1], None)
  /\ whereMap [("a", VSlice (Some []))] = ("SELECT a FROM b WHERE (1=0)", [], None)
  /\ whereMap [("a", VSlice None)] = ("SELECT a FROM b WHERE (a IS NULL)", [], None)
  /\ SelectBuilder_ToSQL testExternals
       (NewSelectBuilder ["a"] |> SelectBuilder_From "b" []
        |> SelectBuilder_Where (PMap [("a", VSlice None)]) []
        |> SelectBuilder_Where (PMap [("b", VBool false)]) [])
     = ("SELECT a FROM b WHERE (a IS NULL) AND (b = $1)", [VBool false], None).
Proof. cbv zeta. repeat split; vm_compute; reflexivity. Qed.

Example TestSelectDocSQL :
  option_map (fun r => (stripWS (fst (fst r)), snd (fst r), snd r))
    (SelectDocBuilder_ToSQL testExternals
       (NewSelectDocBuilder ["b"; "c"] |> SelectDocBuilder_From "a" []
        |> SelectDocBuilder_Where (PString "d=$1") [VInt 4]))
  = Some ("SELECTrow_to_json(dat__item.*)FROM(SELECTb,cFROMaWHERE(d=$1))asdat__item",
          [VInt 4], None)
  /\ (exists h',
        SelectDocBuilder_One testExternals 1 "user" (ArgDoc 0) [] nested_heap = Some h'
        /\ option_map (fun r => snd (fst r))
             (match nth_error h' 1 with
              | Some games => SelectDocBuilder_ToSQL testExternals games
              | None => None
              end)
           = Some [VInt 1; VInt 10])
  /\ option_map (fun r => snd (fst r))
       (match SelectDocBuilder_Whitelist ["f*"; "x"] doc_whitelist with
        | Some b => SelectDocBuilder_ToSQL testExternals
                      (b |> SelectDocBuilder_Where (PString "d=$1") [VInt 4])
        | None => None
        end)
     = Some [VInt 4; VInt 4].
Proof.
  split; [vm_compute; reflexivity|]. split; [|vm_compute; reflexivity].
  eexists. split; [vm_compute; reflexivity | vm_compute; reflexivity].
Qed.

(** A second Whitelist call, on a builder that has a pruned slot, reads the
    alias through the nil slot. *)
Example Whitelist_twice_panics :
  match SelectDocBuilder_Whitelist ["f*"; "x"] doc_whitelist with
  | Some b => SelectDocBuilder_Whitelist ["f*"; "x"] b = None
  | None => False
  end.
Proof. vm_compute. reflexivity. Qed.

(** * Further properties of the builders *)

(** ** InsertBuilder *)

Lemma pairs_row (ps : list (string * Value)) :
  forall b row,
    vals b = [row] ->
    pairs ps b
    = mkInsertBuilder (table b) (cols b ++ map fst ps) (isBlacklist b) [(row ++ map snd ps)%list]
        (records b) (onConflictTarget b) (onConflictAction b) (returnings b) (err b).
Proof.
  induction ps as [|[c v] ps IH]; intros b row Hv.
  - destruct b. simpl in *. subst. now rewrite !app_nil_r.
  - change (pairs ((c, v) :: ps) b) with (pairs ps (InsertBuilder_Pair c v b)).
    rewrite (IH _ (row ++ [v])%list).
    + unfold InsertBuilder_Pair, InsertBuilder_Whitelist. simpl. rewrite Hv. simpl.
      now rewrite <- !app_assoc.
    + unfold InsertBuilder_Pair, InsertBuilder_Whitelist. simpl. rewrite Hv. reflexivity.
Qed.

(** X1.  Pair called for every pair of a non-empty list on a new builder
    gives the one-row statement of those columns and values, in the order
    of the calls, provided the first column is not the star.  On a builder
    that holds two rows or more, Pair still appends the column but records
    its error, whatever error was recorded, and ToSQL returns it. *)
Theorem X1_Pair_row (X : Externals) (tableName : string) (b0 : InsertBuilder) :
  NewInsertBuilder tableName = Some b0 ->
  (forall p ps,
      fst p <> "*" ->
      InsertBuilder_ToSQL X (pairs (p :: ps) b0)
      = Some ("INSERT INTO " ++ tableName ++ " ("
              ++ String.concat "," (map (fun q => writeIdentifier X (fst q)) (p :: ps))
              ++ ") VALUES " ++ buildPlaceholders 1 (List.length (p :: ps)),
              map snd (p :: ps), None))
  /\ (forall b c v row1 row2 rows,
        vals b = row1 :: row2 :: rows ->
        cols (InsertBuilder_Pair c v b) = (cols b ++ [c])%list
        /\ vals (InsertBuilder_Pair c v b) = vals b
        /\ InsertBuilder_ToSQL X (InsertBuilder_Pair c v b)
           = Some ("", [], Some (NewError "pair only allows you to specify 1 record to insert"))).
Proof.
  unfold NewInsertBuilder. destruct (String.eqb tableName "") eqn:Et; [discriminate|].
  intros E. inversion E; subst b0. clear E. split.
  - intros p ps Hstar.
    change (pairs (p :: ps) ?b) with (pairs ps (InsertBuilder_Pair (fst p) (snd p) b)).
    rewrite (pairs_row ps _ [snd p]) by reflexivity.
    unfold InsertBuilder_ToSQL, resolveColumns, writeValues, writeColumns, writeRows,
      writeOnConflict, writeReturnings.
    cbn [err table cols vals records isBlacklist onConflictTarget onConflictAction returnings
         InsertBuilder_Pair InsertBuilder_Whitelist List.app hd].
    rewrite strlen_zero, Et, !len_zero.
    destruct (String.eqb (fst p) "*") eqn:Es; [apply String.eqb_eq in Es; contradiction|].
    cbn [andb]. rewrite forRange_joined, writeRows_from.
    cbn [writeRecords hasOneConflictTarget column constraint strlen String.length Z.of_nat
         Z.eqb negb andb orb forRange buf args pos WriteString map groups List.concat List.app].
    rewrite map_map, app_nil_r. text_norm. rewrite length_map. reflexivity.
  - intros b c v row1 row2 rows Hv. unfold InsertBuilder_Pair.
    cbn [InsertBuilder_Whitelist vals]. rewrite Hv.
    split; [reflexivity|]. split; [cbn [setErr vals]; exact Hv | reflexivity].
Qed.

Lemma X1_Pair_row_witness :
  InsertBuilder_ToSQL testExternals (pairs [("b", VInt 1); ("c", VInt 2)] (InsertInto "a"))
  = Some ("INSERT INTO a (b,c) VALUES ($1,$2)", [VInt 1; VInt 2], None).
Proof.
  exact (proj1 (X1_Pair_row testExternals "a" (InsertInto "a") eq_refl)
           ("b", VInt 1) [("c", VInt 2)] ltac:(discriminate)).
Defined.

Lemma hasOne_both (t : onConflictTargetType) :
  column t <> "" -> constraint t <> "" -> hasOneConflictTarget (Some t) = false.
Proof.
  intros Hc Hk. rewrite hasOneConflictTarget_exactlyOne. unfold exactlyOneTarget.
  destruct (String.eqb (column t) "") eqn:E1; [apply String.eqb_eq in E1; contradiction|].
  destruct (String.eqb (constraint t) "") eqn:E2; [apply String.eqb_eq in E2; contradiction|].
  reflexivity.
Qed.

Lemma InsertBuilder_ToSQL_untargeted (X : Externals) (b : InsertBuilder) :
  hasOneConflictTarget (Some (onConflictTarget b)) = false ->
  InsertBuilder_ToSQL X b = InsertBuilder_ToSQL X (setTarget noTarget b).
Proof.
  intros H. unfold InsertBuilder_ToSQL, resolveColumns, writeValues, writeOnConflict.
  cbn [setTarget err table cols vals records isBlacklist onConflictTarget onConflictAction
       returnings].
  rewrite H. reflexivity.
Qed.

(** X2.  A builder given both a column and a constraint as conflict
    target, in either order, has no single target: ToSQL writes the
    statement of the builder without any target, so no ON CONFLICT clause,
    and Set records the missing-target error unless an error is recorded
    already. *)
Theorem X2_two_conflict_targets (X : Externals) (b : InsertBuilder) (c k : string) :
  c <> "" -> k <> "" ->
  InsertBuilder_ToSQL X (OnConflictConstraint k (OnConflictColumn c b))
  = InsertBuilder_ToSQL X (setTarget noTarget b)
  /\ InsertBuilder_ToSQL X (OnConflictColumn c (OnConflictConstraint k b))
     = InsertBuilder_ToSQL X (setTarget noTarget b)
  /\ (forall predicate,
        InsertBuilder_ToSQL X (OnConflictWhere c predicate (OnConflictConstraint k b))
        = InsertBuilder_ToSQL X (setTarget noTarget b))
  /\ (forall col v,
        InsertBuilder_Set col v (OnConflictConstraint k (OnConflictColumn c b))
        = setErr (Some match err b with
                       | Some e => e
                       | None => NewError "A conflict_target must be provided for ON CONFLICT DO UPDATE"
                       end)
            (OnConflictConstraint k (OnConflictColumn c b))).
Proof.
  intros Hc Hk.
  split; [|split; [|split]].
  - rewrite InsertBuilder_ToSQL_untargeted by (apply hasOne_both; assumption). reflexivity.
  - rewrite InsertBuilder_ToSQL_untargeted by (apply hasOne_both; assumption). reflexivity.
  - intros predicate.
    rewrite InsertBuilder_ToSQL_untargeted by (apply hasOne_both; assumption). reflexivity.
  - intros col v. unfold InsertBuilder_Set.
    rewrite hasOne_both by assumption. cbn [negb].
    destruct b as [t cs bl vs rs tg ac rt [e|]]; reflexivity.
Qed.

Lemma X2_two_conflict_targets_witness :
  InsertBuilder_ToSQL testExternals
    (OnConflictConstraint "a_pkey" (OnConflictColumn "b" insert_do_nothing))
  = InsertBuilder_ToSQL testExternals (setTarget noTarget insert_do_nothing).
Proof.
  exact (proj1 (X2_two_conflict_targets testExternals insert_do_nothing "b" "a_pkey"
                  ltac:(discriminate) ltac:(discriminate))).
Defined.

Lemma Set_isBlacklist (c : string) (v : Value) (b : InsertBuilder) :
  isBlacklist (InsertBuilder_Set c v b) = isBlacklist b.
Proof.
  unfold InsertBuilder_Set.
  destruct (negb (hasOneConflictTarget (Some (onConflictTarget b)))); [|reflexivity].
  destruct (err b); reflexivity.
Qed.

Lemma SetMap_isBlacklist (m : EqMap) :
  forall b, isBlacklist (InsertBuilder_SetMap m b) = isBlacklist b.
Proof.
  unfold InsertBuilder_SetMap. induction m as [|[k v] m IH]; intros b; [reflexivity|].
  simpl. rewrite IH. apply Set_isBlacklist.
Qed.

Lemma applyInsertCall_isBlacklist (call : InsertCall) (b : InsertBuilder) :
  isBlacklist b = true -> isBlacklist (applyInsertCall b call) = true.
Proof.
  intros H. destruct call; simpl; try exact H; try reflexivity.
  - now rewrite Set_isBlacklist.
  - now rewrite SetMap_isBlacklist.
  - unfold InsertBuilder_Where.
    destruct (negb _); [destruct (err b); exact H|].
    destruct (newWhereFragment p a); exact H.
  - unfold InsertBuilder_Pair. cbn [InsertBuilder_Whitelist vals].
    destruct (vals b) as [|row [|row' rest]]; exact H.
Qed.

Lemma ToSQL_blacklist_no_records (X : Externals) (b : InsertBuilder) :
  isBlacklist b = true -> records b = [] ->
  exists e, InsertBuilder_ToSQL X b = Some ("", [], Some e).
Proof.
  intros Hb Hr. unfold InsertBuilder_ToSQL. rewrite Hb, Hr.
  destruct (err b); [eexists; reflexivity|].
  destruct (strlen (table b) =? 0); [eexists; reflexivity|].
  destruct (len (cols b) =? 0); [eexists; reflexivity|].
  destruct ((len (vals b) =? 0) && (len (@nil GoRecord) =? 0)); [eexists; reflexivity|].
  destruct ((len (@nil GoRecord) =? 0) && String.eqb (hd "" (cols b)) "*");
    eexists; reflexivity.
Qed.

(** X3.  No call clears the blacklist flag: once Blacklist was called, the
    columns given by any later Columns or Whitelist call are still taken as
    a blacklist, and as long as the builder holds no record ToSQL returns
    an error. *)
Theorem X3_blacklist_stays (X : Externals) (calls : list InsertCall) (b : InsertBuilder) :
  isBlacklist b = true ->
  isBlacklist (fold_left applyInsertCall calls b) = true
  /\ (records (fold_left applyInsertCall calls b) = [] ->
      exists e, InsertBuilder_ToSQL X (fold_left applyInsertCall calls b) = Some ("", [], Some e)).
Proof.
  intros H.
  assert (Hs : isBlacklist (fold_left applyInsertCall calls b) = true).
  { revert b H. induction calls as [|call calls IH]; intros b H; [exact H|].
    simpl. apply IH. apply applyInsertCall_isBlacklist. exact H. }
  split; [exact Hs|]. intros Hr. apply ToSQL_blacklist_no_records; assumption.
Qed.

Lemma X3_blacklist_stays_witness :
  exists e,
    InsertBuilder_ToSQL testExternals
      (fold_left applyInsertCall [CallColumns ["b"; "c"]; CallValues [VInt 1; VInt 2]]
         (InsertBuilder_Blacklist ["id"] (InsertInto "a")))
    = Some ("", [], Some e).
Proof.
  exact (proj2 (X3_blacklist_stays testExternals
                  [CallColumns ["b"; "c"]; CallValues [VInt 1; VInt 2]]
                  (InsertBuilder_Blacklist ["id"] (InsertInto "a")) eq_refl) eq_refl).
Defined.

(** X4.  InsertBuilder.ToSQL returns an error with empty text and no
    argument, or no error and a statement: then no error was recorded, the
    table and the column list are not empty, there is a row or a record,
    and the text starts with INSERT INTO, the table and the opening
    parenthesis of the column list.  A record that cannot be mapped gives
    the first, whatever was written before it. *)
Theorem X4_error_or_statement (X : Externals) (b : InsertBuilder)
  (sql : string) (a : list Value) (e : option error) :
  InsertBuilder_ToSQL X b = Some (sql, a, e) ->
  match e with
  | Some _ => sql = "" /\ a = []
  | None =>
      err b = None /\ table b <> "" /\ cols b <> []
      /\ (vals b <> [] \/ records b <> [])
      /\ exists rest, sql = "INSERT INTO " ++ table b ++ " (" ++ rest
  end.
Proof.
  intros H. destruct e as [e|].
  - unfold InsertBuilder_ToSQL in H.
    repeat match type of H with
           | match ?c with _ => _ end = _ => destruct c; try (inversion H; subst; auto; fail)
           | (if ?c then _ else _) = _ => destruct c; try (inversion H; subst; auto; fail)
           end.
  - pose proof H as H0. apply InsertBuilder_ToSQL_ok in H0.
    destruct H0 as (columns & w & Herr & Hcols & Hw & Hsql & Ha).
    unfold InsertBuilder_ToSQL in H. rewrite Herr in H.
    rewrite strlen_zero, !len_zero in H.
    destruct (String.eqb (table b) "") eqn:Et; [discriminate|].
    destruct (cols b) as [|c0 cs] eqn:Ec; [discriminate|].
    split; [exact Herr|]. split; [intros E; rewrite E in Et; discriminate|].
    split; [discriminate|]. split.
    + destruct (vals b); [|left; discriminate].
      destruct (records b); [simpl in H; discriminate | right; discriminate].
    + apply writeValues_ok in Hw. destruct Hw as (recVals & _ & ->).
      rewrite (framed_writeOnConflict X b) in Hsql. simpl in Hsql.
      rewrite !append_assoc in Hsql. eexists. exact Hsql.
Qed.

Lemma X4_error_or_statement_witness :
  err insert_do_nothing = None /\ table insert_do_nothing <> "" /\ cols insert_do_nothing <> []
  /\ (vals insert_do_nothing <> [] \/ records insert_do_nothing <> [])
  /\ exists rest,
       "INSERT INTO a (b,c) VALUES ($1,$2) ON CONFLICT (b) DO NOTHING"
       = "INSERT INTO " ++ table insert_do_nothing ++ " (" ++ rest.
Proof.
  exact (X4_error_or_statement testExternals insert_do_nothing
           "INSERT INTO a (b,c) VALUES ($1,$2) ON CONFLICT (b) DO NOTHING"
           [VInt 1; VInt 2] None ltac:(vm_compute; reflexivity)).
Defined.

Lemma filter_none {A : Type} (f : A -> bool) (l : list A) :
  (forall x, In x l -> f x = false) -> filter f l = [].
Proof.
  induction l as [|x l IH]; intros H; [reflexivity|].
  simpl. rewrite (H x) by (now left). apply IH. intros y Hy. apply H. now right.
Qed.

(** X5.  InsertBuilder.ToSQL panics, on the index of the resolved column
    list, exactly when no error is recorded, the table and the columns are
    given, the columns are a blacklist and the blacklist leaves no column
    of the first record.  A blacklist of all the fields of a record is
    such a case. *)
Theorem X5_blacklist_panic (X : Externals) (b : InsertBuilder) :
  (InsertBuilder_ToSQL X b = None
   <-> err b = None /\ table b <> "" /\ cols b <> [] /\ isBlacklist b = true
       /\ exists rec0 recs, records b = rec0 :: recs
                            /\ reflectExcludeColumns rec0 (cols b) = [])
  /\ (forall tableName rec,
        tableName <> "" -> rec <> [] ->
        InsertBuilder_ToSQL X
          (InsertBuilder_Record rec (InsertBuilder_Blacklist (map fst rec) (InsertInto tableName)))
        = None).
Proof.
  assert (Hiff : InsertBuilder_ToSQL X b = None
   <-> err b = None /\ table b <> "" /\ cols b <> [] /\ isBlacklist b = true
       /\ exists rec0 recs, records b = rec0 :: recs
                            /\ reflectExcludeColumns rec0 (cols b) = []).
  { unfold InsertBuilder_ToSQL, resolveColumns. rewrite strlen_zero, !len_zero. split.
    - intros H.
      destruct (err b); [discriminate|].
      destruct (String.eqb (table b) "") eqn:Et; [discriminate|].
      destruct (cols b) as [|c0 cs] eqn:Ec; [discriminate|].
      destruct (records b) as [|rec0 recs] eqn:Er.
      + destruct (vals b); simpl in H; [discriminate|].
        destruct (String.eqb c0 "*"); [discriminate|].
        destruct (isBlacklist b); [discriminate|].
        destruct (writeValues X b (c0 :: cs)); discriminate.
      + rewrite andb_false_r in H. cbn [andb] in H.
        destruct (isBlacklist b) eqn:Eb.
        * destruct (reflectExcludeColumns rec0 (c0 :: cs)) as [|c1 cs1] eqn:Ex.
          -- split; [reflexivity|]. split; [intros E; rewrite E in Et; discriminate|].
             split; [discriminate|]. split; [reflexivity|].
             exists rec0, recs. split; [reflexivity | exact Ex].
          -- destruct (writeValues X b _); discriminate.
        * destruct (writeValues X b _); discriminate.
    - intros (He & Ht & Hc & Hb & rec0 & recs & Hr & Hx).
      rewrite He, Hr, Hb, Hx.
      destruct (String.eqb (table b) "") eqn:Et; [apply String.eqb_eq in Et; contradiction|].
      destruct (cols b); [contradiction|].
      rewrite andb_false_r. reflexivity. }
  split; [exact Hiff|].
  intros tableName rec Ht Hrec.
  unfold InsertBuilder_ToSQL, resolveColumns.
  cbn [InsertInto InsertBuilder_Record InsertBuilder_Blacklist err table cols isBlacklist
       vals records List.app].
  rewrite strlen_zero, !len_zero.
  destruct (String.eqb tableName "") eqn:Et; [apply String.eqb_eq in Et; contradiction|].
  destruct rec as [|[tag0 v0] rec]; [contradiction|].
  cbn [map fst andb len].
  set (cs := tag0 :: map fst rec).
  assert (Hx : reflectExcludeColumns ((tag0, v0) :: rec) cs = []).
  { unfold reflectExcludeColumns, reflectColumns.
    change (map fst ((tag0, v0) :: rec)) with cs.
    apply filter_none. intros c Hin.
    apply negb_false_iff. apply existsb_exists. exists c. split; [exact Hin|].
    apply String.eqb_refl. }
  rewrite Hx. reflexivity.
Qed.

Lemma X5_blacklist_panic_witness :
  InsertBuilder_ToSQL testExternals
    (InsertBuilder_Record (someRecord 1 88 false)
       (InsertBuilder_Blacklist (map fst (someRecord 1 88 false)) (InsertInto "a")))
  = None.
Proof.
  exact (proj2 (X5_blacklist_panic testExternals (InsertInto "a")) "a" (someRecord 1 88 false)
           ltac:(discriminate) ltac:(discriminate)).
Defined.

(** ** SelectBuilder *)

Section Bound.

Variable X : Externals.

Lemma writeEqualityEntry_bound (c : string) (v : Value) (w : Writer) :
  args (writeEqualityEntry X c v w) = (args w ++ entryArgs v)%list.
Proof.
  unfold writeEqualityEntry, writeBound.
  destruct v as [| | | |[[|x [|y l]]|]|]; simpl; rewrite ?app_nil_r; reflexivity.
Qed.

Lemma writeEqualityEntries_bound (m : EqMap) :
  forall anyC w,
    args (snd (writeEqualityEntries X m anyC w))
    = (args w ++ flat_map (fun kv => entryArgs (snd kv)) m)%list.
Proof.
  induction m as [|[k v] m IH]; intros anyC w; simpl.
  - now rewrite app_nil_r.
  - rewrite IH. cbn [WriteString args]. rewrite writeEqualityEntry_bound.
    cbn [WriteString args]. now rewrite <- app_assoc.
Qed.

Lemma writeAndFragments_bound (fs : list whereFragment) :
  forall anyC w,
    args (writeAndFragments X fs anyC w) = (args w ++ flat_map (fragmentArgs X) fs)%list.
Proof.
  induction fs as [|[sql values|m] fs IH]; intros anyC w; cbn [writeAndFragments flat_map].
  - now rewrite app_nil_r.
  - rewrite IH. cbn [WriteString WriteRelativeArgs args Args fragmentArgs].
    now rewrite <- app_assoc.
  - pose proof (writeEqualityEntries_bound (rangeMap X m) anyC w) as Hm.
    unfold writeEqualityMapToSQL.
    destruct (writeEqualityEntries X (rangeMap X m) anyC w) as [any' w']. simpl in Hm.
    rewrite IH, Hm. cbn [fragmentArgs]. now rewrite <- app_assoc.
Qed.

Lemma writeFragment_bound (sep : string) (f : whereFragment) (w : Writer) :
  args (writeFragment X sep f w) = (args w ++ fragmentArgs X f)%list.
Proof.
  destruct f as [sql values|m]; [reflexivity|].
  unfold writeFragment, fragmentArgs. generalize (rangeMap X m) as entries.
  intros entries.
  enough (Hi : forall i w,
             args (forRange (fun i kv w =>
                               writeEqualityEntry X (fst kv) (snd kv)
                                 (if (0 <? i)%nat then WriteString sep w else w)) i entries w)
             = (args w ++ flat_map (fun kv => entryArgs (snd kv)) entries)%list) by apply Hi.
  induction entries as [|[k v] entries IH]; intros i w'; simpl.
  - now rewrite app_nil_r.
  - rewrite IH, writeEqualityEntry_bound.
    destruct (0 <? i)%nat; cbn [WriteString args]; now rewrite <- app_assoc.
Qed.

Lemma writeCommaFragmentsToSQL_bound (fs : list whereFragment) (w : Writer) :
  args (writeCommaFragmentsToSQL X fs w) = (args w ++ flat_map (fragmentArgs X) fs)%list.
Proof.
  unfold writeCommaFragmentsToSQL.
  enough (Hi : forall i w,
             args (forRange (fun i f w =>
                               writeFragment X ", " f
                                 (if (0 <? i)%nat then WriteString ", " w else w)) i fs w)
             = (args w ++ flat_map (fragmentArgs X) fs)%list) by apply Hi.
  induction fs as [|f fs IH]; intros i w'; simpl.
  - now rewrite app_nil_r.
  - rewrite IH, writeFragment_bound.
    destruct (0 <? i)%nat; cbn [WriteString args]; now rewrite <- app_assoc.
Qed.

Lemma writeConcatFragmentsToSQL_bound (fs : list whereFragment) (w : Writer) :
  args (writeConcatFragmentsToSQL X fs w) = (args w ++ flat_map (fragmentArgs X) fs)%list.
Proof.
  unfold writeConcatFragmentsToSQL. generalize 0%nat as i. revert w.
  induction fs as [|f fs IH]; intros w i; simpl.
  - now rewrite app_nil_r.
  - rewrite IH, writeFragment_bound. cbn [WriteString args]. now rewrite <- app_assoc.
Qed.

Lemma writeStrings_args (l : list string) (w : Writer) : args (writeStrings l w) = args w.
Proof. unfold writeStrings. now rewrite forRange_joined. Qed.

Lemma writeDistinct_args (b : SelectBuilder) (w : Writer) : args (writeDistinct b w) = args w.
Proof.
  unfold writeDistinct. destruct (isDistinct b); [|reflexivity].
  destruct (len (distinctColumns b) =? 0); [reflexivity|].
  cbn [WriteString args]. now rewrite writeStrings_args.
Qed.

Lemma writeGroupBys_args (b : SelectBuilder) (w : Writer) : args (writeGroupBys b w) = args w.
Proof.
  unfold writeGroupBys. destruct (0 <? len (groupBys b)); [|reflexivity].
  now rewrite writeStrings_args.
Qed.

Lemma writeLimitOffset_args (b : SelectBuilder) (w : Writer) :
  args (writeLimitOffset b w) = args w.
Proof.
  unfold writeLimitOffset. destruct (limitValid b), (offsetValid b); reflexivity.
Qed.

Lemma writeFors_args (b : SelectBuilder) (w : Writer) : args (writeFors b w) = args w.
Proof.
  unfold writeFors. destruct (0 <? len (fors b)); [|reflexivity].
  change (args w) with (args (WriteString " FOR" w)).
  generalize (WriteString " FOR" w). induction (fors b) as [|s l IH]; intros w'; simpl;
    [reflexivity | now rewrite IH].
Qed.

Lemma writeWhere_bound (fs : list whereFragment) (w : Writer) :
  args (writeWhere X fs w) = (args w ++ flat_map (fragmentArgs X) fs)%list.
Proof.
  unfold writeWhere, writeAndFragmentsToSQL. rewrite len_pos.
  destruct fs as [|f fs]; [simpl; now rewrite app_nil_r|].
  now rewrite writeAndFragments_bound.
Qed.

Lemma writeHaving_bound (b : SelectBuilder) (w : Writer) :
  args (writeHaving X b w) = (args w ++ flat_map (fragmentArgs X) (havingFragments b))%list.
Proof.
  unfold writeHaving, writeAndFragmentsToSQL. rewrite len_pos.
  destruct (havingFragments b) as [|f fs]; [simpl; now rewrite app_nil_r|].
  now rewrite writeAndFragments_bound.
Qed.

Lemma writeOrderBys_bound (b : SelectBuilder) (w : Writer) :
  args (writeOrderBys X b w) = (args w ++ flat_map (fragmentArgs X) (orderBys b))%list.
Proof.
  unfold writeOrderBys. rewrite len_pos.
  destruct (orderBys b) as [|f fs]; [simpl; now rewrite app_nil_r|].
  now rewrite writeCommaFragmentsToSQL_bound.
Qed.

Lemma applyScope_fragments (b : SelectBuilder) (from : string)
  (fs fs' : list whereFragment) (w w' : Writer) :
  applyScope X (scope b) from fs w = Ok (fs', w') ->
  fs' = (fs ++ scopeFragments X b from)%list /\ args w' = args w.
Proof.
  unfold applyScope, scopeFragments. destruct (scope b) as [sc|].
  - destruct (sc from) as [sql args2]. cbn [fst snd].
    destruct (splitWhere X sql) as [sql' whereText]. cbn [snd].
    destruct (String.eqb whereText ""); cbn [negb newWhereFragment];
      intros E; inversion E; subst; rewrite ?app_nil_r; split; reflexivity.
  - intros E. inversion E; subst. rewrite app_nil_r. split; reflexivity.
Qed.

End Bound.

(** X6.  The arguments SelectBuilder.ToSQL binds are those of the FROM
    targets, the joins, the WHERE predicates, the scope, the HAVING
    predicates and the ORDER BY entries, in this order, which is the order
    of the clauses in the statement and not the order of the calls.  A
    scope binds its arguments only when its text has a WHERE part. *)
Theorem X6_select_arguments (X : Externals) (b : SelectBuilder)
  (sql : string) (a : list Value) :
  SelectBuilder_ToSQL X b = (sql, a, None) ->
  exists from,
    a = flat_map (fragmentArgs X)
          (tableFragments b ++ joinFragments b ++ sel_whereFragments b
           ++ scopeFragments X b from ++ havingFragments b ++ orderBys b).
Proof.
  unfold SelectBuilder_ToSQL. intros H.
  destruct (sel_err b); [discriminate|].
  destruct (len (columns b) =? 0); [discriminate|].
  rewrite len_zero, len_pos in H.
  destruct (tableFragments b) as [|t ts] eqn:Et.
  - destruct (joinFragments b) as [|j js] eqn:Ej; [|discriminate].
    cbn [andb] in H. rewrite len_pos in H. cbv beta iota zeta in H.
    destruct (applyScope X (scope b) "" (sel_whereFragments b) _) as [[fs' w']|e] eqn:E;
      [|discriminate].
    apply applyScope_fragments in E. destruct E as [-> Hw'].
    inversion H; subst. exists "".
    rewrite writeFors_args, writeLimitOffset_args, writeOrderBys_bound, writeHaving_bound,
      writeGroupBys_args, writeWhere_bound, Hw', writeStrings_args, writeDistinct_args.
    simpl. rewrite !flat_map_app. now rewrite <- !app_assoc.
  - cbn [andb] in H. rewrite len_pos in H. unfold onBuffer in H. cbv beta iota zeta in H.
    match type of H with
    | context [applyScope X (scope b) ?from ?fs ?w] =>
        destruct (applyScope X (scope b) from fs w) as [[fs' w']|e] eqn:E; [|discriminate];
        exists from
    end.
    apply applyScope_fragments in E. destruct E as [-> Hw'].
    inversion H; subst.
    rewrite writeFors_args, writeLimitOffset_args, writeOrderBys_bound, writeHaving_bound,
      writeGroupBys_args, writeWhere_bound, Hw'.
    cbn [WriteString args]. rewrite writeConcatFragmentsToSQL_bound,
      writeCommaFragmentsToSQL_bound. cbn [args].
    rewrite writeStrings_args, writeDistinct_args. simpl args.
    rewrite !flat_map_app. cbn [List.app]. now rewrite <- !app_assoc.
Qed.

Lemma X6_select_arguments_witness :
  exists from,
    [VInt 1; VInt 2]
    = flat_map (fragmentArgs testExternals)
        (tableFragments select_having_then_where ++ joinFragments select_having_then_where
         ++ sel_whereFragments select_having_then_where
         ++ scopeFragments testExternals select_having_then_where from
         ++ havingFragments select_having_then_where ++ orderBys select_having_then_where).
Proof.
  exact (X6_select_arguments testExternals select_having_then_where
           "SELECT a FROM b WHERE (d = $1) HAVING (c = $2)" [VInt 1; VInt 2]
           ltac:(vm_compute; reflexivity)).
Defined.

(** X7.  Paginate sets the limit to perPage and the offset to
    (page - 1) * perPage in 64-bit unsigned arithmetic: the product when
    page is at least 1 and the product fits; for page 0, which the method
    does not refuse, 2^64 - perPage when perPage is at least 1.  Both are
    then written. *)
Theorem X7_Paginate (page perPage : Z) (b : SelectBuilder) (w : Writer) :
  0 <= page < 2 ^ 64 -> 0 <= perPage < 2 ^ 64 ->
  let b' := SelectBuilder_Paginate page perPage b in
  writeLimitOffset b' w
  = WriteString (" LIMIT " ++ itoa perPage ++ " OFFSET " ++ itoa (offsetCount b')) w
  /\ 0 <= offsetCount b' < 2 ^ 64
  /\ (1 <= page -> (page - 1) * perPage < 2 ^ 64 -> offsetCount b' = (page - 1) * perPage)
  /\ (page = 0 -> 1 <= perPage -> offsetCount b' = 2 ^ 64 - perPage)
  /\ (page = 0 -> perPage = 0 -> offsetCount b' = 0).
Proof.
  intros Hp Hq b'. subst b'.
  unfold SelectBuilder_Paginate, SelectBuilder_Offset, SelectBuilder_Limit, writeLimitOffset,
    writeUint64.
  cbn [limitValid offsetValid limitCount offsetCount].
  split; [|split; [|split; [|split]]].
  - destruct w as [bf a p]. unfold WriteString. cbn [buf args pos].
    now rewrite !append_assoc.
  - apply Z.mod_pos_bound. lia.
  - intros H1 H2. apply Z.mod_small. nia.
  - intros -> H1. replace ((0 - 1) * perPage) with (- perPage) by lia.
    rewrite Z.mod_opp_l_nz; [|lia|rewrite Z.mod_small; lia].
    rewrite Z.mod_small; lia.
  - intros -> ->. reflexivity.
Qed.

Lemma X7_Paginate_witness :
  offsetCount (SelectBuilder_Paginate 0 30 emptySelectBuilder) = 2 ^ 64 - 30.
Proof.
  exact (proj1 (proj2 (proj2 (proj2 (X7_Paginate 0 30 emptySelectBuilder (mkWriter "" [] 1)
                                       ltac:(lia) ltac:(lia)))))
               eq_refl ltac:(lia)).
Defined.


Lemma applySelectCall_keeps_error (call : SelectCall) (b : SelectBuilder) :
  sel_err b <> None -> sel_err (applySelectCall b call) <> None.
Proof.
  intros H. destruct call; simpl; try exact H.
  - unfold SelectBuilder_Columns. destruct (_ || _); simpl; [discriminate | exact H].
  - unfold SelectBuilder_Where. destruct (newWhereFragment p a); simpl; [exact H | discriminate].
  - unfold SelectBuilder_Having. destruct (newWhereFragment p a); simpl; [exact H | discriminate].
  - unfold SelectBuilder_OrderBy. destruct (newWhereFragment p a); simpl; [exact H | discriminate].
Qed.

(** X8.  No chaining call of a SelectBuilder clears a recorded error (a
    later failing call replaces it): once one is recorded, ToSQL after any
    calls returns an error, empty text and no argument.  A builder made
    with no column starts with one. *)
Theorem X8_select_error_stays (X : Externals) (calls : list SelectCall) (b : SelectBuilder) :
  sel_err b <> None ->
  exists e,
    sel_err (fold_left applySelectCall calls b) = Some e
    /\ SelectBuilder_ToSQL X (fold_left applySelectCall calls b) = ("", [], Some e).
Proof.
  intros H.
  assert (Hs : sel_err (fold_left applySelectCall calls b) <> None).
  { revert b H. induction calls as [|call calls IH]; intros b H; [exact H|].
    simpl. apply IH. apply applySelectCall_keeps_error. exact H. }
  destruct (sel_err (fold_left applySelectCall calls b)) as [e|] eqn:E; [|contradiction].
  exists e. split; [reflexivity|]. unfold SelectBuilder_ToSQL. rewrite E. reflexivity.
Qed.

Lemma X8_select_error_stays_witness :
  exists e,
    sel_err (fold_left applySelectCall [SCallFrom "b" []; SCallColumns ["a"]] (NewSelectBuilder []))
    = Some e
    /\ SelectBuilder_ToSQL testExternals
         (fold_left applySelectCall [SCallFrom "b" []; SCallColumns ["a"]] (NewSelectBuilder []))
       = ("", [], Some e).
Proof.
  exact (X8_select_error_stays testExternals [SCallFrom "b" []; SCallColumns ["a"]]
           (NewSelectBuilder []) ltac:(discriminate)).
Defined.


(** X9.  With no error recorded, ToSQL refuses a join without a FROM
    target, and only that, with its own error: SelectBuilder.ToSQL when
    there is a column, SelectDocBuilder.ToSQL when there is a column or a
    sub-query slot. *)
Theorem X9_join_needs_from (X : Externals) :
  (forall b : SelectBuilder,
      sel_err b = None ->
      (SelectBuilder_ToSQL X b
       = NewDatSQLError "joins may only be attached if a from target is specified"
       <-> columns b <> [] /\ tableFragments b = [] /\ joinFragments b <> []))
  /\ (forall b : SelectDocBuilder,
        doc_err b = None ->
        (SelectDocBuilder_ToSQL X b
         = Some (NewDatSQLError "joins may only be attached if a from target is specified")
         <-> (columns (inner b) <> [] \/ subQueriesMany b <> [] \/ subQueriesOne b <> []
              \/ subQueriesScalar b <> [] \/ subQueriesVector b <> [])
             /\ tableFragments (inner b) = [] /\ joinFragments (inner b) <> [])).
Proof.
  split.
  - intros b He. unfold SelectBuilder_ToSQL. rewrite He, !len_zero, len_pos.
    destruct (columns b) as [|c cs].
    + split; [discriminate | intros [H _]; contradiction].
    + destruct (tableFragments b) as [|t ts] eqn:Et.
      * destruct (joinFragments b) as [|j js] eqn:Ej; cbn [andb].
        -- split; [|intros (_ & _ & H); contradiction].
           rewrite len_pos. cbv beta iota zeta.
           destruct (applyScope_ok X (scope b) "" (sel_whereFragments b)
                       (writeStrings (c :: cs) (writeDistinct b (WriteString "SELECT " (mkWriter "" [] 1)))))
             as [[fs w] ->]. discriminate.
        -- split; [intros _; repeat split; discriminate | reflexivity].
      * cbn [andb]. split; [|intros (_ & H & _); discriminate].
        rewrite len_pos. unfold onBuffer. cbv beta iota zeta.
        match goal with
        | |- context [applyScope X ?sc ?from ?fs ?w] =>
            destruct (applyScope_ok X sc from fs w) as [[fs' w'] ->]
        end. discriminate.
  - intros b He. unfold SelectDocBuilder_ToSQL. rewrite He. cbv zeta.
    destruct (_ =? 0) eqn:Ez.
    + apply lens_zero in Ez. destruct Ez as (Hc & Hm & Ho & Hv & Hs).
      split; [discriminate|].
      intros [[H|[H|[H|[H|H]]]] _]; contradiction.
    + assert (Hsome : columns (inner b) <> [] \/ subQueriesMany b <> []
                      \/ subQueriesOne b <> [] \/ subQueriesScalar b <> []
                      \/ subQueriesVector b <> []).
      { destruct (columns (inner b)) eqn:Ec; [|left; discriminate].
        destruct (subQueriesMany b) eqn:Em; [|right; left; discriminate].
        destruct (subQueriesOne b) eqn:Eo; [|right; right; left; discriminate].
        destruct (subQueriesScalar b) eqn:Es; [|right; right; right; left; discriminate].
        destruct (subQueriesVector b) eqn:Ev; [|right; right; right; right; discriminate].
        exfalso. assert (Ht : (len (columns (inner b)) + len (subQueriesMany b)
                               + len (subQueriesOne b) + len (subQueriesScalar b)
                               + len (subQueriesVector b) =? 0) = true)
          by (apply lens_zero; repeat split; assumption).
        rewrite Ec, Em, Eo, Es, Ev in Ht. rewrite Ht in Ez. discriminate. }
      rewrite len_zero, len_pos.
      destruct (tableFragments (inner b)) as [|t ts] eqn:Et;
        [destruct (joinFragments (inner b)) as [|j js] eqn:Ej|]; cbn [andb].
      * split; [|intros (_ & _ & H); contradiction].
        destruct (writeWiths 0 (subQueriesWith b) (mkWriter "" [] 1)) as [w|]; [|discriminate].
        match goal with
        | |- context [writeDocBody X b ?w0] =>
            destruct (writeDocBody_ok X b w0) as [w1 ->]
        end.
        destruct (isParent b); discriminate.
      * split; [intros _; repeat split; [exact Hsome | discriminate] | reflexivity].
      * split; [|intros (_ & H & _); discriminate].
        destruct (writeWiths 0 (subQueriesWith b) (mkWriter "" [] 1)) as [w|]; [|discriminate].
        match goal with
        | |- context [writeDocBody X b ?w0] =>
            destruct (writeDocBody_ok X b w0) as [w1 ->]
        end.
        destruct (isParent b); discriminate.
Qed.

Lemma X9_join_needs_from_witness :
  SelectBuilder_ToSQL testExternals (SelectBuilder_Join "c ON c.id = b.id" [] (NewSelectBuilder ["a"]))
  = NewDatSQLError "joins may only be attached if a from target is specified".
Proof.
  apply (proj1 (X9_join_needs_from testExternals)); [reflexivity|].
  split; [discriminate|]. split; [reflexivity | discriminate].
Defined.

(** X10.  Two calls that write to different clauses of the statement, and
    do not both record an error, can be made in either order: the builder,
    and so the statement, is the same. *)
Theorem X10_calls_commute (c1 c2 : SelectCall) (b : SelectBuilder) :
  apart c1 c2 = true ->
  recordsError c1 && recordsError c2 = false ->
  applySelectCall (applySelectCall b c1) c2 = applySelectCall (applySelectCall b c2) c1.
Proof.
  intros Ha He.
  destruct c1, c2; try discriminate Ha; clear Ha;
    cbn [applySelectCall recordsError] in *;
    unfold SelectBuilder_Columns, SelectBuilder_Where, SelectBuilder_Having,
      SelectBuilder_OrderBy, SelectBuilder_From, SelectBuilder_Join, SelectBuilder_LeftJoin,
      SelectBuilder_RightJoin, SelectBuilder_FullOuterJoin, implJoin, SelectBuilder_Paginate,
      SelectBuilder_Limit, SelectBuilder_Offset in *;
    cbn [newWhereFragment] in *;
    repeat match goal with
           | |- context [newWhereFragment ?p ?a] => destruct (newWhereFragment p a)
           | H : context [newWhereFragment ?p ?a] |- _ => destruct (newWhereFragment p a)
           | |- context [if ?c then _ else _] => destruct c
           end;
    try discriminate He; reflexivity.
Qed.

Lemma X10_calls_commute_witness :
  applySelectCall (applySelectCall (NewSelectBuilder ["a"]) (SCallWhere (PString "b = $1") [VInt 1]))
    (SCallPaginate 2 10)
  = applySelectCall (applySelectCall (NewSelectBuilder ["a"]) (SCallPaginate 2 10))
      (SCallWhere (PString "b = $1") [VInt 1]).
Proof.
  exact (X10_calls_commute (SCallWhere (PString "b = $1") [VInt 1]) (SCallPaginate 2 10)
           (NewSelectBuilder ["a"]) eq_refl eq_refl).
Defined.

(** ** SelectDocBuilder *)

Section DocBound.

Variable X : Externals.

Lemma writeWiths_bound (l : list (option subInfo)) :
  forall i w w',
    writeWiths i l w = Some w' -> args w' = (args w ++ flat_map subArgs l)%list.
Proof.
  induction l as [|[sub|] l IH]; intros i w w' H; simpl in H.
  - inversion H. now rewrite app_nil_r.
  - apply IH in H. rewrite H. cbn [WriteString WriteRelativeArgs args flat_map subArgs].
    destruct (i =? 0)%nat; cbn [WriteString args]; now rewrite <- app_assoc.
  - discriminate.
Qed.

Lemma fold_sub_bound (step : Writer -> option subInfo -> Writer) :
  (forall w slot, args (step w slot) = (args w ++ subArgs slot)%list) ->
  forall l w, args (fold_left step l w) = (args w ++ flat_map subArgs l)%list.
Proof.
  intros Hstep. induction l as [|slot l IH]; intros w; simpl.
  - now rewrite app_nil_r.
  - rewrite IH, Hstep. now rewrite <- app_assoc.
Qed.

Lemma writeMany_bound (w : Writer) (slot : option subInfo) :
  args (writeMany X w slot) = (args w ++ subArgs slot)%list.
Proof. destruct slot; simpl; [reflexivity | now rewrite app_nil_r]. Qed.

Lemma writeVector_bound (w : Writer) (slot : option subInfo) :
  args (writeVector X w slot) = (args w ++ subArgs slot)%list.
Proof. destruct slot; simpl; [reflexivity | now rewrite app_nil_r]. Qed.

Lemma writeOne_bound (w : Writer) (slot : option subInfo) :
  args (writeOne X w slot) = (args w ++ subArgs slot)%list.
Proof. destruct slot; simpl; [reflexivity | now rewrite app_nil_r]. Qed.

Lemma writeScalar_bound (w : Writer) (slot : option subInfo) :
  args (writeScalar X w slot) = (args w ++ subArgs slot)%list.
Proof. destruct slot; simpl; [reflexivity | now rewrite app_nil_r]. Qed.

Lemma writeUnion_bound (w : Writer) (slot : option subInfo) :
  args (writeUnion w slot) = (args w ++ subArgs slot)%list.
Proof. destruct slot; simpl; [reflexivity | now rewrite app_nil_r]. Qed.

Lemma writeDocBody_bound (b : SelectDocBuilder) (w w' : Writer) :
  (len (tableFragments (inner b)) =? 0) && (0 <? len (joinFragments (inner b))) = false ->
  writeDocBody X b w = Ok w' ->
  exists from, args w' = (args w ++ bodyArgs X b from)%list.
Proof.
  unfold writeDocBody, bodyArgs. intros Hj H.
  destruct (innerSQL b) as [e|].
  - inversion H. exists "". reflexivity.
  - rewrite len_zero, len_pos in Hj. rewrite len_pos in H.
    destruct (tableFragments (inner b)) as [|t ts] eqn:Et.
    + destruct (joinFragments (inner b)) as [|j js] eqn:Ej; [|discriminate].
      cbv beta iota zeta in H.
      destruct (applyScope X (scope (inner b)) "" (sel_whereFragments (inner b)) w)
        as [[fs' w1]|e] eqn:E; [|discriminate].
      apply applyScope_fragments in E. destruct E as [-> Hw1].
      inversion H; subst. exists "".
      rewrite writeFors_args, writeLimitOffset_args, writeOrderBys_bound, writeHaving_bound,
        writeGroupBys_args, (fold_sub_bound writeUnion writeUnion_bound), writeWhere_bound, Hw1.
      simpl. rewrite !flat_map_app. now rewrite <- !app_assoc.
    + unfold onBuffer in H. cbv beta iota zeta in H.
      match type of H with
      | context [applyScope X (scope (inner b)) ?from ?fs ?w0] =>
          destruct (applyScope X (scope (inner b)) from fs w0) as [[fs' w1]|e] eqn:E;
          [|discriminate]; exists from
      end.
      apply applyScope_fragments in E. destruct E as [-> Hw1].
      inversion H; subst.
      rewrite writeFors_args, writeLimitOffset_args, writeOrderBys_bound, writeHaving_bound,
        writeGroupBys_args, (fold_sub_bound writeUnion writeUnion_bound), writeWhere_bound, Hw1.
      cbn [WriteString args]. rewrite writeConcatFragmentsToSQL_bound.
      cbn [WriteString args]. rewrite writeCommaFragmentsToSQL_bound. cbn [args].
      rewrite !flat_map_app. cbn [List.app]. now rewrite <- !app_assoc.
Qed.

End DocBound.

(** X11.  The arguments SelectDocBuilder.ToSQL binds are those of the WITH
    tables, then of the Many, Vector, One and Scalar sub-queries, in this
    order whatever the order of the calls, then those of the body: of the
    inner SQL when one is set, else of FROM, JOIN, WHERE and scope, of the
    unions, of HAVING and of ORDER BY.  A pruned slot binds nothing. *)
Theorem X11_document_arguments (X : Externals) (b : SelectDocBuilder)
  (sql : string) (a : list Value) :
  SelectDocBuilder_ToSQL X b = Some (sql, a, None) ->
  exists from,
    a = (flat_map subArgs
           (subQueriesWith b ++ subQueriesMany b ++ subQueriesVector b
            ++ subQueriesOne b ++ subQueriesScalar b)
         ++ bodyArgs X b from)%list.
Proof.
  unfold SelectDocBuilder_ToSQL. intros H.
  destruct (doc_err b); [discriminate|]. cbv zeta in H.
  destruct (_ =? 0); [discriminate|].
  destruct ((len (tableFragments (inner b)) =? 0) && (0 <? len (joinFragments (inner b))))
    eqn:Ej; [discriminate|].
  destruct (writeWiths 0 (subQueriesWith b) (mkWriter "" [] 1)) as [w|] eqn:Ew; [|discriminate].
  apply writeWiths_bound in Ew. simpl in Ew.
  match type of H with
  | context [writeDocBody X b ?w0] =>
      destruct (writeDocBody X b w0) as [w1|e] eqn:Eb; [|discriminate];
      apply (writeDocBody_bound X b w0 w1 Ej) in Eb
  end.
  destruct Eb as [from Hb]. exists from.
  assert (Ha : a = args w1).
  { destruct (isParent b); inversion H; reflexivity. }
  rewrite Ha, Hb.
  rewrite (fold_sub_bound (writeScalar X) (writeScalar_bound X)),
    (fold_sub_bound (writeOne X) (writeOne_bound X)),
    (fold_sub_bound (writeVector X) (writeVector_bound X)),
    (fold_sub_bound (writeMany X) (writeMany_bound X)),
    writeStrings_args, writeDistinct_args.
  assert (Hs : forall s, args (if isParent b then WriteString s w else WriteString "SELECT " w)
                         = args w) by (intros s; destruct (isParent b); reflexivity).
  rewrite Hs, Ew. rewrite !flat_map_app. now rewrite <- !app_assoc.
Qed.

Lemma X11_document_arguments_witness :
  exists from,
    [VInt 4; VInt 4]
    = (flat_map subArgs
         (subQueriesWith doc_whitelist ++ subQueriesMany doc_whitelist
          ++ subQueriesVector doc_whitelist ++ subQueriesOne doc_whitelist
          ++ subQueriesScalar doc_whitelist)
       ++ bodyArgs testExternals
            (SelectDocBuilder_Where (PString "d=$1") [VInt 4] doc_whitelist) from)%list.
Proof.
  destruct (SelectDocBuilder_ToSQL testExternals
              (SelectDocBuilder_Where (PString "d=$1") [VInt 4] doc_whitelist))
    as [[[sql a] e]|] eqn:E; [|vm_compute in E; discriminate].
  assert (Ha : a = [VInt 4; VInt 4] /\ e = None).
  { vm_compute in E. inversion E. split; reflexivity. }
  destruct Ha as [-> ->].
  exact (X11_document_arguments testExternals
           (SelectDocBuilder_Where (PString "d=$1") [VInt 4] doc_whitelist) sql [VInt 4; VInt 4] E).
Defined.

Lemma heapSet_heapSet (h : Heap) :
  forall p b b', heapSet (heapSet h p b) p b' = heapSet h p b'.
Proof.
  induction h as [|x h IH]; intros [|p] b b'; simpl; try reflexivity.
  now rewrite IH.
Qed.

Lemma heapSet_length (h : Heap) :
  forall p b, List.length (heapSet h p b) = List.length h.
Proof.
  induction h as [|x h IH]; intros [|p] b; simpl; try reflexivity. now rewrite IH.
Qed.


(** X12.  A sub-query given as a SelectBuilder or an InsertBuilder whose
    ToSQL returns an error is not stored: Many, Vector, One, Scalar, Union
    and UnionAll leave the slices as they are and record that error on the
    parent, whose ToSQL then returns it with empty text and no argument. *)
Theorem X12_subquery_error (X : Externals) (p : nat) (r : Role) (name c : string)
  (a : list Value) (h : Heap) (pb : SelectDocBuilder) (e : error) :
  nth_error h p = Some pb ->
  let h' := heapSet h p (doc_setErr (Some e) pb) in
  (forall t sql' a',
      SelectBuilder_ToSQL X t = (sql', a', Some e) ->
      storeInto X p r name c (ArgSelect t) a h = Some h')
  /\ (forall t sql' a',
        InsertBuilder_ToSQL X t = Some (sql', a', Some e) ->
        storeInto X p r name c (ArgInsert t) a h = Some h')
  /\ nth_error h' p = Some (doc_setErr (Some e) pb)
  /\ subQueries r (doc_setErr (Some e) pb) = subQueries r pb
  /\ SelectDocBuilder_callToSQL X p h' = Some (("", [], Some e), h').
Proof.
  intros Hp h'. subst h'.
  split; [|split; [|split; [|split]]].
  - intros t sql' a' Ht. unfold storeInto, storeExpr, storeResult. rewrite Ht, Hp. reflexivity.
  - intros t sql' a' Ht. unfold storeInto, storeExpr, storeResult. rewrite Ht, Hp. reflexivity.
  - eapply heapSet_eq. exact Hp.
  - destruct r; reflexivity.
  - unfold SelectDocBuilder_callToSQL. rewrite (heapSet_eq h p _ pb Hp).
    unfold SelectDocBuilder_ToSQL. reflexivity.
Qed.


Lemma X12_subquery_error_witness :
  SelectDocBuilder_Many testExternals 0 "x" (ArgSelect (NewSelectBuilder [])) []
    [NewSelectDocBuilder ["a"]]
  = Some (heapSet [NewSelectDocBuilder ["a"]] 0
            (doc_setErr (Some (NewError "Select requires 1 or more columns"))
               (NewSelectDocBuilder ["a"]))).
Proof.
  exact (proj1 (X12_subquery_error testExternals 0 MANY "SelectDocBuilder.Many" "x" []
                  [NewSelectDocBuilder ["a"]] (NewSelectDocBuilder ["a"])
                  (NewError "Select requires 1 or more columns") eq_refl)
           (NewSelectBuilder []) "" [] eq_refl).
Defined.

(** X13.  With stores nothing and changes nothing when an error is
    recorded and the argument is text or a builder.  Given a slice, it first
    replaces the recorded error by the outcome of arrayToTable: when that
    is no error, the table is stored as the last WITH entry and the error
    slot is empty, whatever it held; when it is an error, nothing is stored.
    Given nil, it panics. *)
Theorem X13_With (X : Externals) (p : nat) (c : string) (a : list Value)
  (h : Heap) (pb : SelectDocBuilder) :
  nth_error h p = Some pb ->
  (forall s e, textOrBuilder s = true -> doc_err pb = Some e ->
               SelectDocBuilder_With X p c s a h = Some h)
  /\ (forall contents sql a',
        arrayToTable X contents = (sql, a', None) ->
        SelectDocBuilder_With X p c (ArgSlice contents) a h
        = Some (heapSet h p
                  (doc_setErr None
                     (setSubQueries WITH
                        (subQueriesWith pb ++ [Some (mkSubInfo (Expr sql a') c)]) pb))))
  /\ (forall contents sql a' e,
        arrayToTable X contents = (sql, a', Some e) ->
        SelectDocBuilder_With X p c (ArgSlice contents) a h
        = Some (heapSet h p (doc_setErr (Some e) pb)))
  /\ SelectDocBuilder_With X p c (ArgOther VNil) a h = None.
Proof.
  intros Hp. split; [|split; [|split]].
  - intros s e Hs He. unfold SelectDocBuilder_With. rewrite Hp.
    destruct s; try discriminate; rewrite He; reflexivity.
  - intros contents sql a' Ht. unfold SelectDocBuilder_With. rewrite Hp, Ht.
    unfold storeInto, storeExpr, appendSub.
    rewrite (heapSet_eq h p _ pb Hp). rewrite (heapSet_eq _ p _ _ (heapSet_eq h p _ pb Hp)).
    rewrite !heapSet_heapSet. destruct pb. reflexivity.
  - intros contents sql a' e Ht. unfold SelectDocBuilder_With. rewrite Hp, Ht. reflexivity.
  - reflexivity.
Qed.


Lemma X13_With_witness :
  SelectDocBuilder_With testExternals 0 "ids" (ArgSlice (ScalarSlice "int[]" [VInt 7])) []
    [doc_setErr (Some (NewError "earlier")) (NewSelectDocBuilder ["a"])]
  = Some [doc_setErr None
            (setSubQueries WITH
               [Some (mkSubInfo (Expr "SELECT UNNEST(ARRAY[$1]::int[]) AS data " [VInt 7]) "ids")]
               (NewSelectDocBuilder ["a"]))].
Proof.
  exact (proj1 (proj2 (X13_With testExternals 0 "ids" []
                         [doc_setErr (Some (NewError "earlier")) (NewSelectDocBuilder ["a"])]
                         (doc_setErr (Some (NewError "earlier")) (NewSelectDocBuilder ["a"]))
                         eq_refl))
           (ScalarSlice "int[]" [VInt 7]) "SELECT UNNEST(ARRAY[$1]::int[]) AS data " [VInt 7]
           ltac:(vm_compute; reflexivity)).
Defined.

(** *** arrayToTable *)

Lemma scalarElems_from (elems : list Value) :
  forall i w,
    forRange (fun i v w =>
                let w := if negb (i =? 0)%nat then WriteString "," w else w in
                bindArg (WriteString ("$" ++ itoa (pos w)) w) v) i elems w
    = mkWriter (buf w ++ match elems with
                         | [] => ""
                         | _ => (if negb (i =? 0)%nat then "," else "")
                                ++ String.concat "," (placeholderList (pos w) (List.length elems))
                         end)
               (args w ++ elems) (pos w + len elems).
Proof.
  induction elems as [|v elems IH]; intros i [b a p]; simpl forRange.
  - simpl. now rewrite append_nil_r, app_nil_r, Z.add_0_r.
  - rewrite IH. cbn [List.length]. rewrite placeholderList_S.
    assert (Hp : forall c : bool, pos (bindArg (WriteString ("$" ++ itoa (pos (if c then WriteString "," (mkWriter b a p) else mkWriter b a p))) (if c then WriteString "," (mkWriter b a p) else mkWriter b a p)) v) = p + 1)
      by (intros []; reflexivity).
    destruct elems as [|v' elems]; destruct (negb (i =? 0)%nat); cbn [negb Nat.eqb];
      unfold bindArg, WriteString; cbn [buf args pos]; unfold len; cbn [List.length];
      rewrite ?append_nil_r, <- ?app_assoc; f_equal; try lia;
      try (rewrite (placeholderList_S (p + 1)));
      text_norm; rewrite ?append_nil_r; reflexivity.
Qed.

(** X14.  The table of a slice of n scalars is one UNNEST of an array of
    the placeholders $1 to $n, cast to the array type and named data, and
    binds the elements in order; for an empty slice the array is empty. *)
Theorem X14_arrayToTable_scalars (X : Externals) (ty : string) (elems : list Value) :
  arrayToTable X (ScalarSlice ty elems)
  = ("SELECT UNNEST(ARRAY[" ++ String.concat "," (placeholderList 1 (List.length elems))
     ++ "]::" ++ ty ++ ") AS data ",
     elems, None).
Proof.
  unfold arrayToTable. cbv zeta. rewrite scalarElems_from.
  destruct elems; text_norm; reflexivity.
Qed.


Lemma arrayElems_from (i : nat) (elems : list (option (list Value))) :
  forall j w,
    forRange (fun j value w =>
                let w := if negb (j =? 0)%nat then WriteString "," w else w in
                match value with
                | None => WriteString "NULL" w
                | Some fieldValues =>
                    bindArg (WriteString ("$" ++ itoa (pos w)) w) (nth i fieldValues VNil)
                end) j elems w
    = mkWriter (buf w ++ match elems with
                         | [] => ""
                         | _ => (if negb (j =? 0)%nat then "," else "")
                                ++ String.concat "," (cells (pos w) elems)
                         end)
               (args w ++ column_of i elems) (pos w + len (liveElems elems)).
Proof.
  induction elems as [|value elems IH]; intros j [b a p]; simpl forRange.
  - simpl. unfold column_of. simpl. now rewrite append_nil_r, app_nil_r, Z.add_0_r.
  - rewrite IH. unfold column_of, liveElems. cbn [flat_map cells].
    destruct value as [fieldValues|]; destruct elems as [|[fv'|] elems];
      destruct (negb (j =? 0)%nat); cbn [negb Nat.eqb flat_map List.app map cells];
      unfold bindArg, WriteString; cbn [buf args pos]; unfold len; cbn [List.length];
      rewrite ?append_nil_r, ?app_nil_r, <- ?app_assoc; f_equal; try lia;
      text_norm; rewrite ?append_nil_r; reflexivity.
Qed.

Lemma writeStructColumns_from (X : Externals) (elems : list (option (list Value)))
  (fields : list StructField) :
  nestedStruct fields = false ->
  forall i writtenArrays w,
    writeStructColumns X i fields elems writtenArrays w
    = Ok (mkWriter (buf w ++ match structColumns X (pos w) fields elems with
                             | [] => ""
                             | cols => (if negb (writtenArrays =? 0)%nat then "," else "")
                                       ++ String.concat "," cols
                             end)
                   (args w ++ flat_map (fun k => column_of k elems) (taggedFrom i fields))
                   (pos w + Z.of_nat (List.length (taggedFrom i fields))
                            * len (liveElems elems))).
Proof.
  induction fields as [|field fields IH]; intros Hn i writtenArrays [b a p].
  - simpl. now rewrite append_nil_r, app_nil_r, Z.add_0_r.
  - cbn [nestedStruct existsb] in Hn. apply orb_false_iff in Hn. destruct Hn as [Hf Hn].
    cbn [writeStructColumns structColumns taggedFrom].
    destruct (String.eqb (tag field) "") eqn:Et; cbn [negb].
    + apply (IH Hn).
    + cbn [negb andb] in Hf. rewrite Hf.
      unfold writeArrayElems. cbv zeta. rewrite (IH Hn).
      rewrite arrayElems_from. f_equal.
      destruct (negb (writtenArrays =? 0)%nat); cbn [WriteString buf args pos negb Nat.eqb];
        cbn [flat_map List.length]; rewrite <- ?app_assoc;
        (f_equal; [| lia]);
        destruct (structColumns X (p + len (liveElems elems)) fields elems) eqn:Es;
        destruct elems; simpl; text_norm; rewrite ?append_nil_r; reflexivity.
Qed.



(** *** Embedding and the heap *)

Lemma setSubQueries_same (r : Role) (b : SelectDocBuilder) :
  setSubQueries r (subQueries r b) b = b.
Proof. destruct b, r; reflexivity. Qed.

Lemma subQueries_setSubQueries (r : Role) (l : list (option subInfo)) (b : SelectDocBuilder) :
  subQueries r (setSubQueries r l b) = l.
Proof. destruct r; reflexivity. Qed.

Lemma subQueries_setSubQueries_ne (r r' : Role) (l : list (option subInfo))
  (b : SelectDocBuilder) :
  r' <> r -> subQueries r' (setSubQueries r l b) = subQueries r' b.
Proof. destruct r, r'; intros H; try reflexivity; contradiction. Qed.

Section Embedding.

Variable X : Externals.

Lemma storeResult_shape (p : nat) (r : Role) (c : string) (res : SQLResult)
  (h1 h2 : Heap) (e : option error) (b2 : SelectDocBuilder) :
  storeResult p r c res h1 = Some (h2, e) ->
  nth_error h2 p = Some b2 ->
  exists pb1 l,
    nth_error h1 p = Some pb1
    /\ (l = subQueries r pb1
        \/ exists sub, alias sub = c /\ l = (subQueries r pb1 ++ [Some sub])%list)
    /\ heapSet h2 p (doc_setErr e b2) = heapSet h1 p (doc_setErr e (setSubQueries r l pb1)).
Proof.
  unfold storeResult, appendSub. destruct res as [[sql a] [e'|]]; intros H Hb.
  - inversion H; subst. exists b2, (subQueries r b2). split; [exact Hb|].
    split; [left; reflexivity|]. now rewrite setSubQueries_same.
  - destruct (nth_error h1 p) as [pb1|] eqn:E1; [|discriminate].
    inversion H; subst. clear H.
    rewrite (heapSet_eq h1 p _ pb1 E1) in Hb. inversion Hb; subst.
    exists pb1, (subQueries r pb1 ++ [Some (mkSubInfo (Expr sql a) c)])%list.
    split; [reflexivity|]. split.
    + right. exists (mkSubInfo (Expr sql a) c). split; reflexivity.
    + apply heapSet_heapSet.
Qed.

Lemma storeInto_shape (p : nat) (r : Role) (name c : string) (s : SqlOrBuilder)
  (a : list Value) (h h' : Heap) :
  storeInto X p r name c s a h = Some h' ->
  exists h1 pb1 l e,
    ((h1 = h /\ forall t, s <> ArgDoc t)
     \/ exists t tb, s = ArgDoc t /\ nth_error h t = Some tb
                     /\ h1 = heapSet h t (setIsParent false tb))
    /\ nth_error h1 p = Some pb1
    /\ (l = subQueries r pb1
        \/ exists sub, alias sub = c /\ l = (subQueries r pb1 ++ [Some sub])%list)
    /\ h' = heapSet h1 p (doc_setErr e (setSubQueries r l pb1)).
Proof.
  unfold storeInto. destruct (storeExpr X p r name c s a h) as [[h2 e]|] eqn:Es; [|discriminate].
  destruct (nth_error h2 p) as [b2|] eqn:Eb; [|discriminate].
  intros H. inversion H; subst h'. clear H.
  unfold storeExpr in Es. destruct s as [sql|t|t|t|contents|v].
  - change (match appendSub p r sql a c h with
            | Some h'0 => Some (h'0, None)
            | None => None
            end) with (storeResult p r c (sql, a, None) h) in Es.
    destruct (storeResult_shape _ _ _ _ _ _ _ _ Es Eb) as (pb1 & l & H1 & Hl & Hh).
    exists h, pb1, l, e. split; [left; split; [reflexivity | discriminate]|]. auto.
  - destruct (nth_error h t) as [tb|] eqn:Et; [|discriminate].
    destruct (SelectDocBuilder_ToSQL X (setIsParent false tb)) as [res|]; [|discriminate].
    destruct (storeResult_shape _ _ _ _ _ _ _ _ Es Eb) as (pb1 & l & H1 & Hl & Hh).
    exists (heapSet h t (setIsParent false tb)), pb1, l, e.
    split; [right; exists t, tb; auto|]. auto.
  - destruct (storeResult_shape _ _ _ _ _ _ _ _ Es Eb) as (pb1 & l & H1 & Hl & Hh).
    exists h, pb1, l, e. split; [left; split; [reflexivity | discriminate]|]. auto.
  - destruct (InsertBuilder_ToSQL X t) as [res|]; [|discriminate].
    destruct (storeResult_shape _ _ _ _ _ _ _ _ Es Eb) as (pb1 & l & H1 & Hl & Hh).
    exists h, pb1, l, e. split; [left; split; [reflexivity | discriminate]|]. auto.
  - inversion Es; subst. exists h2, b2, (subQueries r b2), (Some (NewError (name ++ ": sqlOrbuilder accepts only {string, Builder, *SelectDocBuilder} type"))).
    split; [left; split; [reflexivity | discriminate]|]. split; [exact Eb|]. split; [left; reflexivity|].
    now rewrite setSubQueries_same.
  - inversion Es; subst. exists h2, b2, (subQueries r b2), (Some (NewError (name ++ ": sqlOrbuilder accepts only {string, Builder, *SelectDocBuilder} type"))).
    split; [left; split; [reflexivity | discriminate]|]. split; [exact Eb|]. split; [left; reflexivity|].
    now rewrite setSubQueries_same.
Qed.

End Embedding.

(** X16.  Many, Vector, One, Scalar, Union and UnionAll touch two builders
    at most.  The heap keeps its size, and every builder other than the
    receiver and the embedded document builder is as it was.  The embedded
    document builder only has its isParent flag cleared.  The receiver
    keeps its SelectBuilder, its inner SQL and its other slices; the slice
    of the call is as it was or has one more slot at its end, under the
    column of the call; its isParent flag changes only when it is embedded
    in itself. *)
Theorem X16_embedding_frame (X : Externals) (p : nat) (r : Role) (name c : string)
  (s : SqlOrBuilder) (a : list Value) (h h' : Heap) :
  storeInto X p r name c s a h = Some h' ->
  List.length h' = List.length h
  /\ (forall q, q <> p -> s <> ArgDoc q -> nth_error h' q = nth_error h q)
  /\ (forall t tb, s = ArgDoc t -> t <> p -> nth_error h t = Some tb ->
                   nth_error h' t = Some (setIsParent false tb))
  /\ exists pb pb',
       nth_error h p = Some pb /\ nth_error h' p = Some pb'
       /\ inner pb' = inner pb /\ innerSQL pb' = innerSQL pb
       /\ (forall r', r' <> r -> subQueries r' pb' = subQueries r' pb)
       /\ (subQueries r pb' = subQueries r pb
           \/ exists sub, alias sub = c
                          /\ subQueries r pb' = (subQueries r pb ++ [Some sub])%list)
       /\ (isParent pb' = isParent pb \/ s = ArgDoc p).
Proof.
  intros H. apply storeInto_shape in H.
  destruct H as (h1 & pb1 & l & e & Hh1 & Hp1 & Hl & ->).
  assert (Hat : forall pb, nth_error h p = Some pb ->
                  (pb1 = pb /\ forall t, s <> ArgDoc t) \/ (pb1 = pb /\ exists t, s = ArgDoc t /\ t <> p)
                  \/ (pb1 = setIsParent false pb /\ s = ArgDoc p)).
  { intros pb Hpb. destruct Hh1 as [[-> Hs]|(t & tb & -> & Ht & ->)].
    - left. split; [congruence | exact Hs].
    - destruct (Nat.eq_dec t p) as [->|Hne].
      + right. right. rewrite (heapSet_eq h p _ tb Ht) in Hp1. split; congruence.
      + right. left. rewrite heapSet_ne in Hp1 by exact Hne. split; [congruence|].
        exists t. split; [reflexivity | exact Hne]. }
  split.
  { rewrite heapSet_length. destruct Hh1 as [[-> _]|(t & tb & _ & _ & ->)];
      [reflexivity | apply heapSet_length]. }
  split.
  { intros q Hq Hs. rewrite heapSet_ne by congruence.
    destruct Hh1 as [[-> _]|(t & tb & -> & _ & ->)]; [reflexivity|].
    apply heapSet_ne. congruence. }
  split.
  { intros t tb Hs Htp Ht. rewrite heapSet_ne by congruence.
    destruct Hh1 as [[-> Hn]|(t' & tb' & Hs' & Ht' & ->)]; [exfalso; exact (Hn t Hs)|].
    rewrite Hs in Hs'. inversion Hs'; subst t'. rewrite Ht in Ht'. inversion Ht'; subst tb'.
    eapply heapSet_eq. exact Ht. }
  assert (Hex : exists pb, nth_error h p = Some pb).
  { destruct Hh1 as [[-> _]|(t & tb & _ & Ht & ->)]; [eauto|].
    destruct (Nat.eq_dec t p) as [->|Hne]; [eauto|].
    rewrite heapSet_ne in Hp1 by exact Hne. eauto. }
  destruct Hex as [pb Hpb]. exists pb, (doc_setErr e (setSubQueries r l pb1)).
  split; [exact Hpb|]. split; [eapply heapSet_eq; exact Hp1|].
  assert (Hin : inner pb1 = inner pb /\ innerSQL pb1 = innerSQL pb
                /\ (forall r', subQueries r' pb1 = subQueries r' pb)
                /\ (isParent pb1 = isParent pb \/ s = ArgDoc p)).
  { destruct (Hat pb Hpb) as [[-> _]|[[-> _]|[-> Hs]]].
    - split; [reflexivity|]. split; [reflexivity|]. split; [reflexivity|]. left. reflexivity.
    - split; [reflexivity|]. split; [reflexivity|]. split; [reflexivity|]. left. reflexivity.
    - split; [destruct pb; reflexivity|]. split; [destruct pb; reflexivity|].
      split; [intros r'; destruct pb, r'; reflexivity|]. right. exact Hs. }
  destruct Hin as (Hi & Hq & Hr & Hpar).
  split; [destruct r; exact Hi|]. split; [destruct r; exact Hq|].
  split.
  { intros r' Hne. change (subQueries r' (doc_setErr e ?b)) with (subQueries r' b).
    - rewrite subQueries_setSubQueries_ne by exact Hne. apply Hr. }
  split.
  { assert (Hd : subQueries r (doc_setErr e (setSubQueries r l pb1)) = l)
      by (destruct r; reflexivity).
    rewrite Hd. rewrite <- Hr. exact Hl. }
  destruct r; exact Hpar.
Qed.

Lemma X16_embedding_frame_witness :
  List.length nested_heap_after = List.length nested_heap
  /\ nth_error nested_heap_after 0
     = option_map (setIsParent false) (nth_error nested_heap 0).
Proof.
  pose proof (X16_embedding_frame testExternals 1 ONE "SelectDocBuilder.One" "user"
                (ArgDoc 0) [] nested_heap nested_heap_after ltac:(vm_compute; reflexivity))
    as (Hlen & _ & Hchild & _).
  split; [exact Hlen|].
  exact (Hchild 0%nat _ eq_refl ltac:(discriminate) eq_refl).
Defined.

Lemma Forall_heapSet (P : SelectDocBuilder -> Prop) (h : Heap) :
  forall p b, Forall P h -> P b -> Forall P (heapSet h p b).
Proof.
  induction h as [|x h IH]; intros [|p] b Hh Hb; simpl; try exact Hh;
    inversion Hh; subst; constructor; auto.
Qed.

Lemma Forall_nth_error (P : SelectDocBuilder -> Prop) (h : Heap) (p : nat)
  (b : SelectDocBuilder) :
  Forall P h -> nth_error h p = Some b -> P b.
Proof.
  intros Hh Hp. rewrite Forall_forall in Hh. apply Hh. eapply nth_error_In. exact Hp.
Qed.

Section NeverPanics.

Variable X : Externals.

Lemma storeInto_withsLive (p : nat) (r : Role) (name c : string) (s : SqlOrBuilder)
  (a : list Value) (h h' : Heap) :
  storeInto X p r name c s a h = Some h' -> Forall withsLive h -> Forall withsLive h'.
Proof.
  intros H Hh. apply storeInto_shape in H.
  destruct H as (h1 & pb1 & l & e & Hh1 & Hp1 & Hl & ->).
  assert (H1 : Forall withsLive h1).
  { destruct Hh1 as [[-> _]|(t & tb & _ & Ht & ->)]; [exact Hh|].
    apply Forall_heapSet; [exact Hh|].
    pose proof (Forall_nth_error _ _ _ _ Hh Ht) as Hb. destruct tb. exact Hb. }
  apply Forall_heapSet; [exact H1|].
  pose proof (Forall_nth_error _ _ _ _ H1 Hp1) as Hb.
  unfold withsLive in *.
  destruct r; try (destruct pb1; exact Hb).
  change (subQueriesWith (doc_setErr e (setSubQueries WITH l pb1))) with l.
  destruct Hl as [->|(sub & _ & ->)]; [exact Hb|].
  apply Forall_app. split; [exact Hb|]. constructor; [discriminate | constructor].
Qed.

Lemma applyDocCall_withsLive (h h' : Heap) (call : DocCall) :
  applyDocCall X h call = Some h' -> Forall withsLive h -> Forall withsLive h'.
Proof.
  destruct call; simpl; intros H Hh;
    try (eapply storeInto_withsLive; eassumption).
  - inversion H; subst. apply Forall_app. split; [exact Hh|].
    constructor; [constructor | constructor].
  - unfold SelectDocBuilder_With in H.
    assert (Hgo : match nth_error h p with
                  | None => None
                  | Some b =>
                      let '(sqlOrBuilder, a0, h0, e) :=
                        match s with
                        | ArgSlice contents =>
                            let '(sql, a', e) := arrayToTable X contents in
                            (ArgString sql, a', heapSet h p (doc_setErr e b), e)
                        | _ => (s, a, h, doc_err b)
                        end in
                      match e with
                      | None => storeInto X p WITH "SelectDocBuilder.With" c sqlOrBuilder a0 h0
                      | Some _ => Some h0
                      end
                  end = Some h').
    { destruct s as [| | | | |[]]; try exact H; try discriminate;
        destruct (nth_error h p); exact H. }
    clear H. destruct (nth_error h p) as [b|] eqn:Eb; [|discriminate].
    pose proof (Forall_nth_error _ _ _ _ Hh Eb) as Hb.
    assert (Hset : forall e, Forall withsLive (heapSet h p (doc_setErr e b))).
    { intros e. apply Forall_heapSet; [exact Hh|]. destruct b. exact Hb. }
    destruct s as [sql|t|t|t|contents|v].
    all: try (destruct (doc_err b); [inversion Hgo; subst; exact Hh|];
              eapply storeInto_withsLive; eassumption).
    destruct (arrayToTable X contents) as [[sql a'] [e|]].
    + inversion Hgo; subst. apply Hset.
    + eapply storeInto_withsLive; [exact Hgo | apply Hset].
  - unfold onBuilder in H. destruct (nth_error h p) as [b|] eqn:Eb; [|discriminate].
    destruct (SelectDocBuilder_Whitelist cs b) as [b'|] eqn:Ew; [|discriminate].
    inversion H; subst. apply Forall_heapSet; [exact Hh|].
    pose proof (Forall_nth_error _ _ _ _ Hh Eb) as Hb.
    unfold SelectDocBuilder_Whitelist in Ew.
    destruct (len cs =? 0); [inversion Ew; subst; exact Hb|].
    destruct (splitAllowList cs [] []) as [[m e]|]; [|inversion Ew; subst; exact Hb].
    destruct (whitelistSlots m e (subQueriesMany b)); [|discriminate].
    destruct (whitelistSlots m e (subQueriesOne b)); [|discriminate].
    destruct (whitelistSlots m e (subQueriesVector b)); [|discriminate].
    destruct (whitelistSlots m e (subQueriesScalar b)); [|discriminate].
    inversion Ew; subst. exact Hb.
  - unfold onBuilder in H. destruct (nth_error h p) as [b|] eqn:Eb; [|discriminate].
    inversion H; subst. apply Forall_heapSet; [exact Hh|].
    pose proof (Forall_nth_error _ _ _ _ Hh Eb) as Hb. destruct b. exact Hb.
  - unfold onBuilder in H. destruct (nth_error h p) as [b|] eqn:Eb; [|discriminate].
    inversion H; subst. apply Forall_heapSet; [exact Hh|].
    pose proof (Forall_nth_error _ _ _ _ Hh Eb) as Hb. destruct b. exact Hb.
Qed.

Lemma writeWiths_live (l : list (option subInfo)) :
  Forall (fun slot => slot <> None) l ->
  forall i w, exists w', writeWiths i l w = Some w'.
Proof.
  induction 1 as [|slot l Hs _ IH]; intros i w; [eexists; reflexivity|].
  destruct slot as [sub|]; [|contradiction]. simpl. apply IH.
Qed.

Lemma SelectDocBuilder_ToSQL_total (b : SelectDocBuilder) :
  withsLive b -> exists res, SelectDocBuilder_ToSQL X b = Some res.
Proof.
  intros Hb. unfold SelectDocBuilder_ToSQL.
  destruct (doc_err b); [eexists; reflexivity|]. cbv zeta.
  destruct (_ =? 0); [eexists; reflexivity|].
  destruct (_ && _); [eexists; reflexivity|].
  destruct (writeWiths_live _ Hb 0%nat (mkWriter "" [] 1)) as [w ->].
  match goal with
  | |- context [writeDocBody X b ?w0] => destruct (writeDocBody X b w0)
  end; eexists; reflexivity.
Qed.

End NeverPanics.

(** X17.  SelectDocBuilder.ToSQL reads the alias of every WITH slot without
    a nil test, but no call puts nil there: on every builder of a heap that
    the constructor and the chaining calls made, in any number and order
    with any arguments, ToSQL returns (a statement or an error) and leaves
    the heap as it is. *)
Theorem X17_ToSQL_never_panics (X : Externals) (calls : list DocCall) (h : Heap)
  (p : nat) (b : SelectDocBuilder) :
  runDocCalls X calls [] = Some h ->
  nth_error h p = Some b ->
  exists res, SelectDocBuilder_callToSQL X p h = Some (res, h).
Proof.
  intros Hrun Hp.
  assert (Hinv : Forall withsLive h).
  { assert (Hgen : forall calls h0 h1, Forall withsLive h0 ->
                     runDocCalls X calls h0 = Some h1 -> Forall withsLive h1).
    { clear. induction calls as [|call calls IH]; intros h0 h1 H0 Hr; simpl in Hr.
      - inversion Hr; subst. exact H0.
      - destruct (applyDocCall X h0 call) as [h'|] eqn:Ea; [|discriminate].
        eapply IH; [|exact Hr]. eapply applyDocCall_withsLive; eassumption. }
    eapply Hgen; [|exact Hrun]. constructor. }
  unfold SelectDocBuilder_callToSQL. rewrite Hp.
  destruct (SelectDocBuilder_ToSQL_total X b (Forall_nth_error _ _ _ _ Hinv Hp)) as [res ->].
  exists res. reflexivity.
Qed.

Lemma X17_ToSQL_never_panics_witness :
  exists res,
    SelectDocBuilder_callToSQL testExternals 0 embed_then_filter_heap
    = Some (res, embed_then_filter_heap).
Proof.
  exact (X17_ToSQL_never_panics testExternals embed_then_filter embed_then_filter_heap 0
           (match nth_error embed_then_filter_heap 0 with
            | Some b => b
            | None => NewSelectDocBuilder []
            end)
           ltac:(vm_compute; reflexivity) ltac:(vm_compute; reflexivity)).
Defined.

(** *** Whitelist, forwarded calls, inner SQL *)

Lemma whitelistSlots_nil_slot (m e : list string) (l : list (option subInfo)) :
  m <> [] \/ e <> [] -> In None l -> whitelistSlots m e l = None.
Proof.
  intros Hne. induction l as [|slot l IH]; intros Hin; [contradiction|].
  simpl. destruct slot as [sub|].
  - destruct Hin as [H|H]; [discriminate|].
    rewrite (IH H). destruct (whitelistSlot m e (Some sub)); reflexivity.
  - simpl. destruct m, e; try reflexivity. destruct Hne; contradiction.
Qed.

Lemma some_entry (cs : list string) (c : string) :
  In c cs -> c <> "" -> prefixesOf cs <> [] \/ wordsOf cs <> [].
Proof.
  unfold prefixesOf, wordsOf. induction cs as [|c0 cs IH]; intros Hin Hc; [contradiction|].
  simpl. destruct Hin as [->|Hin].
  - destruct (String.eqb_spec c "") as [E|_]; [contradiction|]. simpl.
    destruct (endsWithStar c); simpl; [left | right]; discriminate.
  - destruct (IH Hin Hc) as [H|H].
    + left. destruct (negb (String.eqb c0 "") && endsWithStar c0); simpl;
        [discriminate | exact H].
    + right. destruct (negb (String.eqb c0 "") && negb (endsWithStar c0)); simpl;
        [discriminate | exact H].
Qed.

(** X18.  Whitelist reads the alias through every Many, One, Vector and
    Scalar slot for each entry it tries, without a nil test: on a builder
    that has a pruned slot, a Whitelist call whose list has no star entry
    and some non-empty entry panics. *)
Theorem X18_Whitelist_after_pruning (cs : list string) (c : string) (b : SelectDocBuilder) :
  ~ In "*" cs -> In c cs -> c <> "" ->
  In None (subQueriesMany b ++ subQueriesOne b ++ subQueriesVector b ++ subQueriesScalar b) ->
  SelectDocBuilder_Whitelist cs b = None.
Proof.
  intros Hstar Hin Hc Hnil. unfold SelectDocBuilder_Whitelist.
  rewrite len_zero. destruct cs as [|c0 cs0] eqn:Ecs; [contradiction|]. rewrite <- Ecs in *.
  rewrite (splitAllowList_nostar cs Hstar). cbn [List.app].
  pose proof (some_entry cs c Hin Hc) as Hne.
  pose proof (whitelistSlots_nil_slot (prefixesOf cs) (wordsOf cs)) as Hp.
  rewrite !in_app_iff in Hnil.
  destruct (whitelistSlots (prefixesOf cs) (wordsOf cs) (subQueriesMany b)) eqn:Em;
    [|reflexivity].
  destruct (whitelistSlots (prefixesOf cs) (wordsOf cs) (subQueriesOne b)) eqn:Eo;
    [|reflexivity].
  destruct (whitelistSlots (prefixesOf cs) (wordsOf cs) (subQueriesVector b)) eqn:Ev;
    [|reflexivity].
  destruct (whitelistSlots (prefixesOf cs) (wordsOf cs) (subQueriesScalar b)) eqn:Es;
    [|reflexivity].
  exfalso. destruct Hnil as [H|[H|[H|H]]]; apply (Hp _ Hne) in H; congruence.
Qed.

Lemma X18_Whitelist_after_pruning_witness :
  SelectDocBuilder_Whitelist ["f*"; "x"]
    (setSubQueries ONE [None] (NewSelectDocBuilder ["a"])) = None.
Proof.
  exact (X18_Whitelist_after_pruning ["f*"; "x"] "x"
           (setSubQueries ONE [None] (NewSelectDocBuilder ["a"]))
           ltac:(vm_compute; intuition discriminate) ltac:(vm_compute; tauto)
           ltac:(discriminate) ltac:(vm_compute; tauto)).
Defined.

Lemma SelectDocBuilder_ToSQL_inner_err (X : Externals) (b : SelectDocBuilder) (e : option error) :
  SelectDocBuilder_ToSQL X (setInner (sel_setErr e (inner b)) b) = SelectDocBuilder_ToSQL X b.
Proof. destruct b as [sb ws ms os vs ss isql un ip de]. destruct sb. reflexivity. Qed.

(** X19.  An error that a forwarded call records, it records on the
    embedded SelectBuilder, and SelectDocBuilder.ToSQL does not read it: a
    Where, Having or OrderBy given a predicate of a wrong type, or Columns
    given no column, leaves ToSQL returning what it returned before the
    call. *)
Theorem X19_inner_error_unreported (X : Externals) (b : SelectDocBuilder) :
  (forall p a e,
      newWhereFragment p a = Failed e ->
      sel_err (inner (SelectDocBuilder_Where p a b)) = Some e
      /\ SelectDocBuilder_ToSQL X (SelectDocBuilder_Where p a b) = SelectDocBuilder_ToSQL X b
      /\ sel_err (inner (SelectDocBuilder_Having p a b)) = Some e
      /\ SelectDocBuilder_ToSQL X (SelectDocBuilder_Having p a b) = SelectDocBuilder_ToSQL X b
      /\ sel_err (inner (SelectDocBuilder_OrderBy p a b)) = Some e
      /\ SelectDocBuilder_ToSQL X (SelectDocBuilder_OrderBy p a b) = SelectDocBuilder_ToSQL X b)
  /\ (forall cs,
        cs = [] \/ hd "" cs = "" ->
        sel_err (inner (SelectDocBuilder_Columns cs b)) <> None
        /\ SelectDocBuilder_ToSQL X (SelectDocBuilder_Columns cs b) = SelectDocBuilder_ToSQL X b).
Proof.
  split.
  - intros p a e Hf.
    unfold SelectDocBuilder_Where, SelectDocBuilder_Having, SelectDocBuilder_OrderBy,
      SelectBuilder_Where, SelectBuilder_Having, SelectBuilder_OrderBy.
    rewrite Hf. rewrite SelectDocBuilder_ToSQL_inner_err. repeat split; reflexivity.
  - intros cs Hcs. unfold SelectDocBuilder_Columns, SelectBuilder_Columns.
    assert (Hc : (len cs =? 0) || String.eqb (hd "" cs) "" = true).
    { destruct Hcs as [->|H]; [reflexivity|]. rewrite H. apply orb_true_r. }
    rewrite Hc. cbn [fst]. rewrite SelectDocBuilder_ToSQL_inner_err.
    split; [discriminate | reflexivity].
Qed.


Lemma X19_inner_error_unreported_witness :
  SelectDocBuilder_ToSQL testExternals (SelectDocBuilder_Where (POther (VInt 1)) [] doc_whitelist)
  = SelectDocBuilder_ToSQL testExternals doc_whitelist.
Proof.
  exact (proj1 (proj2 (proj1 (X19_inner_error_unreported testExternals doc_whitelist)
                         (POther (VInt 1)) []
                         (NewError "Invalid argument passed to Where. Pass a string or an Eq map.")
                         eq_refl))).
Defined.

(** X20.  Once an inner SQL is set, ToSQL writes it in place of the whole
    body: the FROM targets, joins, predicates, scope, unions, GROUP BY,
    HAVING, ORDER BY, LIMIT, OFFSET and FOR of the builder are neither
    written nor bound, so changing them changes nothing, as long as it is
    not from no FROM target or join to some, or back, which the check made
    before rendering reads. *)
Theorem X20_InnerSQL_replaces_body (X : Externals) (b : SelectDocBuilder)
  (sb' : SelectBuilder) (un : list (option subInfo)) :
  innerSQL b <> None ->
  sameHead (inner b) sb' ->
  SelectDocBuilder_ToSQL X (setSubQueries UNION un (setInner sb' b)) = SelectDocBuilder_ToSQL X b.
Proof.
  intros Hi (Hc & Hd & Hdc & Ht & Hj).
  destruct b as [sb ws ms os vs ss isql un0 ip de]. cbn [innerSQL inner] in *.
  destruct isql as [e|]; [|contradiction].
  unfold SelectDocBuilder_ToSQL, writeDocBody, writeDistinct.
  cbn [setSubQueries setInner doc_err inner subQueriesWith subQueriesMany subQueriesOne
       subQueriesVector subQueriesScalar innerSQL union isParent].
  rewrite <- Hc, <- Hd, <- Hdc. rewrite !len_zero, !len_pos.
  assert (Ejoin : (match tableFragments sb' with [] => true | _ => false end
                   && match joinFragments sb' with [] => false | _ => true end)
                  = (match tableFragments sb with [] => true | _ => false end
                     && match joinFragments sb with [] => false | _ => true end)).
  { destruct (tableFragments sb), (tableFragments sb'), (joinFragments sb), (joinFragments sb');
      try reflexivity;
      first [ destruct Ht as [Ht1 Ht2]; (discriminate (Ht1 eq_refl) || discriminate (Ht2 eq_refl))
            | destruct Hj as [Hj1 Hj2]; (discriminate (Hj1 eq_refl) || discriminate (Hj2 eq_refl)) ]. }
  rewrite Ejoin. reflexivity.
Qed.

Lemma X20_InnerSQL_replaces_body_witness :
  SelectDocBuilder_ToSQL testExternals
    (setSubQueries UNION [Some (mkSubInfo (Expr "SELECT 2" []) " ")]
       (setInner (SelectBuilder_Limit 3
                    (SelectBuilder_Where (PString "x = $1") [VInt 1] (NewSelectBuilder ["a"])))
          (SelectDocBuilder_InnerSQL "FROM t WHERE y = $1" [VInt 9] (NewSelectDocBuilder ["a"]))))
  = SelectDocBuilder_ToSQL testExternals
      (SelectDocBuilder_InnerSQL "FROM t WHERE y = $1" [VInt 9] (NewSelectDocBuilder ["a"])).
Proof.
  exact (X20_InnerSQL_replaces_body testExternals
           (SelectDocBuilder_InnerSQL "FROM t WHERE y = $1" [VInt 9] (NewSelectDocBuilder ["a"]))
           (SelectBuilder_Limit 3
              (SelectBuilder_Where (PString "x = $1") [VInt 1] (NewSelectBuilder ["a"])))
           [Some (mkSubInfo (Expr "SELECT 2" []) " ")]
           ltac:(discriminate)
           ltac:(repeat split; intros; reflexivity)).
Defined.

(** ** Where the placeholders of a SELECT point *)

Lemma inert_app (s1 s2 : string) : inert (s1 ++ s2) = inert s1 && inert s2.
Proof. induction s1 as [|c s1 IH]; simpl; [reflexivity|]. rewrite IH. now rewrite andb_assoc. Qed.

Lemma inert_scan (s : string) :
  inert s = true -> forall r, snd (markers_scan (s ++ r)) = snd (markers_scan r).
Proof.
  induction s as [|c s IH]; intros H r; [reflexivity|].
  simpl in H. apply andb_true_iff in H. destruct H as [Hc Hs].
  simpl. specialize (IH Hs r). destruct (markers_scan (s ++ r)) as [d ms]. simpl in IH.
  destruct (digit_of c); [exact IH|].
  apply negb_true_iff in Hc. rewrite Hc. exact IH.
Qed.

Lemma plain_scan (s : string) :
  s <> "" -> opensPlain s = true -> inert s = true ->
  forall r, fst (markers_scan (s ++ r)) = Nil.
Proof.
  destruct s as [|c s]; [congruence|]. intros _ Ho Hi r. simpl in *.
  destruct (markers_scan (s ++ r)) as [d ms].
  destruct (digit_of c); [discriminate|].
  apply andb_true_iff in Hi. destruct Hi as [Hc _]. apply negb_true_iff in Hc.
  rewrite Hc. reflexivity.
Qed.

Lemma sealed_nil : sealed "" [].
Proof. intros r. reflexivity. Qed.

Lemma sealed_carrying (t : string) (ms : list Z) : sealed t ms -> carrying t ms.
Proof. intros H r _. apply H. Qed.

Lemma sealed_inert (t s : string) (ms : list Z) :
  sealed t ms -> inert s = true -> sealed (t ++ s) ms.
Proof.
  intros H Hs r. rewrite append_assoc, H. now rewrite (inert_scan s Hs).
Qed.

Lemma carrying_plain (t s : string) (ms : list Z) :
  carrying t ms -> opensPlain s = true -> inert s = true -> carrying (t ++ s) ms.
Proof.
  intros H Ho Hs r Hr. rewrite append_assoc.
  destruct s as [|c s]; [simpl; apply H; exact Hr|].
  rewrite H by (apply plain_scan; [discriminate | exact Ho | exact Hs]).
  now rewrite (inert_scan _ Hs).
Qed.

Lemma carrying_glue (t g : string) (ms : list Z) :
  carrying t ms -> g <> "" -> opensPlain g = true -> inert g = true -> sealed (t ++ g) ms.
Proof.
  intros H Hne Ho Hs r. rewrite append_assoc.
  rewrite H by (apply plain_scan; assumption).
  now rewrite (inert_scan _ Hs).
Qed.

Lemma sealed_then_carrying (t x : string) (ms mx : list Z) :
  sealed t ms -> carrying x mx -> carrying (t ++ x) (ms ++ mx).
Proof.
  intros Ht Hx r Hr. rewrite append_assoc, Ht, (Hx r Hr). now rewrite app_assoc.
Qed.

Lemma carrying_remap (sql : string) (p : Z) :
  1 <= p -> carrying (remapPlaceholders sql p) (map (fun k => p + k - 1) (markers sql)).
Proof.
  intros Hp r Hr.
  rewrite (markers_scan_app _ r (snd (markers_scan r)))
    by (destruct (markers_scan r); simpl in *; now subst).
  simpl. f_equal. apply (markers_remap p sql Hp).
Qed.

Lemma carrying_dollar (n : Z) : 0 <= n -> carrying ("$" ++ itoa n) [n].
Proof.
  intros Hn r Hr. rewrite append_assoc.
  rewrite (markers_scan_dollar_digits n r (snd (markers_scan r)) Hn)
    by (destruct (markers_scan r); simpl in *; now subst).
  reflexivity.
Qed.

Lemma carrying_markers (t : string) (ms : list Z) : carrying t ms -> markers t = ms.
Proof.
  intros H. unfold markers. rewrite <- (append_nil_r t). rewrite (H "" eq_refl).
  simpl. now rewrite app_nil_r.
Qed.

Lemma inert_uint (u : uint) : inert (NilEmpty.string_of_uint u) = true.
Proof. induction u; simpl; auto. Qed.

Lemma inert_itoa (n : Z) : inert (itoa n) = true.
Proof.
  unfold itoa, NilZero.string_of_int, NilZero.string_of_uint.
  destruct (Z.to_int n) as [d|d]; destruct d; simpl; try reflexivity; apply inert_uint.
Qed.

Lemma inert_concat (sep : string) (l : list string) :
  inert sep = true -> Forall (fun s => inert s = true) l -> inert (String.concat sep l) = true.
Proof.
  intros Hsep H. induction H as [|s l Hs Hl IH]; [reflexivity|].
  destruct l as [|s' l]; [exact Hs|].
  change (String.concat sep (s :: s' :: l)) with (s ++ sep ++ String.concat sep (s' :: l)).
  rewrite !inert_app, Hs, Hsep, IH. reflexivity.
Qed.

Section Placed.

Variable X : Externals.

Lemma writeEqualityEntry_placed (k : string) (v : Value) :
  inert (writeIdentifier X k) = true ->
  forall w m, 1 <= pos w -> sealed (buf w) m ->
    carrying (buf (writeEqualityEntry X k v w)) (m ++ range (pos w) (List.length (entryArgs v)))
    /\ pos (writeEqualityEntry X k v w) = pos w + len (entryArgs v).
Proof.
  intros Hk w m Hp Hw.
  assert (Hnull : carrying (buf w ++ writeIdentifier X k ++ " IS NULL") (m ++ [])
                  /\ pos w = pos w + 0).
  { split; [|lia]. rewrite app_nil_r. apply sealed_carrying, sealed_inert; [exact Hw|].
    rewrite inert_app, Hk. reflexivity. }
  assert (Hbound : forall op x, inert op = true ->
            carrying (buf (writeBound X k op x w)) (m ++ range (pos w) 1)
            /\ pos (writeBound X k op x w) = pos w + 1).
  { intros op x Hop. split; [|reflexivity].
    unfold writeBound, bindArg, WriteString. cbn [buf].
    change (carrying (buf w ++ writeIdentifier X k ++ op ++ ("$" ++ itoa (pos w)))
              (m ++ range (pos w) 1)).
    rewrite <- (append_assoc (writeIdentifier X k)), <- (append_assoc (buf w)).
    rewrite range_S. apply sealed_then_carrying; [|apply carrying_dollar; lia].
    apply sealed_inert; [exact Hw|]. rewrite inert_app, Hk, Hop. reflexivity. }
  destruct v as [| ? | ? | ? | [[|x [|y l]]|] | ? ?]; try (apply Hbound; reflexivity);
    try exact Hnull.
  split; [|cbn; unfold len; simpl; lia]. cbn [entryArgs List.length range seq map]. rewrite app_nil_r. apply sealed_carrying. apply (sealed_inert _ "1=0"); [exact Hw|reflexivity].
Qed.


Lemma andPrefix_glue (any : bool) (w : Writer) (m : list Z) :
  carrying (buf w) m -> sealed (buf (WriteString (andPrefix any) w)) m.
Proof.
  intros H. cbn [WriteString buf].
  destruct any; apply carrying_glue; try exact H; try reflexivity; discriminate.
Qed.

Lemma close_glue (w : Writer) (m : list Z) :
  carrying (buf w) m -> carrying (buf (WriteString ")" w)) m.
Proof.
  intros H. cbn [WriteString buf]. apply sealed_carrying.
  apply carrying_glue; [exact H | discriminate | reflexivity | reflexivity].
Qed.

Lemma entries_args_split (kv : string * Value) (l : EqMap) (p : Z) :
  range p (List.length (flat_map (fun kv => entryArgs (snd kv)) (kv :: l)))
  = (range p (List.length (entryArgs (snd kv)))
     ++ range (p + len (entryArgs (snd kv)))
          (List.length (flat_map (fun kv => entryArgs (snd kv)) l)))%list.
Proof. cbn [flat_map]. now rewrite length_app, range_app. Qed.

Lemma writeEqualityEntries_placed (entries : EqMap) :
  Forall (inertKey X) entries ->
  forall any w m, 1 <= pos w -> carrying (buf w) m ->
    carrying (buf (snd (writeEqualityEntries X entries any w)))
      (m ++ range (pos w) (List.length (flat_map (fun kv => entryArgs (snd kv)) entries)))
    /\ pos (snd (writeEqualityEntries X entries any w))
       = pos w + len (flat_map (fun kv => entryArgs (snd kv)) entries).
Proof.
  induction 1 as [|[k v] l Hk Hl IH]; intros any w m Hp Hw.
  - simpl. rewrite app_nil_r. split; [exact Hw | unfold len; simpl; lia].
  - cbn [writeEqualityEntries].
    destruct (writeEqualityEntry_placed k v Hk (WriteString (andPrefix any) w) m Hp
                (andPrefix_glue any w m Hw)) as [Hc Hpos].
    cbn [WriteString pos] in Hpos.
    destruct (IH true (WriteString ")" (writeEqualityEntry X k v (WriteString (andPrefix any) w)))
                (m ++ range (pos w) (List.length (entryArgs v)))%list) as [Hc' Hpos'].
    + cbn [WriteString pos]. rewrite Hpos. pose proof (len_nonneg (entryArgs v)). lia.
    + apply close_glue. exact Hc.
    + cbn [WriteString pos] in Hc', Hpos'. rewrite Hpos in Hc', Hpos'.
      rewrite (entries_args_split (k, v) l), app_assoc. cbn [snd].
      split; [exact Hc'|]. rewrite Hpos'. cbn [flat_map snd]. rewrite len_app. lia.
Qed.

Lemma inertKey_rangeMap (m : EqMap) :
  Forall (inertKey X) m -> Forall (inertKey X) (rangeMap X m).
Proof.
  intros H. apply Forall_forall. intros kv Hin.
  apply (proj1 (Forall_forall _ _) H).
  apply (Permutation_in _ (Permutation_sym (shuffle_Permutation m (mapOrder X m)))).
  exact Hin.
Qed.

Lemma writeAndFragments_placed (fs : list whereFragment) :
  Forall (inertKeys X) fs ->
  forall any w m, 1 <= pos w -> carrying (buf w) m ->
    carrying (buf (writeAndFragments X fs any w)) (m ++ placed X (pos w) fs)
    /\ pos (writeAndFragments X fs any w) = pos w + len (flat_map (fragmentArgs X) fs).
Proof.
  induction 1 as [|f fs Hf Hfs IH]; intros any w m Hp Hw.
  - simpl. rewrite app_nil_r. split; [exact Hw | unfold len; simpl; lia].
  - destruct f as [sql values | em].
    + cbn [writeAndFragments].
      destruct (IH true (WriteString ")" (WriteRelativeArgs (Expr sql values)
                                            (WriteString (andPrefix any) w)))
                  (m ++ map (fun k => pos w + k - 1) (markers sql))%list) as [Hc Hpos].
      * cbn [WriteString WriteRelativeArgs pos Args]. pose proof (len_nonneg values). lia.
      * apply close_glue. cbn [WriteRelativeArgs buf Sql].
        apply sealed_then_carrying; [now apply andPrefix_glue | now apply carrying_remap].
      * cbn [WriteString WriteRelativeArgs pos Args] in Hc, Hpos.
        cbn [placed fragmentMarkers fragmentArgs flat_map]. rewrite app_assoc.
        split; [exact Hc|]. rewrite Hpos, len_app. lia.
    + cbn [writeAndFragments]. unfold writeEqualityMapToSQL.
      destruct (writeEqualityEntries_placed (rangeMap X em) (inertKey_rangeMap em Hf)
                  any w m Hp Hw) as [Hc Hpos].
      destruct (writeEqualityEntries X (rangeMap X em) any w) as [any' w'].
      cbn [snd] in Hc, Hpos.
      destruct (IH any' w' _ ltac:(rewrite Hpos;
                  pose proof (len_nonneg (flat_map (fun kv => entryArgs (snd kv)) (rangeMap X em)));
                  lia) Hc) as [Hc' Hpos'].
      rewrite Hpos in Hc', Hpos'.
      cbn [placed fragmentMarkers fragmentArgs flat_map]. rewrite app_assoc.
      split; [exact Hc'|]. rewrite Hpos', len_app. lia.
Qed.


Lemma before_separated (sep : string) (i : nat) (w : Writer) (m : list Z) :
  sep <> "" -> opensPlain sep = true -> inert sep = true ->
  before i (buf w) m ->
  sealed (buf (if (0 <? i)%nat then WriteString sep w else w)) m.
Proof.
  unfold before. intros Hne Ho Hi H. destruct (0 <? i)%nat; [|exact H].
  cbn [WriteString buf]. now apply carrying_glue.
Qed.

Lemma before_carrying (i : nat) (t : string) (m : list Z) : before i t m -> carrying t m.
Proof. unfold before. destruct (0 <? i)%nat; [auto | apply sealed_carrying]. Qed.

Lemma pos_separated (sep : string) (i : nat) (w : Writer) :
  pos (if (0 <? i)%nat then WriteString sep w else w) = pos w.
Proof. now destruct (0 <? i)%nat. Qed.

Lemma entries_separated_placed (sep : string) (entries : EqMap) :
  sep <> "" -> opensPlain sep = true -> inert sep = true ->
  Forall (inertKey X) entries ->
  forall i w m, 1 <= pos w -> before i (buf w) m ->
    let w' := forRange (fun i kv w =>
                          writeEqualityEntry X (fst kv) (snd kv)
                            (if (0 <? i)%nat then WriteString sep w else w)) i entries w in
    carrying (buf w') (m ++ range (pos w)
                              (List.length (flat_map (fun kv => entryArgs (snd kv)) entries)))
    /\ pos w' = pos w + len (flat_map (fun kv => entryArgs (snd kv)) entries).
Proof.
  intros Hne Ho Hi. induction 1 as [|[k v] l Hk Hl IH]; intros i w m Hp Hw.
  - simpl. rewrite app_nil_r. split; [now apply (before_carrying i) | unfold len; simpl; lia].
  - cbn [forRange fst snd].
    destruct (writeEqualityEntry_placed k v Hk (if (0 <? i)%nat then WriteString sep w else w) m
                ltac:(now rewrite pos_separated)
                (before_separated sep i w m Hne Ho Hi Hw)) as [Hc Hpos].
    rewrite pos_separated in Hc, Hpos.
    destruct (IH (S i) _ _ ltac:(rewrite Hpos; pose proof (len_nonneg (entryArgs v)); lia) Hc)
      as [Hc' Hpos'].
    rewrite Hpos in Hc', Hpos'.
    rewrite (entries_args_split (k, v) l), app_assoc. cbn [snd].
    split; [exact Hc'|]. rewrite Hpos'. cbn [flat_map snd]. rewrite len_app. lia.
Qed.

Lemma writeFragment_placed (sep : string) (f : whereFragment) (w : Writer) (m : list Z) :
  sep <> "" -> opensPlain sep = true -> inert sep = true ->
  inertKeys X f -> 1 <= pos w -> sealed (buf w) m ->
  carrying (buf (writeFragment X sep f w)) (m ++ fragmentMarkers X (pos w) f)
  /\ pos (writeFragment X sep f w) = pos w + len (fragmentArgs X f).
Proof.
  intros Hne Ho Hi Hf Hp Hw. destruct f as [sql values | em].
  - cbn [writeFragment WriteRelativeArgs buf pos Sql Args fragmentMarkers fragmentArgs].
    split; [|reflexivity]. apply sealed_then_carrying; [exact Hw | now apply carrying_remap].
  - cbn [writeFragment fragmentMarkers fragmentArgs].
    apply (entries_separated_placed sep (rangeMap X em) Hne Ho Hi (inertKey_rangeMap em Hf)
             0%nat w m Hp Hw).
Qed.

Lemma writeCommaFragmentsToSQL_placed (fs : list whereFragment) (w : Writer) (m : list Z) :
  Forall (inertKeys X) fs -> 1 <= pos w -> sealed (buf w) m ->
  carrying (buf (writeCommaFragmentsToSQL X fs w)) (m ++ placed X (pos w) fs)
  /\ pos (writeCommaFragmentsToSQL X fs w) = pos w + len (flat_map (fragmentArgs X) fs).
Proof.
  intros Hfs Hp Hw. unfold writeCommaFragmentsToSQL.
  enough (Hi : forall i w m, 1 <= pos w -> before i (buf w) m ->
             let w' := forRange (fun i f w =>
                                   writeFragment X ", " f
                                     (if (0 <? i)%nat then WriteString ", " w else w)) i fs w in
             carrying (buf w') (m ++ placed X (pos w) fs)
             /\ pos w' = pos w + len (flat_map (fragmentArgs X) fs))
    by (apply (Hi 0%nat); assumption).
  clear w m Hp Hw. induction Hfs as [|f fs Hf Hfs IH]; intros i w m Hp Hw.
  - simpl. rewrite app_nil_r. split; [now apply (before_carrying i) | unfold len; simpl; lia].
  - cbn [forRange].
    destruct (writeFragment_placed ", " f (if (0 <? i)%nat then WriteString ", " w else w) m
                ltac:(discriminate) eq_refl eq_refl Hf ltac:(now rewrite pos_separated)
                (before_separated ", " i w m ltac:(discriminate) eq_refl eq_refl Hw))
      as [Hc Hpos].
    rewrite pos_separated in Hc, Hpos.
    destruct (IH (S i) _ _ ltac:(rewrite Hpos; pose proof (len_nonneg (fragmentArgs X f)); lia) Hc)
      as [Hc' Hpos'].
    rewrite Hpos in Hc', Hpos'. cbn [placed flat_map]. rewrite app_assoc.
    split; [exact Hc'|]. rewrite Hpos', len_app. lia.
Qed.

Lemma writeConcatFragmentsToSQL_placed (fs : list whereFragment) (w : Writer) (m : list Z) :
  Forall (inertKeys X) fs -> 1 <= pos w -> carrying (buf w) m ->
  carrying (buf (writeConcatFragmentsToSQL X fs w)) (m ++ placed X (pos w) fs)
  /\ pos (writeConcatFragmentsToSQL X fs w) = pos w + len (flat_map (fragmentArgs X) fs).
Proof.
  intros Hfs. unfold writeConcatFragmentsToSQL. generalize 0%nat as i. revert w m.
  induction Hfs as [|f fs Hf Hfs IH]; intros w m i Hp Hw.
  - simpl. rewrite app_nil_r. split; [exact Hw | unfold len; simpl; lia].
  - cbn [forRange].
    destruct (writeFragment_placed " " f (WriteString " " w) m
                ltac:(discriminate) eq_refl eq_refl Hf Hp
                (carrying_glue (buf w) " " m Hw ltac:(discriminate) eq_refl eq_refl))
      as [Hc Hpos].
    cbn [WriteString pos] in Hc, Hpos.
    destruct (IH _ _ (S i) ltac:(rewrite Hpos; pose proof (len_nonneg (fragmentArgs X f)); lia) Hc)
      as [Hc' Hpos'].
    rewrite Hpos in Hc', Hpos'. cbn [placed flat_map]. rewrite app_assoc.
    split; [exact Hc'|]. rewrite Hpos', len_app. lia.
Qed.

Lemma placed_app (fs1 fs2 : list whereFragment) (p : Z) :
  placed X p (fs1 ++ fs2)
  = (placed X p fs1 ++ placed X (p + len (flat_map (fragmentArgs X) fs1)) fs2)%list.
Proof.
  revert p. induction fs1 as [|f fs1 IH]; intros p.
  - simpl. f_equal. unfold len. simpl. lia.
  - cbn [List.app placed flat_map]. rewrite IH, <- app_assoc, len_app.
    do 3 f_equal. lia.
Qed.


Lemma glue_then_inert (g s : string) :
  g <> "" -> opensPlain g = true -> inert g = true -> inert s = true ->
  forall w m, carrying (buf w) m -> sealed (buf w ++ g ++ s) m.
Proof.
  intros Hne Ho Hg Hs w m Hw. rewrite <- append_assoc.
  apply sealed_inert; [now apply carrying_glue | exact Hs].
Qed.

Lemma writeStrings_sealed (l : list string) (w : Writer) (m : list Z) :
  Forall (fun s => inert s = true) l -> sealed (buf w) m ->
  sealed (buf (writeStrings l w)) m /\ pos (writeStrings l w) = pos w.
Proof.
  intros Hl Hw. unfold writeStrings. rewrite forRange_joined. cbn [buf pos].
  split; [|reflexivity]. apply sealed_inert; [exact Hw|].
  destruct l as [|s l]; [reflexivity|]. cbn [Nat.ltb Nat.leb].
  rewrite map_id. change ("" ++ ?x) with x.
  apply inert_concat; [reflexivity | exact Hl].
Qed.

Lemma writeDistinct_sealed (b : SelectBuilder) (w : Writer) (m : list Z) :
  Forall (fun s => inert s = true) (distinctColumns b) -> sealed (buf w) m ->
  sealed (buf (writeDistinct b w)) m /\ pos (writeDistinct b w) = pos w.
Proof.
  intros Hl Hw. unfold writeDistinct. destruct (isDistinct b); [|split; [exact Hw|reflexivity]].
  destruct (len (distinctColumns b) =? 0).
  - split; [|reflexivity]. cbn [WriteString buf]. now apply sealed_inert.
  - destruct (writeStrings_sealed (distinctColumns b) (WriteString "DISTINCT ON (" w) m Hl)
      as [Hs Hp].
    + cbn [WriteString buf]. now apply sealed_inert.
    + cbn [WriteString buf pos]. split; [now apply sealed_inert | exact Hp].
Qed.

Lemma writeGroupBys_quiet (b : SelectBuilder) :
  Forall (fun s => inert s = true) (groupBys b) -> quiet (writeGroupBys b).
Proof.
  intros Hl w m Hw. unfold writeGroupBys.
  destruct (0 <? len (groupBys b)); [|split; [exact Hw|reflexivity]].
  destruct (writeStrings_sealed (groupBys b) (WriteString " GROUP BY " w) m Hl) as [Hs Hp].
  - cbn [WriteString buf]. apply carrying_glue; [exact Hw | discriminate | reflexivity | reflexivity].
  - split; [now apply sealed_carrying | exact Hp].
Qed.

Lemma writeLimitOffset_quiet (b : SelectBuilder) : quiet (writeLimitOffset b).
Proof.
  assert (Hn : forall kw n, kw <> "" -> opensPlain kw = true -> inert kw = true ->
             quiet (fun w => writeUint64 n (WriteString kw w))).
  { intros kw n Hne Ho Hi w m Hw. unfold writeUint64. cbn [WriteString buf pos].
    split; [|reflexivity]. apply sealed_carrying. rewrite append_assoc.
    apply glue_then_inert; auto using inert_itoa. }
  intros w m Hw. unfold writeLimitOffset.
  assert (H1 : carrying (buf (if limitValid b
                              then writeUint64 (limitCount b) (WriteString " LIMIT " w)
                              else w)) m
               /\ pos (if limitValid b
                       then writeUint64 (limitCount b) (WriteString " LIMIT " w)
                       else w) = pos w).
  { destruct (limitValid b); [|split; [exact Hw|reflexivity]].
    apply (Hn " LIMIT " (limitCount b)); [discriminate | reflexivity | reflexivity | exact Hw]. }
  destruct H1 as [H1 P1]. destruct (offsetValid b); [|split; assumption].
  destruct (Hn " OFFSET " (offsetCount b) ltac:(discriminate) eq_refl eq_refl _ m H1)
    as [H2 P2].
  split; [exact H2 | now rewrite P2].
Qed.

Lemma writeFors_quiet (b : SelectBuilder) :
  Forall (fun s => inert s = true) (fors b) -> quiet (writeFors b).
Proof.
  intros Hl w m Hw. unfold writeFors.
  destruct (0 <? len (fors b)); [|split; [exact Hw|reflexivity]].
  assert (H0 : sealed (buf (WriteString " FOR" w)) m)
    by (cbn [WriteString buf]; apply carrying_glue;
        [exact Hw | discriminate | reflexivity | reflexivity]).
  change (pos w) with (pos (WriteString " FOR" w)).
  revert H0. generalize (WriteString " FOR" w).
  induction Hl as [|s l Hs Hl IH]; intros w' H0.
  - split; [now apply sealed_carrying | reflexivity].
  - cbn [fold_left]. destruct (IH (WriteString s (WriteString " " w'))) as [Hc Hp].
    + cbn [WriteString buf]. apply sealed_inert; [|exact Hs]. now apply sealed_inert.
    + split; [exact Hc | exact Hp].
Qed.

Lemma writeWhere_placed (fs : list whereFragment) (w : Writer) (m : list Z) :
  Forall (inertKeys X) fs -> 1 <= pos w -> carrying (buf w) m ->
  carrying (buf (writeWhere X fs w)) (m ++ placed X (pos w) fs)
  /\ pos (writeWhere X fs w) = pos w + len (flat_map (fragmentArgs X) fs).
Proof.
  intros Hfs Hp Hw. unfold writeWhere, writeAndFragmentsToSQL. rewrite len_pos.
  destruct fs as [|f fs].
  - simpl. rewrite app_nil_r. split; [exact Hw | unfold len; simpl; lia].
  - apply (writeAndFragments_placed (f :: fs) Hfs false (WriteString " WHERE " w) m Hp).
    cbn [WriteString buf]. apply sealed_carrying.
    apply carrying_glue; [exact Hw | discriminate | reflexivity | reflexivity].
Qed.

Lemma writeHaving_placed (b : SelectBuilder) (w : Writer) (m : list Z) :
  Forall (inertKeys X) (havingFragments b) -> 1 <= pos w -> carrying (buf w) m ->
  carrying (buf (writeHaving X b w)) (m ++ placed X (pos w) (havingFragments b))
  /\ pos (writeHaving X b w) = pos w + len (flat_map (fragmentArgs X) (havingFragments b)).
Proof.
  intros Hfs Hp Hw. unfold writeHaving, writeAndFragmentsToSQL. rewrite len_pos.
  destruct (havingFragments b) as [|f fs].
  - simpl. rewrite app_nil_r. split; [exact Hw | unfold len; simpl; lia].
  - apply (writeAndFragments_placed (f :: fs) Hfs false (WriteString " HAVING " w) m Hp).
    cbn [WriteString buf]. apply sealed_carrying.
    apply carrying_glue; [exact Hw | discriminate | reflexivity | reflexivity].
Qed.

Lemma writeOrderBys_placed (b : SelectBuilder) (w : Writer) (m : list Z) :
  Forall (inertKeys X) (orderBys b) -> 1 <= pos w -> carrying (buf w) m ->
  carrying (buf (writeOrderBys X b w)) (m ++ placed X (pos w) (orderBys b))
  /\ pos (writeOrderBys X b w) = pos w + len (flat_map (fragmentArgs X) (orderBys b)).
Proof.
  intros Hfs Hp Hw. unfold writeOrderBys. rewrite len_pos.
  destruct (orderBys b) as [|f fs].
  - simpl. rewrite app_nil_r. split; [exact Hw | unfold len; simpl; lia].
  - apply (writeCommaFragmentsToSQL_placed (f :: fs) (WriteString " ORDER BY " w) m Hfs Hp).
    cbn [WriteString buf].
    apply carrying_glue; [exact Hw | discriminate | reflexivity | reflexivity].
Qed.

Lemma applyScope_placed (b : SelectBuilder) (from : string)
  (fs fs' : list whereFragment) (w w' : Writer) (m : list Z) :
  (forall sc from, scope b = Some sc ->
     opensPlain (fst (splitWhere X (fst (sc from)))) = true
     /\ inert (fst (splitWhere X (fst (sc from)))) = true) ->
  carrying (buf w) m ->
  applyScope X (scope b) from fs w = Ok (fs', w') ->
  carrying (buf w') m /\ pos w' = pos w.
Proof.
  intros Hsc Hw. unfold applyScope. destruct (scope b) as [sc|].
  - specialize (Hsc sc from eq_refl). destruct (sc from) as [sql args2]. cbn [fst] in Hsc.
    destruct (splitWhere X sql) as [sql' whereText]. cbn [fst] in Hsc. destruct Hsc as [Ho Hi].
    destruct (String.eqb whereText ""); cbn [negb newWhereFragment];
      intros E; inversion E; subst; cbn [WriteString buf pos];
      (split; [now apply carrying_plain | reflexivity]).
  - intros E. inversion E; subst. split; [exact Hw | reflexivity].
Qed.

(** From the end of the FROM clause to the end of the statement. *)
Lemma select_tail_placed (b : SelectBuilder) (fs : list whereFragment) (w : Writer) (m : list Z) :
  Forall (fun s => inert s = true) (groupBys b) ->
  Forall (fun s => inert s = true) (fors b) ->
  Forall (inertKeys X) fs -> Forall (inertKeys X) (havingFragments b) ->
  Forall (inertKeys X) (orderBys b) ->
  1 <= pos w -> carrying (buf w) m ->
  carrying (buf (writeFors b (writeLimitOffset b (writeOrderBys X b
                   (writeHaving X b (writeGroupBys b (writeWhere X fs w)))))))
    (m ++ placed X (pos w) (fs ++ havingFragments b ++ orderBys b)).
Proof.
  intros Hg Hf Hfs Hh Ho Hp Hw.
  destruct (writeWhere_placed fs w m Hfs Hp Hw) as [C1 P1].
  destruct (writeGroupBys_quiet b Hg _ _ C1) as [C2 P2].
  pose proof (len_nonneg (flat_map (fragmentArgs X) fs)) as L1.
  destruct (writeHaving_placed b _ _ Hh ltac:(rewrite P2, P1; lia) C2) as [C3 P3].
  rewrite P2, P1 in C3, P3.
  pose proof (len_nonneg (flat_map (fragmentArgs X) (havingFragments b))) as L2.
  destruct (writeOrderBys_placed b _ _ Ho ltac:(rewrite P3; lia) C3) as [C4 P4].
  rewrite P3 in C4.
  destruct (writeLimitOffset_quiet b _ _ C4) as [C5 P5].
  destruct (writeFors_quiet b Hf _ _ C5) as [C6 P6].
  rewrite !placed_app, !app_assoc. exact C6.
Qed.

Lemma placed_in_range (fs : list whereFragment) :
  Forall ownArguments fs ->
  forall p, Forall (fun k => p <= k < p + len (flat_map (fragmentArgs X) fs)) (placed X p fs).
Proof.
  induction 1 as [|f fs Hf Hfs IH]; intros p; [constructor|].
  cbn [placed flat_map]. rewrite len_app.
  pose proof (len_nonneg (fragmentArgs X f)) as L1.
  pose proof (len_nonneg (flat_map (fragmentArgs X) fs)) as L2.
  apply Forall_app. split.
  - destruct f as [sql values | em]; cbn [fragmentMarkers fragmentArgs] in *.
    + apply Forall_map. cbn [ownArguments] in Hf.
      eapply Forall_impl; [|exact Hf]. cbv beta. intros k Hk. lia.
    + unfold range. apply Forall_map. apply Forall_forall. intros i Hi.
      apply in_seq in Hi. unfold len. lia.
  - eapply Forall_impl; [|apply IH]. cbv beta. intros k Hk. lia.
Qed.

End Placed.

Lemma scopeFragments_inertKeys (X : Externals) (b : SelectBuilder) (from : string) :
  Forall (inertKeys X) (scopeFragments X b from).
Proof.
  unfold scopeFragments. destruct (scope b) as [sc|]; [|constructor].
  destruct (String.eqb _ ""); repeat constructor.
Qed.

Lemma select_scope_tail_placed (X : Externals) (b : SelectBuilder) (from : string)
  (fs' : list whereFragment) (w w' : Writer) (m : list Z) :
  plainText X b -> 1 <= pos w -> carrying (buf w) m ->
  applyScope X (scope b) from (sel_whereFragments b) w = Ok (fs', w') ->
  carrying (buf (writeFors b (writeLimitOffset b (writeOrderBys X b
                   (writeHaving X b (writeGroupBys b (writeWhere X fs' w')))))))
    (m ++ placed X (pos w)
            (sel_whereFragments b ++ scopeFragments X b from
             ++ havingFragments b ++ orderBys b)).
Proof.
  intros [Hnames [Hkeys Hscope]] Hp Hw E.
  apply Forall_app in Hnames. destruct Hnames as [_ Hnames].
  apply Forall_app in Hnames. destruct Hnames as [_ Hnames].
  apply Forall_app in Hnames. destruct Hnames as [Hg Hf].
  apply Forall_app in Hkeys. destruct Hkeys as [_ Hkeys].
  apply Forall_app in Hkeys. destruct Hkeys as [_ Hkeys].
  apply Forall_app in Hkeys. destruct Hkeys as [Hwh Hkeys].
  apply Forall_app in Hkeys. destruct Hkeys as [Hh Ho].
  destruct (applyScope_placed X b from _ _ _ _ m Hscope Hw E) as [Hw' Hp'].
  apply applyScope_fragments in E. destruct E as [-> _].
  rewrite <- Hp'. rewrite app_assoc.
  apply select_tail_placed; try assumption; [|now rewrite Hp'].
  apply Forall_app. split; [exact Hwh | apply scopeFragments_inertKeys].
Qed.

(** X21.  In the statement SelectBuilder.ToSQL renders, the placeholders
    are those of the fragments, in the order FROM, JOIN, WHERE, scope,
    HAVING, ORDER BY, each fragment's own numbers moved to where its
    arguments lie in the bound list, whatever the order of the calls; the
    bound list is these arguments in the same order.  So when every raw
    fragment names only its own arguments, every placeholder of the
    statement names one of the bound arguments.  This holds for a builder
    whose names hold no dollar sign. *)
Theorem X21_placeholders_aligned (X : Externals) (b : SelectBuilder)
  (sql : string) (a : list Value) :
  plainText X b ->
  SelectBuilder_ToSQL X b = (sql, a, None) ->
  exists from,
    let fs := (tableFragments b ++ joinFragments b ++ sel_whereFragments b
               ++ scopeFragments X b from ++ havingFragments b ++ orderBys b)%list in
    markers sql = placed X 1 fs
    /\ a = flat_map (fragmentArgs X) fs
    /\ (Forall ownArguments fs -> Forall (fun k => 1 <= k <= len a) (markers sql)).
Proof.
  intros Hplain H.
  enough (Hm : exists from,
             markers sql
             = placed X 1 (tableFragments b ++ joinFragments b ++ sel_whereFragments b
                           ++ scopeFragments X b from ++ havingFragments b ++ orderBys b)
             /\ a = flat_map (fragmentArgs X)
                      (tableFragments b ++ joinFragments b ++ sel_whereFragments b
                       ++ scopeFragments X b from ++ havingFragments b ++ orderBys b)).
  { destruct Hm as [from [Hm Ha]]. exists from. cbv zeta.
    split; [exact Hm|]. split; [exact Ha|]. intros Hown.
    rewrite Hm, Ha. eapply Forall_impl; [|apply (placed_in_range X _ Hown 1)].
    cbv beta. intros k Hk. lia. }
  pose proof Hplain as [Hnames [Hkeys _]].
  apply Forall_app in Hnames. destruct Hnames as [Hcols Hnames].
  apply Forall_app in Hnames. destruct Hnames as [Hdist _].
  apply Forall_app in Hkeys. destruct Hkeys as [Htabs Hkeys].
  apply Forall_app in Hkeys. destruct Hkeys as [Hjoins _].
  unfold SelectBuilder_ToSQL in H.
  destruct (sel_err b); [discriminate|].
  destruct (len (columns b) =? 0); [discriminate|].
  rewrite len_zero, len_pos in H.
  destruct (writeDistinct_sealed b (WriteString "SELECT " (mkWriter "" [] 1)) [] Hdist
              ltac:(cbn [WriteString buf]; apply sealed_inert; [apply sealed_nil|reflexivity]))
    as [S0 P0].
  destruct (writeStrings_sealed (columns b) _ [] Hcols S0) as [S1 P1].
  rewrite P0 in P1. cbn [WriteString pos] in P1.
  destruct (tableFragments b) as [|t ts] eqn:Et.
  - destruct (joinFragments b) as [|j js] eqn:Ej; [|discriminate].
    cbn [andb] in H. rewrite len_pos in H. cbv beta iota zeta in H.
    destruct (applyScope X (scope b) "" (sel_whereFragments b) _) as [[fs' w']|e] eqn:E;
      [|discriminate].
    pose proof (select_scope_tail_placed X b "" fs' _ w' [] Hplain
                  ltac:(rewrite P1; lia) (sealed_carrying _ _ S1) E) as Hc.
    apply applyScope_fragments in E. destruct E as [-> Hw'].
    inversion H; subst. exists "". split.
    + apply carrying_markers. rewrite P1 in Hc. exact Hc.
    + rewrite writeFors_args, writeLimitOffset_args, writeOrderBys_bound, writeHaving_bound,
        writeGroupBys_args, writeWhere_bound, Hw', writeStrings_args, writeDistinct_args.
      simpl. rewrite !flat_map_app. now rewrite <- !app_assoc.
  - cbn [andb] in H. rewrite len_pos in H. unfold onBuffer in H. cbv beta iota zeta in H.
    cbn [WriteString pos] in H. rewrite P1 in H.
    match type of H with
    | context [applyScope X (scope b) ?from ?fs ?w] =>
        destruct (applyScope X (scope b) from fs w) as [[fs' w']|e] eqn:E; [|discriminate];
        exists from;
        pose proof (fun m Hp Hw => select_scope_tail_placed X b from fs' w w' m Hplain Hp Hw E)
          as Hc
    end.
    cbn [WriteString buf pos] in Hc.
    match type of Hc with
    | context [writeCommaFragmentsToSQL X (t :: ts) ?w0] =>
        destruct (writeCommaFragmentsToSQL_placed X (t :: ts) w0 [] Htabs
                    ltac:(cbn [pos]; lia) sealed_nil) as [C2 P2]
    end.
    cbn [pos] in C2, P2.
    pose proof (len_nonneg (flat_map (fragmentArgs X) (t :: ts))) as L2.
    destruct (writeConcatFragmentsToSQL_placed X (joinFragments b) _ _ Hjoins
                ltac:(rewrite P2; lia) C2) as [C3 P3].
    rewrite P2 in C3, P3.
    pose proof (len_nonneg (flat_map (fragmentArgs X) (joinFragments b))) as L3.
    specialize (Hc ([] ++ (([] ++ placed X 1 (t :: ts))
                           ++ placed X (1 + len (flat_map (fragmentArgs X) (t :: ts)))
                                (joinFragments b)))%list
                  ltac:(rewrite P3; lia)
                  (sealed_then_carrying _ _ _ _
                     (sealed_inert _ " FROM " _ S1 eq_refl) C3)).
    rewrite P3 in Hc.
    apply applyScope_fragments in E. destruct E as [-> Hw'].
    inversion H; subst. split.
    + apply carrying_markers.
      rewrite (placed_app X (t :: ts)), (placed_app X (joinFragments b)).
      cbn [List.app] in Hc. rewrite <- app_assoc in Hc.
      exact Hc.
    + rewrite writeFors_args, writeLimitOffset_args, writeOrderBys_bound, writeHaving_bound,
        writeGroupBys_args, writeWhere_bound, Hw'.
      cbn [WriteString args]. rewrite writeConcatFragmentsToSQL_bound,
        writeCommaFragmentsToSQL_bound. cbn [args].
      rewrite writeStrings_args, writeDistinct_args. simpl args.
      rewrite !flat_map_app. cbn [List.app]. now rewrite <- !app_assoc.
Qed.

Lemma X21_placeholders_aligned_witness :
  exists from,
    let fs := (tableFragments select_having_then_where ++ joinFragments select_having_then_where
               ++ sel_whereFragments select_having_then_where
               ++ scopeFragments testExternals select_having_then_where from
               ++ havingFragments select_having_then_where
               ++ orderBys select_having_then_where)%list in
    markers "SELECT a FROM b WHERE (d = $1) HAVING (c = $2)" = placed testExternals 1 fs
    /\ [VInt 1; VInt 2] = flat_map (fragmentArgs testExternals) fs
    /\ (Forall ownArguments fs ->
        Forall (fun k => 1 <= k <= len [VInt 1; VInt 2])
          (markers "SELECT a FROM b WHERE (d = $1) HAVING (c = $2)")).
Proof.
  apply (X21_placeholders_aligned testExternals select_having_then_where).
  - split; [repeat constructor|]. split; [repeat constructor|]. intros sc from E. discriminate E.
  - vm_compute. reflexivity.
Defined.
